(** * The grep tool and its search telemetry

    A shallow embedding of [packages/core/src/tools/grep.ts] (class
    [GrepTool]) and of the telemetry classes of
    [packages/core/src/services/testBenchAnalytics.ts]
    ([TestBenchAnalytics], [SearchSession]).

    Conventions of the embedding:
    - a JavaScript string is a [string]: a sequence of 8-bit code units
      (the model covers strings whose UTF-16 code units are below 256);
    - a JavaScript number holding a line number, a count or an index is a
      [Z]; a number holding a score, a weight or a duration is an exact
      rational [Q] (the rounding of IEEE doubles is not modelled);
    - [null]/[undefined] are [None]; thrown errors are values of [JsError];
    - the host (regular expressions, the [path] module, the file system,
      child processes, the clock) is an interface, [Host], of read-only
      oracles; the code that touches them records an [Event]. *)

From Stdlib Require Import ZArith QArith Qminmax Lqa Lia Ascii String List Sorted Permutation.
From stdpp Require Import base option list strings pretty.

Import ListNotations.
Local Open Scope Z_scope.

(** ** JavaScript string primitives *)

Module JS.

(** Characters that cannot be written inside a literal here. *)
Definition dquote : string := String "034"%char EmptyString.
Definition LF : string := String "010"%char EmptyString.
Definition CRLF : string := String "013"%char LF.

(** [WhiteSpace] and [LineTerminator] code units below 256: the set
    stripped by [String.prototype.trim] and skipped by [parseInt]. *)
Definition isWhiteSpace (c : ascii) : bool :=
  let n := nat_of_ascii c in
  ((9 <=? n) && (n <=? 13) || (n =? 32) || (n =? 160))%nat.

Fixpoint trimStart (s : string) : string :=
  match s with
  | String c s' => if isWhiteSpace c then trimStart s' else s
  | EmptyString => EmptyString
  end.

Definition trimEnd (s : string) : string :=
  String.rev (trimStart (String.rev s)).

(** [s.trim()] *)
Definition trim (s : string) : string := trimEnd (trimStart s).

(** [s.length] *)
Definition length (s : string) : Z := Z.of_nat (String.length s).

Fixpoint drop (n : nat) (s : string) : string :=
  match n, s with
  | S k, String _ s' => drop k s'
  | _, _ => s
  end.

Fixpoint indexOf_scan (search s : string) (i : Z) : Z :=
  if String.prefix search s then i
  else match s with
       | String _ s' => indexOf_scan search s' (i + 1)
       | EmptyString => -1
       end.

(** [s.indexOf(search, from)]: the least index [>= from] at which
    [search] occurs, or [-1]. *)
Definition indexOf (s search : string) (from : nat) : Z :=
  let k := Nat.min from (String.length s) in
  indexOf_scan search (drop k s) (Z.of_nat k).

(** [s.includes(search)] *)
Definition includes (s search : string) : bool :=
  negb (indexOf s search 0 =? -1).

(** [s.substring(start, end)], both indices already integers [>= 0]. *)
Definition substring (s : string) (i j : nat) : string :=
  String.substring (Nat.min i j) (Nat.max i j - Nat.min i j) s.

(** [s.substring(start)] *)
Definition substringFrom (s : string) (i : nat) : string := drop i s.

(** [s.split(sep)] for a non-empty separator: scan left to right;
    [skip] counts the code units of a separator still to be passed over,
    [cur] is the piece being read, reversed. *)
Fixpoint split_scan (sep s : string) (skip : nat) (cur : string) : list string :=
  match s with
  | EmptyString => [String.rev cur]
  | String c s' =>
      match skip with
      | S k => split_scan sep s' k cur
      | O =>
          if String.prefix sep s
          then String.rev cur :: split_scan sep s' (String.length sep - 1) EmptyString
          else split_scan sep s' 0 (String c cur)
      end
  end.

Definition split (s sep : string) : list string := split_scan sep s 0 EmptyString.

(** [arr.join(sep)] *)
Definition join (l : list string) (sep : string) : string := String.concat sep l.

(** JavaScript truthiness of a string, and of an optional string. *)
Definition truthy (s : string) : bool := negb (String.eqb s EmptyString).

Definition truthy_opt (o : option string) : bool :=
  match o with Some s => truthy s | None => false end.

(** [a || b] on strings. *)
Definition or_else (a b : string) : string := if truthy a then a else b.

(** Decimal digits read by [parseInt(_, 10)]: the code units 48 to 57. *)
Definition digit (c : ascii) : option Z :=
  let n := Z.of_nat (nat_of_ascii c) in
  if (48 <=? n) && (n <=? 57) then Some (n - 48) else None.

Fixpoint digits (s : string) (acc : option Z) : option Z :=
  match s with
  | String c s' =>
      match digit c with
      | Some d => digits s' (Some (10 * default 0 acc + d))
      | None => acc
      end
  | EmptyString => acc
  end.

(** [parseInt(s, 10)]: leading white space is skipped, one sign is
    accepted, then the longest run of digits is read; [None] is [NaN]. *)
Definition parseInt (s : string) : option Z :=
  match trimStart s with
  | String "-" r => Z.opp <$> digits r None
  | String "+" r => digits r None
  | r => digits r None
  end.

(** [String(n)] for an integer. *)
Definition ofZ (n : Z) : string := pretty n.

End JS.

(** [s.split(/\r?\n/)]: a line feed, with the carriage return before it
    when there is one, separates two pieces. *)
Fixpoint splitLines_scan (s : string) (cur : string) : list string :=
  match s with
  | EmptyString => [String.rev cur]
  | String c s' =>
      if Ascii.eqb c "010" then
        String.rev (match cur with String "013" cur' => cur' | _ => cur end)
          :: splitLines_scan s' EmptyString
      else splitLines_scan s' (String c cur)
  end.

Definition splitLines (s : string) : list string := splitLines_scan s EmptyString.

(** [arr.slice(i, j)]: a negative index counts from the end, and both are
    clamped to the array. *)
Definition slice_index (len k : Z) : Z :=
  if k <? 0 then Z.max (len + k) 0 else Z.min k len.

Definition slice {A} (l : list A) (i j : Z) : list A :=
  let len := Z.of_nat (List.length l) in
  let a := slice_index len i in
  let b := slice_index len j in
  firstn (Z.to_nat (b - a)) (skipn (Z.to_nat a) l).

(** [arr.sort(cmp)]: the sort is stable, so for a comparator that orders
    by a key its result is the stable insertion of the elements, left to
    right. [gt a b] stands for [cmp(a, b) > 0]. *)
Fixpoint sort_insert {A} (gt : A -> A -> bool) (x : A) (l : list A) : list A :=
  match l with
  | [] => [x]
  | y :: l' => if gt y x then x :: l else y :: sort_insert gt x l'
  end.

Definition sort {A} (gt : A -> A -> bool) (l : list A) : list A :=
  fold_left (fun acc x => sort_insert gt x acc) l [].

(** ** Plain objects used as maps

    [{}] keeps its own properties in creation order; a read of a missing
    key falls through to [Object.prototype]; [for (k in o)] visits the
    array-index keys first, in ascending numeric order, then the other
    keys in creation order. *)
Module JsObject.

Definition t (V : Type) := list (string * V).

Definition objectPrototypeKeys : list string :=
  [ "constructor"; "toString"; "toLocaleString"; "valueOf"; "hasOwnProperty";
    "isPrototypeOf"; "propertyIsEnumerable"; "__proto__"; "__defineGetter__";
    "__defineSetter__"; "__lookupGetter__"; "__lookupSetter__" ].

Inductive lookup_result (V : Type) :=
  | Own (v : V)
  | Inherited
  | Undefined.
Arguments Own {V} v.
Arguments Inherited {V}.
Arguments Undefined {V}.

Fixpoint own {V} (o : t V) (k : string) : option V :=
  match o with
  | [] => None
  | (k', v) :: o' => if String.eqb k' k then Some v else own o' k
  end.

(** [o[k]] *)
Definition get {V} (o : t V) (k : string) : lookup_result V :=
  match own o k with
  | Some v => Own v
  | None => if existsb (String.eqb k) objectPrototypeKeys then Inherited else Undefined
  end.

(** [o[k] = v] on a key that is own already, or new and not [__proto__]. *)
Fixpoint set {V} (o : t V) (k : string) (v : V) : t V :=
  match o with
  | [] => [(k, v)]
  | (k', v') :: o' => if String.eqb k' k then (k', v) :: o' else (k', v') :: set o' k v
  end.

(** The canonical numeric strings below [2^32 - 1]. *)
Definition arrayIndex (k : string) : option Z :=
  match JS.digits k None with
  | Some n => if String.eqb (JS.ofZ n) k && (n <? 4294967295) then Some n else None
  | None => None
  end.

Definition isArrayIndex (k : string) : bool :=
  match arrayIndex k with Some _ => true | None => false end.

Definition index_gt {V} (a b : string * V) : bool :=
  default 0 (arrayIndex (fst a)) >? default 0 (arrayIndex (fst b)).

(** The entries in the order in which [for (k in o)] visits them. *)
Definition forIn {V} (o : t V) : list (string * V) :=
  sort index_gt (filter (fun e => isArrayIndex (fst e) = true) o)
    ++ filter (fun e => isArrayIndex (fst e) = false) o.

End JsObject.

(** ** Data model *)

(** [GrepToolParams] *)
Record GrepToolParams := {
  pattern : string;
  path : option string;
  include : option string
}.

(** [GrepMatch] *)
Record GrepMatch := {
  filePath : string;
  lineNumber : Z;
  line : string
}.

(** [ToolResult] *)
Record ToolResult := {
  llmContent : string;
  returnDisplay : string
}.

Inductive SearchType := grep | embedding | glob | read_files.

Definition SearchType_name (t : SearchType) : string :=
  match t with
  | grep => "grep" | embedding => "embedding" | glob => "glob" | read_files => "read_files"
  end.

(** [MatchAnalytics] *)
Record MatchAnalytics := {
  ma_filePath : string;
  ma_lineNumber : option Z;
  matchText : string;
  contextBefore : option string;
  contextAfter : option string;
  relevanceScore : option Q;
  matchReason : string;
  fileSize : Z;
  fileLastModified : Q
}.

(** [RankingFactor] *)
Record RankingFactor := {
  factor : string;
  weight : Q;
  value : Q;
  impact : Q;
  explanation : string
}.

(** [SearchAnalytics]; the fields [embeddingDetails] and
    [searchParameters], which the grep tool never writes, are left out. *)
Record SearchAnalytics := {
  timestamp : Q;
  query : string;
  searchType : SearchType;
  targetPath : string;
  sa_pattern : option string;
  executionTimeMs : Q;
  resultsFound : Z;
  filesScanned : Z;
  matchDetails : list MatchAnalytics;
  searchStrategy : string;
  rankingFactors : option (list RankingFactor);
  toolDecisionReason : option string
}.

(** Thrown values. [errCode] is the [code] property of a Node.js system
    error. *)
Record JsError := {
  errName : string;
  errMessage : string;
  errCode : option string
}.

Definition mkError (msg : string) : JsError :=
  {| errName := "Error"; errMessage := msg; errCode := None |}.

Definition mkTypeError (msg : string) : JsError :=
  {| errName := "TypeError"; errMessage := msg; errCode := None |}.

Definition mkSyntaxError (msg : string) : JsError :=
  {| errName := "SyntaxError"; errMessage := msg; errCode := None |}.

(** Modelled from the spec: [getErrorMessage] of [utils/errors.ts], which
    is not among the sources; it gives the caller-facing string of an
    error, the [message] of an [Error]. *)
Definition getErrorMessage (e : JsError) : string := errMessage e.

(** Modelled from the spec: [isNodeError] of [utils/errors.ts], which is
    not among the sources; it holds of an [Error] that carries a [code]. *)
Definition isNodeError (e : JsError) : bool :=
  match errCode e with Some _ => true | None => false end.

(** [String(e)] for an [Error]: its name, then its message if any. *)
Definition errorToString (e : JsError) : string :=
  if JS.truthy (errMessage e) then errName e +:+ ": " +:+ errMessage e else errName e.

(** ** The host *)

Inductive Platform := posix | win32.

(** What [fs.statSync] does on a path. *)
Inductive StatSyncResult :=
| StatDirectory
| StatNotDirectory
| StatThrows (e : JsError).

(** How a child process ends: the [error] event, or the [close] event
    with the exit code ([None] when killed by a signal), everything
    written to standard output, and the chunks written to standard
    error. *)
Inductive ProcessOutcome :=
| ProcError (message : string)
| ProcClose (code : option Z) (stdout : string) (stderr : list string).

(** What a [globStream] yields: the paths, then possibly an error. *)
Record GlobOutcome := {
  globFiles : list string;
  globError : option JsError
}.

(** [fs.Stats], the two fields that are read. *)
Record Stats := {
  size : Z;
  mtimeMs : Q
}.

(** What the tool takes from outside [grep.ts] and
    [testBenchAnalytics.ts]: the JavaScript runtime, Node.js, and the
    collaborators of the repository ([SchemaValidator], [Config] and its
    workspace context, [isGitRepository]). Nothing is assumed of them. *)
Class Host := {
  (** [process.platform], [process.cwd()] *)
  platform : Platform;
  cwd : string;
  (** [String.prototype.toLowerCase], [toUpperCase]; [Number.prototype.toFixed] *)
  toLowerCase : string -> string;
  toUpperCase : string -> string;
  toFixed : Q -> Z -> string;
  (** [new RegExp(p)] and [new RegExp(p, 'i')] succeed on the same
      patterns (the flag [i] does not change the grammar): [regexp_ok p].
      [regexp_error p] is the message of the [SyntaxError] otherwise, and
      [regexp_test_i p s] is [new RegExp(p, 'i').test(s)]. *)
  regexp_ok : string -> bool;
  regexp_error : string -> string;
  regexp_test_i : string -> string -> bool;
  (** the [path] module *)
  path_resolve : string -> string -> string;
  path_relative : string -> string -> string;
  path_basename : string -> string;
  path_extname : string -> string;
  path_join : string -> string -> string;
  (** [SchemaValidator.validate(this.schema.parameters, params)] *)
  schemaValidate : GrepToolParams -> option string;
  (** [config.getTargetDir()] and the workspace context *)
  getTargetDir : string;
  getDirectories : list string;
  isPathWithinWorkspace : string -> bool;
  (** file system and processes *)
  statSync : string -> StatSyncResult;
  isGitRepository : string -> bool;
  spawn : string -> list string -> string -> ProcessOutcome;
  globStream : string -> string -> list string -> GlobOutcome;
  readFile : string -> JsError + string;
  stat : string -> JsError + Stats;
  (** the successive readings of [performance.now()] and [Date.now()] *)
  performance_now : nat -> Q;
  Date_now : nat -> Q
}.

(** [os.EOL] *)
Definition EOL `{Host} : string :=
  match platform with win32 => JS.CRLF | posix => JS.LF end.

(** Accesses to the file system and to child processes, in the order in
    which the code makes them. *)
Inductive Event :=
| EvStatSync (p : string)
| EvIsGitRepository (p : string)
| EvSpawn (command : string) (args : list string) (dir : string)
| EvGlobStream (globPattern dir : string)
| EvReadFile (p : string)
| EvStat (p : string).

(** ** State and effects *)

(** The singleton [testBenchAnalytics]. [SearchAnalytics] records are
    objects: they live in [records] and are named by their index, so that
    the session and the history share one record. The fields
    [testDocsPath] and [config] play no part in a search. *)
Record State := {
  records : list SearchAnalytics;
  searchHistory : list nat;
  analyticsEnabled : bool;
  trace : list Event;
  ticks : nat
}.

Definition M (A : Type) : Type := State -> (JsError + A) * State.

Definition ret {A} (a : A) : M A := fun st => (inr a, st).

Definition throw {A} (e : JsError) : M A := fun st => (inl e, st).

Definition bind {A B} (m : M A) (k : A -> M B) : M B :=
  fun st =>
    match m st with
    | (inr a, st') => k a st'
    | (inl e, st') => (inl e, st')
    end.

(** [try { m } catch (e) { h e }] *)
Definition try_catch {A} (m : M A) (h : JsError -> M A) : M A :=
  fun st =>
    match m st with
    | (inr a, st') => (inr a, st')
    | (inl e, st') => h e st'
    end.

Declare Scope js_scope.
Delimit Scope js_scope with js.
Notation "x <- m ;; k" := (bind m (fun x => k))
  (at level 100, m at next level, right associativity) : js_scope.
Notation "m ;; k" := (bind m (fun _ => k))
  (at level 100, right associativity) : js_scope.
Local Open Scope js_scope.

Definition get_state : M State := fun st => (inr st, st).

Definition modify (f : State -> State) : M unit := fun st => (inr tt, f st).

Definition emit (e : Event) : M unit :=
  modify (fun st =>
    {| records := records st; searchHistory := searchHistory st;
       analyticsEnabled := analyticsEnabled st;
       trace := trace st ++ [e]; ticks := ticks st |}).

Definition tick : M nat :=
  fun st =>
    (inr (ticks st),
     {| records := records st; searchHistory := searchHistory st;
        analyticsEnabled := analyticsEnabled st;
        trace := trace st; ticks := S (ticks st) |}).

Definition set_records (f : list SearchAnalytics -> list SearchAnalytics) : M unit :=
  modify (fun st =>
    {| records := f (records st); searchHistory := searchHistory st;
       analyticsEnabled := analyticsEnabled st;
       trace := trace st; ticks := ticks st |}).

Definition set_history (f : list nat -> list nat) : M unit :=
  modify (fun st =>
    {| records := records st; searchHistory := f (searchHistory st);
       analyticsEnabled := analyticsEnabled st;
       trace := trace st; ticks := ticks st |}).

(** [for (const x of l) { body x }] *)
Fixpoint for_each {A} (l : list A) (body : A -> M unit) : M unit :=
  match l with
  | [] => ret tt
  | x :: l' => body x ;; for_each l' body
  end.

(** ** testBenchAnalytics.ts *)

Definition with_matchDetails (f : list MatchAnalytics -> list MatchAnalytics)
    (a : SearchAnalytics) : SearchAnalytics :=
  {| timestamp := timestamp a; query := query a; searchType := searchType a;
     targetPath := targetPath a; sa_pattern := sa_pattern a;
     executionTimeMs := executionTimeMs a; resultsFound := resultsFound a;
     filesScanned := filesScanned a; matchDetails := f (matchDetails a);
     searchStrategy := searchStrategy a; rankingFactors := rankingFactors a;
     toolDecisionReason := toolDecisionReason a |}.

Definition with_resultsFound (f : Z -> Z) (a : SearchAnalytics) : SearchAnalytics :=
  {| timestamp := timestamp a; query := query a; searchType := searchType a;
     targetPath := targetPath a; sa_pattern := sa_pattern a;
     executionTimeMs := executionTimeMs a; resultsFound := f (resultsFound a);
     filesScanned := filesScanned a; matchDetails := matchDetails a;
     searchStrategy := searchStrategy a; rankingFactors := rankingFactors a;
     toolDecisionReason := toolDecisionReason a |}.

Definition with_filesScanned (n : Z) (a : SearchAnalytics) : SearchAnalytics :=
  {| timestamp := timestamp a; query := query a; searchType := searchType a;
     targetPath := targetPath a; sa_pattern := sa_pattern a;
     executionTimeMs := executionTimeMs a; resultsFound := resultsFound a;
     filesScanned := n; matchDetails := matchDetails a;
     searchStrategy := searchStrategy a; rankingFactors := rankingFactors a;
     toolDecisionReason := toolDecisionReason a |}.

Definition with_pattern (p : string) (a : SearchAnalytics) : SearchAnalytics :=
  {| timestamp := timestamp a; query := query a; searchType := searchType a;
     targetPath := targetPath a; sa_pattern := Some p;
     executionTimeMs := executionTimeMs a; resultsFound := resultsFound a;
     filesScanned := filesScanned a; matchDetails := matchDetails a;
     searchStrategy := searchStrategy a; rankingFactors := rankingFactors a;
     toolDecisionReason := toolDecisionReason a |}.

Definition with_executionTimeMs (t : Q) (a : SearchAnalytics) : SearchAnalytics :=
  {| timestamp := timestamp a; query := query a; searchType := searchType a;
     targetPath := targetPath a; sa_pattern := sa_pattern a;
     executionTimeMs := t; resultsFound := resultsFound a;
     filesScanned := filesScanned a; matchDetails := matchDetails a;
     searchStrategy := searchStrategy a; rankingFactors := rankingFactors a;
     toolDecisionReason := toolDecisionReason a |}.

Definition with_rankingFactors (fs : list RankingFactor) (a : SearchAnalytics) : SearchAnalytics :=
  {| timestamp := timestamp a; query := query a; searchType := searchType a;
     targetPath := targetPath a; sa_pattern := sa_pattern a;
     executionTimeMs := executionTimeMs a; resultsFound := resultsFound a;
     filesScanned := filesScanned a; matchDetails := matchDetails a;
     searchStrategy := searchStrategy a; rankingFactors := Some fs;
     toolDecisionReason := toolDecisionReason a |}.

Definition with_toolDecisionReason (r : string) (a : SearchAnalytics) : SearchAnalytics :=
  {| timestamp := timestamp a; query := query a; searchType := searchType a;
     targetPath := targetPath a; sa_pattern := sa_pattern a;
     executionTimeMs := executionTimeMs a; resultsFound := resultsFound a;
     filesScanned := filesScanned a; matchDetails := matchDetails a;
     searchStrategy := searchStrategy a; rankingFactors := rankingFactors a;
     toolDecisionReason := Some r |}.

(** Mutation of the record named [r]. *)
Definition update (r : nat) (f : SearchAnalytics -> SearchAnalytics) : M unit :=
  set_records (alter f r).

(** The character class [[.*+?^${}()|[\]\\]] *)
Definition isRegexChar (c : ascii) : bool :=
  match c with
  | "." | "*" | "+" | "?" | "^" | "$" | "{" | "}" | "(" | ")" | "|" | "[" | "]" | "\" => true
  | _ => false
  end%char.

Fixpoint countRegexChars (s : string) : Z :=
  match s with
  | String c s' => (if isRegexChar c then 1 else 0) + countRegexChars s'
  | EmptyString => 0
  end.

(** [(b.relevanceScore || 0) - (a.relevanceScore || 0) > 0] *)
Definition byRelevanceDescending (a b : MatchAnalytics) : bool :=
  negb (Qle_bool (default 0%Q (relevanceScore b)) (default 0%Q (relevanceScore a))).

(** [class SearchSession] *)
Record SearchSession := {
  analytics : option nat;
  startTime : Q;
  onComplete : option (nat -> M unit)
}.

Section Telemetry.
Context `{Host}.

(** [enableAnalytics(enabled)] (the console lines are not modelled) *)
Definition enableAnalytics (enabled : bool) : M unit :=
  modify (fun st =>
    {| records := records st; searchHistory := searchHistory st;
       analyticsEnabled := enabled; trace := trace st; ticks := ticks st |}).

Definition determineSearchStrategy (query : string) (searchType : SearchType) : string :=
  let strategies := [] in
  let strategies :=
    if JS.includes query "*" || JS.includes query "?"
    then strategies ++ ["glob-pattern"] else strategies in
  let strategies :=
    if 0 <? countRegexChars query then strategies ++ ["regex-search"] else strategies in
  let strategies :=
    if 1 <? Z.of_nat (List.length (JS.split query " "))
    then strategies ++ ["multi-term"] else strategies in
  let strategies :=
    match searchType with
    | embedding => strategies ++ ["semantic-similarity"]
    | _ => strategies
    end in
  let strategies := strategies ++ ["tool-" +:+ SearchType_name searchType] in
  JS.join strategies "+".

(** [logSearchResults]: it prints, and on the way sorts
    [analytics.matchDetails] in place. *)
Definition logSearchResults (r : nat) : M unit :=
  st <- get_state ;;
  match records st !! r with
  | Some a =>
      if 0 <? Z.of_nat (List.length (matchDetails a))
      then update r (with_matchDetails (sort byRelevanceDescending))
      else ret tt
  | None => ret tt
  end.

(** The callback that [startSearch] hands to the session:
    [this.searchHistory.push(completedAnalytics)], then the report. *)
Definition recordInHistory (completed : nat) : M unit :=
  set_history (fun h => h ++ [completed]) ;;
  logSearchResults completed.

(** [new SearchSession(analytics, onComplete)] *)
Definition newSearchSession (a : option nat) (cb : option (nat -> M unit)) : M SearchSession :=
  t <- tick ;;
  ret {| analytics := a; startTime := performance_now t; onComplete := cb |}.

(** [startSearch(query, searchType, targetPath)] *)
Definition startSearch (q : string) (ty : SearchType) (target : string) : M SearchSession :=
  st <- get_state ;;
  if negb (analyticsEnabled st) then newSearchSession None None
  else
    t <- tick ;;
    let a := {| timestamp := Date_now t; query := q; searchType := ty;
                targetPath := target; sa_pattern := None;
                executionTimeMs := 0; resultsFound := 0; filesScanned := 0;
                matchDetails := [];
                searchStrategy := determineSearchStrategy q ty;
                rankingFactors := None; toolDecisionReason := None |} in
    st <- get_state ;;
    let r := List.length (records st) in
    set_records (fun rs => rs ++ [a]) ;;
    newSearchSession (Some r) (Some recordInHistory).

Definition addMatch (s : SearchSession) (m : MatchAnalytics) : M unit :=
  match analytics s with
  | Some r =>
      update r (with_matchDetails (fun ms => ms ++ [m])) ;;
      update r (with_resultsFound (fun n => n + 1))
  | None => ret tt
  end.

Definition setFilesScanned (s : SearchSession) (count : Z) : M unit :=
  match analytics s with
  | Some r => update r (with_filesScanned count)
  | None => ret tt
  end.

Definition setPattern (s : SearchSession) (p : string) : M unit :=
  match analytics s with
  | Some r => update r (with_pattern p)
  | None => ret tt
  end.

Definition addRankingFactor (s : SearchSession) (f : RankingFactor) : M unit :=
  match analytics s with
  | Some r =>
      update r (fun a => with_rankingFactors (default [] (rankingFactors a)) a) ;;
      update r (fun a => with_rankingFactors (default [] (rankingFactors a) ++ [f]) a)
  | None => ret tt
  end.

Definition setToolDecisionReason (s : SearchSession) (reason : string) : M unit :=
  match analytics s with
  | Some r => update r (with_toolDecisionReason reason)
  | None => ret tt
  end.

(** [complete()] *)
Definition complete (s : SearchSession) : M (option nat) :=
  match analytics s with
  | Some r =>
      t <- tick ;;
      update r (with_executionTimeMs (performance_now t - startTime s)%Q) ;;
      match onComplete s with
      | Some cb => cb r
      | None => ret tt
      end ;;
      ret (Some r)
  | None => ret None
  end.

Definition isActive (s : SearchSession) : bool :=
  match analytics s with Some _ => true | None => false end.

Definition getSearchHistory : M (list SearchAnalytics) :=
  st <- get_state ;;
  ret (omap (fun r => records st !! r) (searchHistory st)).

End Telemetry.

(** ** grep.ts *)

(** Letters compared by a regular expression carrying the flag [i]. *)
Definition asciiLower (c : ascii) : ascii :=
  let n := nat_of_ascii c in
  if ((65 <=? n) && (n <=? 90))%nat then ascii_of_nat (n + 32) else c.

Fixpoint prefix_ci (p s : string) : bool :=
  match p, s with
  | EmptyString, _ => true
  | String a p', String b s' => Ascii.eqb (asciiLower a) (asciiLower b) && prefix_ci p' s'
  | String _ _, EmptyString => false
  end.

Definition isLineTerminator (c : ascii) : bool :=
  match c with "010" | "013" => true | _ => false end%char.

(** [/grep:.*: Is a directory/i.test(s)] *)
Fixpoint isADirectory_tail (s : string) : bool :=
  prefix_ci ": Is a directory" s
  || match s with
     | String c s' => negb (isLineTerminator c) && isADirectory_tail s'
     | EmptyString => false
     end.

Fixpoint isADirectory_test (s : string) : bool :=
  (prefix_ci "grep:" s && isADirectory_tail (JS.drop 5 s))
  || match s with
     | String _ s' => isADirectory_test s'
     | EmptyString => false
     end.

(** The filter of [onStderr]: is this chunk kept? *)
Definition stderrKept (chunk : string) : bool :=
  negb (JS.includes chunk "Permission denied") && negb (isADirectory_test chunk).

(** [`${code}`] *)
Definition showCode (code : option Z) : string :=
  match code with Some n => JS.ofZ n | None => "null" end.

(** [(a, b) => a.lineNumber - b.lineNumber], as [cmp(a, b) > 0] *)
Definition byLineNumber (a b : GrepMatch) : bool := lineNumber a - lineNumber b >? 0.

Definition with_filePath (p : string) (m : GrepMatch) : GrepMatch :=
  {| filePath := p; lineNumber := lineNumber m; line := line m |}.

(** The options of [performGrepSearch]; the abort signal acts through
    what [globStream] yields. *)
Record SearchOptions := {
  opt_pattern : string;
  opt_path : string;
  opt_include : option string
}.

Section GrepTool.
Context `{Host}.

(** [resolveAndValidatePath(relativePath)] *)
Definition resolveAndValidatePath (relativePath : option string) : M (option string) :=
  if negb (JS.truthy_opt relativePath) then ret None
  else
    let relativePath := default "" relativePath in
    let targetPath := path_resolve getTargetDir relativePath in
    if negb (isPathWithinWorkspace targetPath) then
      throw (mkError ("Path validation failed: Attempted path " +:+ JS.dquote +:+ relativePath
                      +:+ JS.dquote +:+ " resolves outside the allowed workspace directories: "
                      +:+ JS.join getDirectories ", "))
    else
      try_catch
        (emit (EvStatSync targetPath) ;;
         match statSync targetPath with
         | StatDirectory => ret tt
         | StatNotDirectory => throw (mkError ("Path is not a directory: " +:+ targetPath))
         | StatThrows e => throw e
         end)
        (fun error =>
           if isNodeError error && negb (bool_decide (errCode error = Some "ENOENT"))
           then throw (mkError ("Path does not exist: " +:+ targetPath))
           else throw (mkError ("Failed to access path stats for " +:+ targetPath +:+ ": "
                                +:+ errorToString error))) ;;
      ret (Some targetPath).

(** [validateToolParams(params)] *)
Definition validateToolParams (params : GrepToolParams) : M (option string) :=
  let errors := schemaValidate params in
  if JS.truthy_opt errors then ret errors
  else if negb (regexp_ok (pattern params)) then
    ret (Some ("Invalid regular expression pattern provided: " +:+ pattern params
               +:+ ". Error: " +:+ regexp_error (pattern params)))
  else if JS.truthy_opt (path params) then
    try_catch (resolveAndValidatePath (path params) ;; ret None)
              (fun error => ret (Some (getErrorMessage error)))
  else ret None.

(** [isCommandAvailable(command)] *)
Definition isCommandAvailable (command : string) : M bool :=
  let checkCommand := match platform with win32 => "where" | posix => "command" end in
  let checkArgs := match platform with win32 => [command] | posix => ["-v"; command] end in
  emit (EvSpawn checkCommand checkArgs cwd) ;;
  match spawn checkCommand checkArgs cwd with
  | ProcClose code _ _ => ret (bool_decide (code = Some 0))
  | ProcError _ => ret false
  end.

(** The body of the loop of [parseGrepOutput]: [results] after [line]. *)
Definition parseGrepLine (basePath : string) (results : list GrepMatch) (line : string)
    : list GrepMatch :=
  if negb (JS.truthy (JS.trim line)) then results
  else
    let firstColonIndex := JS.indexOf line ":" 0 in
    if firstColonIndex =? -1 then results
    else
      let secondColonIndex := JS.indexOf line ":" (Z.to_nat (firstColonIndex + 1)) in
      if secondColonIndex =? -1 then results
      else
        let filePathRaw := JS.substring line 0 (Z.to_nat firstColonIndex) in
        let lineNumberStr :=
          JS.substring line (Z.to_nat (firstColonIndex + 1)) (Z.to_nat secondColonIndex) in
        let lineContent := JS.substringFrom line (Z.to_nat (secondColonIndex + 1)) in
        match JS.parseInt lineNumberStr with
        | Some lineNumber =>
            let absoluteFilePath := path_resolve basePath filePathRaw in
            let relativeFilePath := path_relative basePath absoluteFilePath in
            results ++ [ {| filePath := JS.or_else relativeFilePath (path_basename absoluteFilePath);
                            lineNumber := lineNumber;
                            line := lineContent |} ]
        | None => results
        end.

(** [parseGrepOutput(output, basePath)] *)
Definition parseGrepOutput (output basePath : string) : list GrepMatch :=
  if negb (JS.truthy output) then []
  else fold_left (parseGrepLine basePath) (JS.split output EOL) [].

(** Strategy 1, the promise around [spawn('git', gitArgs)]. *)
Definition gitGrep (gitArgs : list string) (absolutePath : string) : M string :=
  emit (EvSpawn "git" gitArgs absolutePath) ;;
  match spawn "git" gitArgs absolutePath with
  | ProcError message => throw (mkError ("Failed to start git grep: " +:+ message))
  | ProcClose code stdoutData stderrChunks =>
      let stderrData := String.concat "" stderrChunks in
      if bool_decide (code = Some 0) then ret stdoutData
      else if bool_decide (code = Some 1) then ret ""
      else throw (mkError ("git grep exited with code " +:+ showCode code +:+ ": " +:+ stderrData))
  end.

(** Strategy 2, the promise around [spawn('grep', grepArgs)]. *)
Definition systemGrep (grepArgs : list string) (absolutePath : string) : M string :=
  emit (EvSpawn "grep" grepArgs absolutePath) ;;
  match spawn "grep" grepArgs absolutePath with
  | ProcError message => throw (mkError ("Failed to start system grep: " +:+ message))
  | ProcClose code stdoutData chunks =>
      let stderrChunks := filter (fun c => stderrKept c = true) chunks in
      let stderrData := JS.trim (String.concat "" stderrChunks) in
      if bool_decide (code = Some 0) then ret stdoutData
      else if bool_decide (code = Some 1) then ret ""
      else if JS.truthy stderrData
      then throw (mkError ("System grep exited with code " +:+ showCode code +:+ ": " +:+ stderrData))
      else ret ""
  end.

(** The matches of one file in strategy 3: [lines.forEach((line, index) => ...)] *)
Fixpoint fileMatches (pat relPath : string) (lines : list string) (index : Z) : list GrepMatch :=
  match lines with
  | [] => []
  | l :: lines' =>
      (if regexp_test_i pat l
       then [ {| filePath := relPath; lineNumber := index + 1; line := l |} ]
       else [])
      ++ fileMatches pat relPath lines' (index + 1)
  end.

(** Strategy 3, the loop over [filesStream]. *)
Fixpoint javascriptFallback (pat absolutePath : string) (files : list string)
    (allMatches : list GrepMatch) : M (list GrepMatch) :=
  match files with
  | [] => ret allMatches
  | fileAbsolutePath :: files' =>
      emit (EvReadFile fileAbsolutePath) ;;
      match readFile fileAbsolutePath with
      | inr content =>
          let lines := splitLines content in
          let relPath := JS.or_else (path_relative absolutePath fileAbsolutePath)
                                    (path_basename fileAbsolutePath) in
          javascriptFallback pat absolutePath files'
            (allMatches ++ fileMatches pat relPath lines 0)
      | inl _ => javascriptFallback pat absolutePath files' allMatches
      end
  end.

(** The end of a [for await] over a stream: its error, if any, is thrown. *)
Definition streamEnd (g : GlobOutcome) : M unit :=
  match globError g with Some e => throw e | None => ret tt end.

(** [new RegExp(pattern, 'i')] *)
Definition newRegExp (pat : string) : M unit :=
  if regexp_ok pat then ret tt else throw (mkSyntaxError (regexp_error pat)).

(** The argument arrays of the two commands. *)
Definition gitArgs (options : SearchOptions) : list string :=
  ["grep"; "--untracked"; "-n"; "-E"; "--ignore-case"; opt_pattern options]
    ++ (if JS.truthy_opt (opt_include options)
        then ["--"; default "" (opt_include options)] else []).

Definition grepArgs (options : SearchOptions) : list string :=
  ["-r"; "-n"; "-H"; "-E"]
    ++ map (fun dir => "--exclude-dir=" +:+ dir) [".git"; "node_modules"; "bower_components"]
    ++ (if JS.truthy_opt (opt_include options)
        then ["--include=" +:+ default "" (opt_include options)] else [])
    ++ [opt_pattern options; "."].

(** Strategy 1, [git grep]: [Some] is the [return] of the block, [None]
    is leaving it, the strategy being unavailable or having failed. *)
Definition gitGrepStrategy (options : SearchOptions) : M (option (list GrepMatch)) :=
  let absolutePath := opt_path options in
  emit (EvIsGitRepository absolutePath) ;;
  let isGit := isGitRepository absolutePath in
  gitAvailable <- (if isGit then isCommandAvailable "git" else ret false) ;;
  if gitAvailable : bool then
    try_catch
      (output <- gitGrep (gitArgs options) absolutePath ;;
       ret (Some (parseGrepOutput output absolutePath)))
      (fun gitError => ret None)
  else ret None.

(** Strategy 2, system [grep]. *)
Definition systemGrepStrategy (options : SearchOptions) : M (option (list GrepMatch)) :=
  let absolutePath := opt_path options in
  grepAvailable <- isCommandAvailable "grep" ;;
  if grepAvailable : bool then
    try_catch
      (output <- systemGrep (grepArgs options) absolutePath ;;
       ret (Some (parseGrepOutput output absolutePath)))
      (fun grepError => ret None)
  else ret None.

(** Strategy 3, the pure JavaScript fallback. *)
Definition javascriptFallbackStrategy (options : SearchOptions) : M (list GrepMatch) :=
  let pat := opt_pattern options in
  let absolutePath := opt_path options in
  let include := opt_include options in
  let globPattern := if JS.truthy_opt include then default "" include else "**/*" in
  let ignorePatterns :=
    [".git/**"; "node_modules/**"; "bower_components/**"; ".svn/**"; ".hg/**"] in
  emit (EvGlobStream globPattern absolutePath) ;;
  let filesStream := globStream globPattern absolutePath ignorePatterns in
  newRegExp pat ;;
  allMatches <- javascriptFallback pat absolutePath (globFiles filesStream) [] ;;
  streamEnd filesStream ;;
  ret allMatches.

(** [performGrepSearch(options)] *)
Definition performGrepSearch (options : SearchOptions) : M (list GrepMatch) :=
  try_catch
    (viaGit <- gitGrepStrategy options ;;
     match viaGit with
     | Some matches => ret matches
     | None =>
         viaGrep <- systemGrepStrategy options ;;
         match viaGrep with
         | Some matches => ret matches
         | None => javascriptFallbackStrategy options
         end
     end)
    (fun error => throw error).

End GrepTool.

Section Analytics.
Context `{Host}.

Definition favoredExtensions : list string :=
  [".md"; ".txt"; ".js"; ".ts"; ".py"; ".java"].

(** [calculateRelevanceScore(match, pattern)] *)
Definition calculateRelevanceScore (m : GrepMatch) (pat : string) : Q :=
  let score := 0.5%Q in
  let score :=
    if JS.includes (toLowerCase (line m)) (toLowerCase pat)
    then (score + 0.2)%Q else score in
  let lineLength := JS.length (JS.trim (line m)) in
  let score := if lineLength <? 100 then (score + 0.1)%Q else score in
  let score := if lineLength <? 50 then (score + 0.1)%Q else score in
  let trimmedLine := JS.trim (line m) in
  let matchIndex := JS.indexOf (toLowerCase trimmedLine) (toLowerCase pat) 0 in
  let score := if matchIndex <? 10 then (score + 0.1)%Q else score in
  let ext := toLowerCase (path_extname (filePath m)) in
  let score :=
    if existsb (String.eqb ext) favoredExtensions then (score + 0.1)%Q else score in
  Qmin 1 score.

(** The array [reasons] of [getMatchReason], once the regular
    expression is built. *)
Definition matchReasons (m : GrepMatch) (pat : string) : list string :=
  let reasons := [] in
  let reasons :=
    if JS.includes (toLowerCase (line m)) (toLowerCase pat)
    then reasons ++ ["exact pattern match"] else reasons in
  let reasons :=
    if regexp_test_i pat (line m) then reasons ++ ["regex pattern match"] else reasons in
  let ext := path_extname (filePath m) in
  let reasons :=
    if JS.truthy ext then reasons ++ ["found in " +:+ ext +:+ " file"] else reasons in
  let reasons :=
    if lineNumber m <? 10 then reasons ++ ["near file beginning"] else reasons in
  reasons.

(** [getMatchReason(match, pattern)]; [new RegExp(pattern, 'i')] throws
    on a pattern that is not a regular expression. *)
Definition getMatchReason (m : GrepMatch) (pat : string) : M string :=
  newRegExp pat ;;
  ret (JS.or_else (JS.join (matchReasons m pat) ", ") "pattern match").

(** [calculatePatternComplexity(pattern)] *)
Definition calculatePatternComplexity (pat : string) : Q :=
  let complexity := 0%Q in
  let regexMatches := countRegexChars pat in
  let complexity :=
    if 0 <? regexMatches
    then (complexity + Qmin (inject_Z regexMatches * 0.1) 0.5)%Q else complexity in
  let complexity := (complexity + Qmin (inject_Z (JS.length pat) * 0.01) 0.3)%Q in
  let complexity :=
    if negb (String.eqb pat (toLowerCase pat)) && negb (String.eqb pat (toUpperCase pat))
    then (complexity + 0.1)%Q else complexity in
  let complexity :=
    if JS.includes pat "\b" || JS.includes pat "\w" || JS.includes pat "\d"
    then (complexity + 0.2)%Q else complexity in
  Qmin complexity 1.

(** [createMatchAnalytics(match, pattern, searchPath)] *)
Definition createMatchAnalytics (m : GrepMatch) (pat searchPath : string) : M MatchAnalytics :=
  let fullPath := path_resolve searchPath (filePath m) in
  info <-
    (emit (EvStat fullPath) ;;
     match stat fullPath with
     | inl _ => ret (0, 0%Q, "", "")
     | inr stats =>
         emit (EvReadFile fullPath) ;;
         match readFile fullPath with
         | inl _ => ret (size stats, mtimeMs stats, "", "")
         | inr content =>
             let lines := JS.split content JS.LF in
             let lineIndex := lineNumber m - 1 in
             let before := JS.join (slice lines (Z.max 0 (lineIndex - 2)) lineIndex) JS.LF in
             let after :=
               JS.join (slice lines (lineIndex + 1)
                          (Z.min (Z.of_nat (List.length lines)) (lineIndex + 3))) JS.LF in
             ret (size stats, mtimeMs stats, before, after)
         end
     end) ;;
  let '(fileSize, fileLastModified, contextBefore, contextAfter) := info in
  let relevanceScore := calculateRelevanceScore m pat in
  reason <- getMatchReason m pat ;;
  ret {| ma_filePath := filePath m;
         ma_lineNumber := Some (lineNumber m);
         matchText := line m;
         contextBefore := Some contextBefore;
         contextAfter := Some contextAfter;
         relevanceScore := Some relevanceScore;
         matchReason := reason;
         fileSize := fileSize;
         fileLastModified := fileLastModified |}.

(** [addSearchRankingFactors(session, options, matches, filesScanned)] *)
Definition addSearchRankingFactors (session : SearchSession) (options : SearchOptions)
    (matches : list GrepMatch) (filesScanned : Z) : M unit :=
  if negb (isActive session) then ret tt
  else
    let patternComplexity := calculatePatternComplexity (opt_pattern options) in
    addRankingFactor session
      {| factor := "Pattern Complexity"; weight := 0.3; value := patternComplexity;
         impact := (patternComplexity * 0.3)%Q;
         explanation :=
           "Pattern " +:+ JS.dquote +:+ opt_pattern options +:+ JS.dquote +:+ " has "
           +:+ (if Qle_bool patternComplexity 0.5 then "low" else "high")
           +:+ " complexity (" +:+ toFixed patternComplexity 2 +:+ ")" |} ;;
    let scopeFactor := if filesScanned >? 100 then 1.0%Q else (inject_Z filesScanned / 100)%Q in
    addRankingFactor session
      {| factor := "Search Scope"; weight := 0.2; value := scopeFactor;
         impact := (scopeFactor * 0.2)%Q;
         explanation :=
           "Searched " +:+ JS.ofZ filesScanned +:+ " files (scope factor: "
           +:+ toFixed scopeFactor 2 +:+ ")" |} ;;
    let matchCount := Z.of_nat (List.length matches) in
    let resultDensity :=
      if filesScanned >? 0 then (inject_Z matchCount / inject_Z filesScanned)%Q else 0%Q in
    addRankingFactor session
      {| factor := "Result Density"; weight := 0.4; value := resultDensity;
         impact := (resultDensity * 0.4)%Q;
         explanation :=
           "Found " +:+ JS.ofZ matchCount +:+ " matches in " +:+ JS.ofZ filesScanned
           +:+ " files (" +:+ toFixed (resultDensity * 100)%Q 2 +:+ "% hit rate)" |} ;;
    if JS.truthy_opt (opt_include options) then
      addRankingFactor session
        {| factor := "File Filter"; weight := 0.1; value := 1.0; impact := 0.1;
           explanation := "Applied file filter: " +:+ default "" (opt_include options) |}
    else ret tt.

(** [performGrepSearchWithAnalytics({...options, session})] *)
Definition performGrepSearchWithAnalytics (options : SearchOptions) (session : SearchSession)
    : M (list GrepMatch) :=
  try_catch
    (matches <- performGrepSearch options ;;
     (if isActive session then
        let globPattern := JS.or_else (default "" (opt_include options)) "**/*" in
        let ignorePatterns := [".git/**"; "node_modules/**"; "bower_components/**"] in
        emit (EvGlobStream globPattern (opt_path options)) ;;
        let filesStream := globStream globPattern (opt_path options) ignorePatterns in
        (* an error of the stream is caught; the files counted so far stay *)
        let filesScanned := Z.of_nat (List.length (globFiles filesStream)) in
        setFilesScanned session filesScanned ;;
        for_each matches (fun m =>
          matchAnalytics <- createMatchAnalytics m (opt_pattern options) (opt_path options) ;;
          addMatch session matchAnalytics) ;;
        addSearchRankingFactors session options matches filesScanned
      else ret tt) ;;
     ret matches)
    (fun error => throw error).

End Analytics.

Section Execute.
Context `{Host}.

(** The callback of [allMatches.reduce]: append the match to the array
    of its file, creating it when the key is new, and sort that array. *)
Definition groupStep (acc : JsObject.t (list GrepMatch)) (m : GrepMatch)
    : JsError + JsObject.t (list GrepMatch) :=
  let fileKey := filePath m in
  match JsObject.get acc fileKey with
  | JsObject.Undefined => inr (JsObject.set acc fileKey (sort byLineNumber ([] ++ [m])))
  | JsObject.Own arr => inr (JsObject.set acc fileKey (sort byLineNumber (arr ++ [m])))
  | JsObject.Inherited => inl (mkTypeError "acc[fileKey].push is not a function")
  end.

Fixpoint groupMatches (allMatches : list GrepMatch) (acc : JsObject.t (list GrepMatch))
    : JsError + JsObject.t (list GrepMatch) :=
  match allMatches with
  | [] => inr acc
  | m :: rest =>
      match groupStep acc m with
      | inr acc' => groupMatches rest acc'
      | inl e => inl e
      end
  end.

(** The block of one file. *)
Definition renderFile (entry : string * list GrepMatch) : string :=
  "File: " +:+ fst entry +:+ JS.LF
  +:+ String.concat ""
        (map (fun m => "L" +:+ JS.ofZ (lineNumber m) +:+ ": " +:+ JS.trim (line m) +:+ JS.LF)
             (snd entry))
  +:+ "---" +:+ JS.LF.

(** The loop over the search directories. *)
Fixpoint searchDirectoriesLoop (params : GrepToolParams) (session : SearchSession)
    (multiple : bool) (dirs : list string) (allMatches : list GrepMatch)
    : M (list GrepMatch) :=
  match dirs with
  | [] => ret allMatches
  | searchDir :: dirs' =>
      matches <- performGrepSearchWithAnalytics
                   {| opt_pattern := pattern params; opt_path := searchDir;
                      opt_include := include params |} session ;;
      let matches :=
        if multiple then
          let dirName := path_basename searchDir in
          map (fun m => with_filePath (path_join dirName (filePath m)) m) matches
        else matches in
      searchDirectoriesLoop params session multiple dirs' (allMatches ++ matches)
  end.

Definition filterSuffix (params : GrepToolParams) : string :=
  if JS.truthy_opt (include params)
  then " (filter: " +:+ JS.dquote +:+ default "" (include params) +:+ JS.dquote +:+ ")"
  else "".

(** [execute(params, signal)] *)
Definition execute (params : GrepToolParams) : M ToolResult :=
  session <- startSearch (pattern params) grep (JS.or_else (default "" (path params)) ".") ;;
  setPattern session (pattern params) ;;
  validationError <- validateToolParams params ;;
  if JS.truthy_opt validationError then
    complete session ;;
    ret {| llmContent := "Error: Invalid parameters provided. Reason: "
                         +:+ default "" validationError;
           returnDisplay := "Model provided invalid parameters. Error: "
                            +:+ default "" validationError |}
  else
    try_catch
      (searchDirAbs <- resolveAndValidatePath (path params) ;;
       let searchDirDisplay := JS.or_else (default "" (path params)) "." in
       let searchDirectories :=
         match searchDirAbs with
         | None => getDirectories
         | Some d => [d]
         end in
       allMatches <- searchDirectoriesLoop params session
                       (1 <? Z.of_nat (List.length searchDirectories)) searchDirectories [] ;;
       let searchLocationDescription :=
         match searchDirAbs with
         | None =>
             let numDirs := Z.of_nat (List.length getDirectories) in
             if numDirs >? 1
             then "across " +:+ JS.ofZ numDirs +:+ " workspace directories"
             else "in the workspace directory"
         | Some _ => "in path " +:+ JS.dquote +:+ searchDirDisplay +:+ JS.dquote
         end in
       if Z.of_nat (List.length allMatches) =? 0 then
         complete session ;;
         ret {| llmContent := "No matches found for pattern " +:+ JS.dquote +:+ pattern params
                              +:+ JS.dquote +:+ " " +:+ searchLocationDescription
                              +:+ filterSuffix params +:+ ".";
                returnDisplay := "No matches found" |}
       else
         matchesByFile <-
           match groupMatches allMatches [] with
           | inr o => ret o
           | inl e => throw e
           end ;;
         let matchCount := Z.of_nat (List.length allMatches) in
         let matchTerm := if matchCount =? 1 then "match" else "matches" in
         let llmContent :=
           "Found " +:+ JS.ofZ matchCount +:+ " " +:+ matchTerm +:+ " for pattern "
           +:+ JS.dquote +:+ pattern params +:+ JS.dquote +:+ " " +:+ searchLocationDescription
           +:+ filterSuffix params +:+ ":" +:+ JS.LF +:+ "---" +:+ JS.LF in
         let llmContent :=
           llmContent +:+ String.concat "" (map renderFile (JsObject.forIn matchesByFile)) in
         complete session ;;
         ret {| llmContent := JS.trim llmContent;
                returnDisplay := "Found " +:+ JS.ofZ matchCount +:+ " " +:+ matchTerm |})
      (fun error =>
         complete session ;;
         let errorMessage := getErrorMessage error in
         ret {| llmContent := "Error during grep search operation: " +:+ errorMessage;
                returnDisplay := "Error: " +:+ errorMessage |}).

End Execute.

(** ** A small host to run the model on

    Paths are POSIX paths already normalized; patterns are read as
    regular expressions made of literal characters and [.], every other
    metacharacter being refused; the file system is a list of directories
    and a list of files with their contents. *)
Module Sample.

Definition asciiUpper (c : ascii) : ascii :=
  let n := nat_of_ascii c in
  if ((97 <=? n) && (n <=? 122))%nat then ascii_of_nat (n - 32) else c.

Fixpoint mapString (f : ascii -> ascii) (s : string) : string :=
  match s with
  | String c s' => String (f c) (mapString f s')
  | EmptyString => EmptyString
  end.

Definition lower : string -> string := mapString asciiLower.
Definition upper : string -> string := mapString asciiUpper.

Fixpoint matchHere (p s : string) : bool :=
  match p, s with
  | EmptyString, _ => true
  | String "." p', String c s' => negb (isLineTerminator c) && matchHere p' s'
  | String a p', String c s' => Ascii.eqb (asciiLower a) (asciiLower c) && matchHere p' s'
  | String _ _, EmptyString => false
  end.

Fixpoint test_i (p s : string) : bool :=
  matchHere p s || match s with String _ s' => test_i p s' | EmptyString => false end.

Fixpoint onlyDots (p : string) : bool :=
  match p with
  | String c p' => (negb (isRegexChar c) || Ascii.eqb c ".") && onlyDots p'
  | EmptyString => true
  end.

Fixpoint lastIndexOf_scan (c : ascii) (s : string) (i : nat) (found : option nat) : option nat :=
  match s with
  | String d s' => lastIndexOf_scan c s' (S i) (if Ascii.eqb c d then Some i else found)
  | EmptyString => found
  end.

Definition basename (p : string) : string :=
  match lastIndexOf_scan "/" p 0 None with
  | Some i => JS.drop (S i) p
  | None => p
  end.

Definition extname (p : string) : string :=
  let b := basename p in
  match lastIndexOf_scan "." b 0 None with
  | Some (S i) => JS.drop (S i) b
  | _ => ""
  end.

Definition resolve (base p : string) : string :=
  if String.prefix "/" p then p
  else if String.prefix "./" p then base +:+ "/" +:+ JS.drop 2 p
  else if String.eqb p "" then base
  else base +:+ "/" +:+ p.

Definition relative (base p : string) : string :=
  if String.prefix (base +:+ "/") p then JS.drop (String.length base + 1) p
  else if String.eqb base p then ""
  else p.

Definition join (a b : string) : string := a +:+ "/" +:+ b.

Definition under (dir p : string) : bool :=
  String.eqb dir p || String.prefix (dir +:+ "/") p.

Definition endsWith (s suffix : string) : bool :=
  String.prefix (String.rev suffix) (String.rev s).

(** Globs: [**/*], [*suffix], or a file name. *)
Definition globMatches (g p : string) : bool :=
  if String.eqb g "**/*" then true
  else if String.prefix "*" g then endsWith p (JS.drop 1 g)
  else String.eqb (basename p) g.

Fixpoint padLeft (n : nat) (s : string) : string :=
  match n with
  | O => s
  | S k => if (String.length s <? S k)%nat then padLeft k ("0" +:+ s) else s
  end.

(** [q.toFixed(d)] for [0 <= q]. *)
Definition fixed (q : Q) (d : Z) : string :=
  let scale := 10 ^ d in
  let n := (2 * Qnum q * scale + Zpos (Qden q)) / (2 * Zpos (Qden q)) in
  JS.ofZ (n / scale) +:+ (if d =? 0 then "" else "." +:+ padLeft (Z.to_nat d) (JS.ofZ (n mod scale))).

Record World := {
  os : Platform;
  workspace : list string;
  directories : list string;
  files : list (string * string);
  gitRepositories : list string;
  processes : string -> list string -> string -> ProcessOutcome
}.

Definition lookupFile (w : World) (p : string) : option string :=
  snd <$> List.find (fun f => String.eqb (fst f) p) (files w).

Definition enoent (p : string) : JsError :=
  {| errName := "Error";
     errMessage := "ENOENT: no such file or directory, stat '" +:+ p +:+ "'";
     errCode := Some "ENOENT" |}.

Definition host (w : World) : Host := {|
  platform := os w;
  cwd := hd "/" (workspace w);
  toLowerCase := lower;
  toUpperCase := upper;
  toFixed := fixed;
  regexp_ok := onlyDots;
  regexp_error := fun p => "Invalid regular expression: /" +:+ p +:+ "/";
  regexp_test_i := test_i;
  path_resolve := resolve;
  path_relative := relative;
  path_basename := basename;
  path_extname := extname;
  path_join := join;
  schemaValidate := fun _ => None;
  getTargetDir := hd "/" (workspace w);
  getDirectories := workspace w;
  isPathWithinWorkspace := fun p => existsb (fun d => under d p) (workspace w);
  statSync := fun p =>
    if existsb (String.eqb p) (directories w) then StatDirectory
    else match lookupFile w p with
         | Some _ => StatNotDirectory
         | None => StatThrows (enoent p)
         end;
  isGitRepository := fun p => existsb (fun d => under d p) (gitRepositories w);
  spawn := processes w;
  globStream := fun g dir ignore =>
    {| globFiles :=
         map fst (filter (fun f => under dir (fst f) && globMatches g (fst f) = true) (files w));
       globError := None |};
  readFile := fun p =>
    match lookupFile w p with Some c => inr c | None => inl (enoent p) end;
  stat := fun p =>
    match lookupFile w p with
    | Some c => inr {| size := JS.length c; mtimeMs := 0 |}
    | None => inl (enoent p)
    end;
  performance_now := fun n => inject_Z (Z.of_nat n);
  Date_now := fun n => inject_Z (Z.of_nat n)
  |}.

(** No [git], no [grep]: every probe and every command fails to start. *)
Definition noProcesses : string -> list string -> string -> ProcessOutcome :=
  fun _ _ _ => ProcError "spawn ENOENT".

Definition initial (enabled : bool) : State :=
  {| records := []; searchHistory := []; analyticsEnabled := enabled;
     trace := []; ticks := 0 |}.

(** The tree of the scenario: [a.txt] with the pattern on line 3,
    [b.txt] without it. *)
Definition todoWorld : World := {|
  os := posix;
  workspace := ["/ws"];
  directories := ["/ws"];
  files := [ ("/ws/a.txt", "one" +:+ JS.LF +:+ "two" +:+ JS.LF +:+ "// TODO fix" +:+ JS.LF);
             ("/ws/b.txt", "nothing" +:+ JS.LF +:+ "here" +:+ JS.LF) ];
  gitRepositories := [];
  processes := noProcesses
  |}.

(** A repository where [git] and [grep] are found and both fail: [git]
    with a fatal error, [grep] with code 2 and two diagnostics, one of
    them benign. *)
Definition brokenTools : World := {|
  os := posix;
  workspace := ["/ws"];
  directories := ["/ws"];
  files := [ ("/ws/a.txt", "one" +:+ JS.LF +:+ "two" +:+ JS.LF +:+ "// TODO fix" +:+ JS.LF) ];
  gitRepositories := ["/ws"];
  processes := fun command args dir =>
    if String.eqb command "command" then ProcClose (Some 0) "" []
    else if String.eqb command "git" then
      ProcClose (Some 128) "" ["fatal: not a git repository" +:+ JS.LF]
    else if String.eqb command "grep" then
      ProcClose (Some 2) ("./a.txt:3:// TODO fix" +:+ JS.LF)
        ["grep: ./secret: Permission denied" +:+ JS.LF; "grep: Unmatched ( or \\(" +:+ JS.LF]
    else ProcError "spawn ENOENT"
  |}.

Definition todoOptions : SearchOptions :=
  {| opt_pattern := "TODO"; opt_path := "/ws"; opt_include := None |}.

End Sample.


(** ** The heuristics as the specification words them *)

Section Specified.
Context `{Host}.

(** The pattern differs from both its lowercase and its uppercase form. *)
Definition mixesCase (pat : string) : bool :=
  negb (String.eqb pat (toLowerCase pat)) && negb (String.eqb pat (toUpperCase pat)).

(** The escapes the code looks for: word boundary, word, digit. *)
Definition hasShorthandEscape (pat : string) : bool :=
  JS.includes pat "\b" || JS.includes pat "\w" || JS.includes pat "\d".

(** The escapes the specification lists: word boundary, word, white
    space, digit. *)
Definition specShorthandEscape (pat : string) : bool :=
  JS.includes pat "\b" || JS.includes pat "\w" || JS.includes pat "\s"
  || JS.includes pat "\d".

(** Pattern complexity in the words of the specification. *)
Definition specPatternComplexity (pat : string) : Q :=
  Qmin (Qmin (inject_Z (countRegexChars pat) * 0.1) 0.5
        + Qmin (inject_Z (JS.length pat) * 0.01) 0.3
        + (if mixesCase pat then 0.1 else 0)
        + (if specShorthandEscape pat then 0.2 else 0)) 1.

(** The index of the lowercased pattern in the trimmed lowercased line. *)
Definition matchPosition (m : GrepMatch) (pat : string) : Z :=
  JS.indexOf (toLowerCase (JS.trim (line m))) (toLowerCase pat) 0.

Definition favoredExtension (m : GrepMatch) : bool :=
  existsb (String.eqb (toLowerCase (path_extname (filePath m)))) favoredExtensions.

(** Relevance in the words of the specification: the position
    increment is for a match position within the first 10 characters. *)
Definition specRelevanceScore (m : GrepMatch) (pat : string) : Q :=
  let trimmedLength := JS.length (JS.trim (line m)) in
  Qmin 1
    (0.5
     + (if JS.includes (toLowerCase (line m)) (toLowerCase pat) then 0.2 else 0)
     + (if trimmedLength <? 100 then 0.1 else 0)
     + (if trimmedLength <? 50 then 0.1 else 0)
     + (if (0 <=? matchPosition m pat) && (matchPosition m pat <? 10) then 0.1 else 0)
     + (if favoredExtension m then 0.1 else 0)).

(** The reasons that apply to a match, one optional entry per test. *)
Definition applicableReasons (m : GrepMatch) (pat : string) : list string :=
  (if JS.includes (toLowerCase (line m)) (toLowerCase pat) then ["exact pattern match"] else [])
  ++ (if regexp_test_i pat (line m) then ["regex pattern match"] else [])
  ++ (if JS.truthy (path_extname (filePath m))
      then ["found in " +:+ path_extname (filePath m) +:+ " file"] else [])
  ++ (if lineNumber m <? 10 then ["near file beginning"] else []).

End Specified.

(** ** The strategies as the specification words them *)

Section SpecifiedStrategies.
Context `{Host}.

(** The executable [command] is resolvable on the system path: the probe
    of [isCommandAvailable] closes with code 0. *)
Definition commandResolves (command : string) : bool :=
  match spawn (match platform with win32 => "where" | posix => "command" end)
              (match platform with win32 => [command] | posix => ["-v"; command] end) cwd with
  | ProcClose code _ _ => bool_decide (code = Some 0)
  | ProcError _ => false
  end.

(** The diagnostic output of system [grep] that is not suppressed. *)
Definition diagnosticOutput (chunks : list string) : string :=
  JS.trim (String.concat "" (filter (fun c => stderrKept c = true) chunks)).

(** The chain after strategy 1 has been left, and after strategy 2. *)
Definition afterGitGrep (options : SearchOptions) : M (list GrepMatch) :=
  fun st =>
    match systemGrepStrategy options st with
    | (inr (Some matches), st') => (inr matches, st')
    | (inr None, st') => javascriptFallbackStrategy options st'
    | (inl e, st') => (inl e, st')
    end.

End SpecifiedStrategies.

(** ** The output parser as the specification words it *)

(** No colon occurs in [s]. *)
Definition colonFree (s : string) : Prop :=
  forall a b : string, s <> a +:+ ":" +:+ b.

Section SpecifiedParser.
Context `{Host}.

(** The path of a match: the text before the first colon, resolved
    against the search root and made relative to it again, or the base
    name when that is empty. *)
Definition relativeOrBasename (basePath filePathRaw : string) : string :=
  JS.or_else (path_relative basePath (path_resolve basePath filePathRaw))
             (path_basename (path_resolve basePath filePathRaw)).

(** What one line of the output contributes. *)
Inductive ParsedLine (basePath : string) : string -> option GrepMatch -> Prop :=
  | parsed_blank (l : string) :
    JS.trim l = "" -> ParsedLine basePath l None
  | parsed_no_colon (l : string) :
    colonFree l -> ParsedLine basePath l None
  | parsed_one_colon (p r : string) :
    colonFree p -> colonFree r -> ParsedLine basePath (p +:+ ":" +:+ r) None
  | parsed_not_a_number (p n c : string) :
    colonFree p -> colonFree n -> JS.parseInt n = None ->
    ParsedLine basePath (p +:+ ":" +:+ n +:+ ":" +:+ c) None
  | parsed_match (p n c : string) (k : Z) :
    colonFree p -> colonFree n -> JS.parseInt n = Some k ->
    JS.trim (p +:+ ":" +:+ n +:+ ":" +:+ c) <> "" ->
    ParsedLine basePath (p +:+ ":" +:+ n +:+ ":" +:+ c)
      (Some {| filePath := relativeOrBasename basePath p; lineNumber := k; line := c |}).

End SpecifiedParser.

(** ** Grouping as the specification words it *)

(** Line numbers do not decrease along [g]. *)
Definition ascending (g : list GrepMatch) : Prop :=
  Sorted (fun a b => lineNumber a <= lineNumber b) g.

(** Under each key of [o] stand matches of that file, taken from
    [source], in ascending order of line number. *)
Definition grouped (source : list GrepMatch) (o : JsObject.t (list GrepMatch)) : Prop :=
  forall (k : string) (g : list GrepMatch),
    In (k, g) o ->
    ascending g /\ forall m, In m g -> filePath m = k /\ In m source.

(** Every match of [source] stands under the key of its file. *)
Definition covers (source : list GrepMatch) (o : JsObject.t (list GrepMatch)) : Prop :=
  forall m, In m source -> exists g, JsObject.own o (filePath m) = Some g /\ In m g.

(** ** Statements about effects *)

(** Two computations return the same value, or throw the same error,
    whatever the states they start from. *)
Definition Agree {A} (m1 m2 : M A) : Prop :=
  forall st1 st2 : State, fst (m1 st1) = fst (m2 st2).

(** A computation that returns, with nothing, from every state. *)
Definition Silent (m : M unit) : Prop :=
  forall st : State, fst (m st) = inr tt.

(** A computation that does not throw. *)
Definition NoThrow {A} (m : M A) : Prop :=
  forall st : State, exists a : A, fst (m st) = inr a.

(** From a state where [P] holds, [m] returns [a] in a state where [Q a]
    holds, or throws [e] in a state where [E e] holds. *)
Definition Triple {A} (P : State -> Prop) (m : M A)
    (Q : A -> State -> Prop) (E : JsError -> State -> Prop) : Prop :=
  forall st : State, P st ->
    match m st with
    | (inr a, st') => Q a st'
    | (inl e, st') => E e st'
    end.

(** A session as [startSearch] makes it: inactive, or active with the
    callback that records in the history. *)
Definition started (s : SearchSession) : Prop :=
  match analytics s with
  | None => True
  | Some _ => onComplete s = Some (@recordInHistory)
  end.

(** The events of a strategy: everything but [statSync]. *)
Definition isStrategyEvent (e : Event) : bool :=
  match e with EvStatSync _ => false | _ => true end.

(** [R] relates the state before [m] to the state after it, whether [m]
    returns or throws. *)
Definition Effect {A} (R : State -> State -> Prop) (m : M A) : Prop :=
  forall st : State, R st (snd (m st)).

(** Only the trace of events may have changed. *)
Definition onlyTrace (st st' : State) : Prop :=
  records st' = records st /\ searchHistory st' = searchHistory st
  /\ analyticsEnabled st' = analyticsEnabled st /\ ticks st' = ticks st.

(** What using a session, short of completing it, may do: the history
    and the switch are untouched and no record is added or removed; with
    an inactive session the records are untouched too. *)
Definition observes (active : bool) (st st' : State) : Prop :=
  searchHistory st' = searchHistory st
  /\ analyticsEnabled st' = analyticsEnabled st
  /\ List.length (records st') = List.length (records st)
  /\ (active = false -> records st' = records st).

(** No access to the file system or to a process was made. *)
Definition quiet (st st' : State) : Prop := trace st' = trace st.

(** The accesses made are [statSync] calls: no strategy was run. *)
Definition statOnly (st st' : State) : Prop :=
  exists evs : list Event,
    trace st' = trace st ++ evs /\ Forall (fun e => isStrategyEvent e = false) evs.

(** ** Finalization as the specification words it *)

(** A second [complete()] on the session is a no-op: no second entry in
    the history, no record changed. *)
Definition completesOnce `{Host} (s : SearchSession) (st : State) : Prop :=
  let st1 := snd (complete s st) in
  let st2 := snd (complete s st1) in
  searchHistory st2 = searchHistory st1 /\ records st2 = records st1.

(** ** Statements about results *)

(** [m] returns [v], whatever the state. *)
Definition Returns {A} (m : M A) (v : A) : Prop :=
  forall st : State, fst (m st) = inr v.

(** [m] throws [e], whatever the state. *)
Definition Throws {A} (m : M A) (e : JsError) : Prop :=
  forall st : State, fst (m st) = inl e.

(** The order in which the report leaves [matchDetails]: relevance,
    absent counting as 0, does not increase. *)
Definition byDescendingRelevance (ms : list MatchAnalytics) : Prop :=
  Sorted (fun a b => (default 0 (relevanceScore b) <= default 0 (relevanceScore a))%Q) ms.

(** What a telemetry entry repeats of a match. *)
Definition mirrored (ma : MatchAnalytics) : string * option Z * string :=
  (ma_filePath ma, ma_lineNumber ma, matchText ma).

Definition mirrorOf (m : GrepMatch) : string * option Z * string :=
  (filePath m, Some (lineNumber m), line m).

(** Between [st] and [st'] the record [r] went from [a] to [a'], and
    nothing else of the telemetry changed. *)
Definition rewrites (r : nat) (a a' : SearchAnalytics) (st st' : State) : Prop :=
  records st !! r = Some a
  /\ records st' = <[r := a']> (records st)
  /\ searchHistory st' = searchHistory st
  /\ analyticsEnabled st' = analyticsEnabled st.

(** The ranking factor is consistent: its impact is its value times its
    weight, and its value is not negative. *)
Definition weighted (f : RankingFactor) : Prop :=
  (impact f == value f * weight f)%Q /\ (0 <= value f)%Q.

Section SearchScope.
Context `{Host}.

(** The directory that [params.path] names. *)
Definition targetOf (params : GrepToolParams) : string :=
  path_resolve getTargetDir (default "" (path params)).

(** The path of the parameters is absent, or names a directory of the
    workspace. *)
Definition acceptsPath (params : GrepToolParams) : Prop :=
  JS.truthy_opt (path params) = false
  \/ (isPathWithinWorkspace (targetOf params) = true
      /\ statSync (targetOf params) = StatDirectory).

(** The directories searched: the one named, or every workspace root. *)
Definition searchDirectoriesOf (params : GrepToolParams) : list string :=
  if JS.truthy_opt (path params) then [targetOf params] else getDirectories.

(** The options of the search of one directory. *)
Definition optionsFor (params : GrepToolParams) (dir : string) : SearchOptions :=
  {| opt_pattern := pattern params; opt_path := dir; opt_include := include params |}.

(** Where the summary says the search took place. *)
Definition locationOf (params : GrepToolParams) : string :=
  if JS.truthy_opt (path params)
  then "in path " +:+ JS.dquote +:+ default "" (path params) +:+ JS.dquote
  else if Z.of_nat (List.length getDirectories) >? 1
       then "across " +:+ JS.ofZ (Z.of_nat (List.length getDirectories))
            +:+ " workspace directories"
       else "in the workspace directory".

(** The matches of one directory as the orchestrator aggregates them. *)
Definition aggregated (multiple : bool) (found : string -> list GrepMatch) (dir : string)
    : list GrepMatch :=
  if multiple
  then map (fun m => with_filePath (path_join (path_basename dir) (filePath m)) m) (found dir)
  else found dir.

(** The name under which strategy 3 reports a file of the stream. *)
Definition reportedPath (absolutePath fileAbsolutePath : string) : string :=
  JS.or_else (path_relative absolutePath fileAbsolutePath) (path_basename fileAbsolutePath).

(** Line [i] (from 0) of the file [f] exists and the pattern matches it. *)
Definition matchingLine (pat f : string) (i : nat) (l : string) : Prop :=
  exists content : string,
    readFile f = inr content
    /\ splitLines content !! i = Some l
    /\ regexp_test_i pat l = true.

(** The events [evs] follow the trace of [st] in [st'], and nothing else
    of the state differs. *)
Definition traced (evs : list Event) (st st' : State) : Prop :=
  trace st' = trace st ++ evs /\ onlyTrace st st'.

(** The parameters that the validation lets through. *)
Definition accepted (params : GrepToolParams) : Prop :=
  JS.truthy_opt (schemaValidate params) = false
  /\ regexp_ok (pattern params) = true
  /\ acceptsPath params.

(** Is there more than one directory to search? *)
Definition multipleRoots (params : GrepToolParams) : bool :=
  1 <? Z.of_nat (List.length (searchDirectoriesOf params)).

(** Everything found, directory after directory. *)
Definition allFound (params : GrepToolParams) (found : string -> list GrepMatch)
    : list GrepMatch :=
  concat (map (aggregated (multipleRoots params) found) (searchDirectoriesOf params)).

(** The rendered output as the specification words it: a line of a
    match shows its line number, and the block of a file shows the lines
    of its matches one after the other, in the order of the list. *)
Definition renderedLine (m : GrepMatch) : string :=
  "L" +:+ JS.ofZ (lineNumber m) +:+ ": " +:+ JS.trim (line m) +:+ JS.LF.

Definition renderedBlock (fileKey : string) (shown : list GrepMatch) : string :=
  "File: " +:+ fileKey +:+ JS.LF +:+ String.concat "" (map renderedLine shown)
  +:+ "---" +:+ JS.LF.

(** The line numbers shown by a rendered block do not decrease from one
    line to the next. *)
Definition inLineOrder (shown : list GrepMatch) : Prop :=
  Sorted Z.le (map lineNumber shown).

(** The reply to a search that failed. *)
Definition errorReply (e : JsError) : ToolResult :=
  {| llmContent := "Error during grep search operation: " +:+ getErrorMessage e;
     returnDisplay := "Error: " +:+ getErrorMessage e |}.

(** The file keys for which [acc[fileKey]] is found on [Object.prototype]
    when the object has no such key of its own. *)
Definition inheritedKey (fileKey : string) : bool :=
  existsb (String.eqb fileKey) JsObject.objectPrototypeKeys.

(** The first lines of the summary of a search that found
    [matchCount] matches. *)
Definition foundHeader (params : GrepToolParams) (matchCount : Z) : string :=
  "Found " +:+ JS.ofZ matchCount +:+ " " +:+ (if matchCount =? 1 then "match" else "matches")
  +:+ " for pattern " +:+ JS.dquote +:+ pattern params +:+ JS.dquote +:+ " "
  +:+ locationOf params
  +:+ (if JS.truthy_opt (include params)
       then " (filter: " +:+ JS.dquote +:+ default "" (include params) +:+ JS.dquote +:+ ")"
       else "")
  +:+ ":" +:+ JS.LF +:+ "---" +:+ JS.LF.

(** The stream of files that strategy 3 scans. *)
Definition scannedStream (options : SearchOptions) : GlobOutcome :=
  globStream
    (if JS.truthy_opt (opt_include options) then default "" (opt_include options) else "**/*")
    (opt_path options)
    [".git/**"; "node_modules/**"; "bower_components/**"; ".svn/**"; ".hg/**"].

(** The stream of files that the telemetry counts. *)
Definition countedStream (options : SearchOptions) : GlobOutcome :=
  globStream (JS.or_else (default "" (opt_include options)) "**/*") (opt_path options)
    [".git/**"; "node_modules/**"; "bower_components/**"].

End SearchScope.

(** ** The figures of the report *)

(** The sums that [getToolUsageBreakdown] keeps per search type, and the
    figures that it makes of them. *)
Record UsageTotals := {
  ut_count : Z;
  ut_totalTime : Q;
  ut_totalResults : Z
}.

Record UsageStats := {
  us_count : Z;
  us_percentage : string;
  us_avgTime : string;
  us_avgResults : string
}.

Section Figures.
Context `{Host}.

(** The callback of the first [reduce]. When [acc[s.searchType]] is
    found on [Object.prototype], it is that object that is updated: the
    properties of [acc] itself stay as they are. *)
Definition tally (acc : JsObject.t UsageTotals) (s : SearchAnalytics)
    : JsObject.t UsageTotals :=
  let type := SearchType_name (searchType s) in
  let add (t : UsageTotals) :=
    {| ut_count := ut_count t + 1;
       ut_totalTime := (ut_totalTime t + executionTimeMs s)%Q;
       ut_totalResults := ut_totalResults t + resultsFound s |} in
  match JsObject.get acc type with
  | JsObject.Undefined =>
      JsObject.set acc type (add {| ut_count := 0; ut_totalTime := 0; ut_totalResults := 0 |})
  | JsObject.Own t => JsObject.set acc type (add t)
  | JsObject.Inherited => acc
  end.

(** The callback of the second [reduce]. *)
Definition figures (total : Z) (acc : JsObject.t UsageStats) (entry : string * UsageTotals)
    : JsObject.t UsageStats :=
  let '(type, stats) := entry in
  JsObject.set acc type
    {| us_count := ut_count stats;
       us_percentage :=
         toFixed ((inject_Z (ut_count stats) / inject_Z total) * 100)%Q 1 +:+ "%";
       us_avgTime := toFixed (ut_totalTime stats / inject_Z (ut_count stats))%Q 2;
       us_avgResults :=
         toFixed (inject_Z (ut_totalResults stats) / inject_Z (ut_count stats))%Q 1 |}.

(** [getToolUsageBreakdown()], [history] being [this.searchHistory];
    [Object.entries] lists the properties in the order of [for ... in]. *)
Definition getToolUsageBreakdown (history : list SearchAnalytics) : JsObject.t UsageStats :=
  let breakdown := fold_left tally history [] in
  let total := Z.of_nat (List.length history) in
  fold_left (figures total) (JsObject.forIn breakdown) [].

(** [getTotalFilesProcessed()] *)
Definition getTotalFilesProcessed (history : list SearchAnalytics) : Z :=
  fold_left (fun sum s => sum + filesScanned s) history 0.

End Figures.

#[global] Instance SearchType_eq_dec : EqDecision SearchType.
Proof. solve_decision. Defined.

(** The searches of the type [ty] in the history. *)
Definition searchesOf (ty : SearchType) (history : list SearchAnalytics) : Z :=
  Z.of_nat (List.length (filter (fun s => searchType s = ty) history)).

(** ** The tool that reads a file

    The class [ReadFileTool] that follows [GrepTool] in [grep.ts]. Its
    offset and limit are line counts, hence integers here. The call of
    [recordFileOperationMetric] and the write of [searchParameters], a
    field that the records of this model do not carry, leave no mark on
    the state. *)

(** [ReadFileToolParams] *)
Record ReadFileToolParams := {
  absolute_path : string;
  offset : option Z;
  limit : option Z
}.

(** [PartUnion]: a string, or a part with inline data. *)
Inductive PartUnion :=
| TextPart (text : string)
| InlineDataPart (mimeType data : string).

(** What [processSingleFileContent] resolves to. *)
Record ProcessedFile := {
  pf_llmContent : option PartUnion;
  pf_returnDisplay : option string;
  pf_error : option string
}.

(** The [ToolResult] of this tool. *)
Record ReadToolResult := {
  read_llmContent : PartUnion;
  read_returnDisplay : string
}.

(** What the tool needs of its surroundings besides [Host]: the schema
    validator on its parameters, [path.isAbsolute], the file service,
    [processSingleFileContent] (which may reject) and the size and time
    that [fs.statSync] gives. *)
Class FileHost := {
  readSchemaValidate : ReadFileToolParams -> option string;
  path_isAbsolute : string -> bool;
  shouldGeminiIgnoreFile : string -> bool;
  processSingleFileContent : string -> string -> option Z -> option Z -> JsError + ProcessedFile;
  statSyncStats : string -> JsError + Stats
}.

Module ReadFileTool.

Section ReadFileTool.
Context `{Host} `{FileHost}.

(** [validateToolParams(params)] *)
Definition validateToolParams (params : ReadFileToolParams) : option string :=
  let errors := readSchemaValidate params in
  if JS.truthy_opt errors then errors
  else
    let filePath := absolute_path params in
    if negb (path_isAbsolute filePath) then
      Some ("File path must be absolute, but was relative: " +:+ filePath
            +:+ ". You must provide an absolute path.")
    else if negb (isPathWithinWorkspace filePath) then
      Some ("File path must be within one of the workspace directories: "
            +:+ JS.join getDirectories ", ")
    else if match offset params with Some o => o <? 0 | None => false end then
      Some "Offset must be a non-negative number"
    else if match limit params with Some l => l <=? 0 | None => false end then
      Some "Limit must be a positive number"
    else if shouldGeminiIgnoreFile (absolute_path params) then
      Some ("File path '" +:+ filePath +:+ "' is ignored by .geminiignore pattern(s).")
    else None.

(** [analyticsSession && testBenchAnalytics.isAnalyticsEnabled()] *)
Definition tracked (analyticsSession : option SearchSession) : M (option SearchSession) :=
  st <- get_state ;;
  ret (match analyticsSession with
       | Some s => if analyticsEnabled st then Some s else None
       | None => None
       end).

(** [execute(params, signal)] *)
Definition execute (params : ReadFileToolParams) : M ReadToolResult :=
  let validationError := validateToolParams params in
  if JS.truthy_opt validationError then
    ret {| read_llmContent :=
             TextPart ("Error: Invalid parameters provided. Reason: "
                       +:+ default "" validationError);
           read_returnDisplay := default "" validationError |}
  else
    st <- get_state ;;
    analyticsSession <-
      (if analyticsEnabled st then
         let relativePath := path_relative getTargetDir (absolute_path params) in
         let searchQuery := "ReadFile: " +:+ relativePath in
         s <- startSearch searchQuery read_files getTargetDir ;;
         setToolDecisionReason s "CLI chose ReadFile tool for single file access" ;;
         ret (Some s)
       else ret None) ;;
    emit (EvReadFile (absolute_path params)) ;;
    match processSingleFileContent (absolute_path params) getTargetDir
            (offset params) (limit params) with
    | inl e => throw e
    | inr result =>
        if JS.truthy_opt (pf_error result) then
          active <- tracked analyticsSession ;;
          match active with
          | Some s => complete s ;; ret tt
          | None => ret tt
          end ;;
          ret {| read_llmContent := TextPart (default "" (pf_error result));
                 read_returnDisplay :=
                   JS.or_else (default "" (pf_returnDisplay result)) "Error reading file" |}
        else
          active <- tracked analyticsSession ;;
          match active with
          | Some s =>
              let relativePath := path_relative getTargetDir (absolute_path params) in
              t <- tick ;;
              emit (EvStatSync (absolute_path params)) ;;
              let '(fileSize, fileLastModified) :=
                match statSyncStats (absolute_path params) with
                | inr stats => (size stats, mtimeMs stats)
                | inl _ => (0, Date_now t)
                end in
              addMatch s {| ma_filePath := relativePath;
                            ma_lineNumber := Some (default 0 (offset params));
                            matchText := "File: " +:+ relativePath;
                            contextBefore := None;
                            contextAfter := None;
                            relevanceScore := Some 1.0%Q;
                            matchReason := "File read successfully";
                            fileSize := fileSize;
                            fileLastModified := fileLastModified |} ;;
              setFilesScanned s 1 ;;
              complete s ;;
              ret tt
          | None => ret tt
          end ;;
          ret {| read_llmContent := default (TextPart "") (pf_llmContent result);
                 read_returnDisplay := default "" (pf_returnDisplay result) |}
    end.

End ReadFileTool.

End ReadFileTool.

(** The parameters that the validation of the reading tool lets
    through. *)
Definition readable `{Host} `{FileHost} (params : ReadFileToolParams) : Prop :=
  JS.truthy_opt (readSchemaValidate params) = false
  /\ path_isAbsolute (absolute_path params) = true
  /\ isPathWithinWorkspace (absolute_path params) = true
  /\ (forall o, offset params = Some o -> 0 <= o)
  /\ (forall l, limit params = Some l -> 0 < l)
  /\ shouldGeminiIgnoreFile (absolute_path params) = false.

(** The reply to a read that went through. *)
Definition okReply (result : ProcessedFile) : ReadToolResult :=
  {| read_llmContent := default (TextPart "") (pf_llmContent result);
     read_returnDisplay := default "" (pf_returnDisplay result) |}.

(** The reply to a read that reported an error. *)
Definition failedReply (result : ProcessedFile) : ReadToolResult :=
  {| read_llmContent := TextPart (default "" (pf_error result));
     read_returnDisplay :=
       JS.or_else (default "" (pf_returnDisplay result)) "Error reading file" |}.

(** The entry that a successful read leaves in the telemetry. *)
Definition readEntry `{Host} (params : ReadFileToolParams) (ma : MatchAnalytics) : Prop :=
  ma_filePath ma = path_relative getTargetDir (absolute_path params)
  /\ ma_lineNumber ma = Some (default 0 (offset params))
  /\ matchText ma = "File: " +:+ path_relative getTargetDir (absolute_path params)
  /\ relevanceScore ma = Some 1.0%Q
  /\ matchReason ma = "File read successfully".

(** ** urlContentDownloader.ts *)

(** [chunkArray(array, chunkSize)]: the loop
    [for (let i = 0; i < array.length; i += chunkSize)], run for at most
    [fuel] iterations; [None] when they do not suffice. *)
Fixpoint chunkArray_loop {T} (fuel : nat) (array : list T) (chunkSize i : Z)
    (chunks : list (list T)) : option (list (list T)) :=
  if i <? Z.of_nat (List.length array) then
    match fuel with
    | O => None
    | S fuel' =>
        chunkArray_loop fuel' array chunkSize (i + chunkSize)
          (chunks ++ [slice array i (i + chunkSize)])
    end
  else Some chunks.

Definition chunkArray {T} (fuel : nat) (array : list T) (chunkSize : Z)
    : option (list (list T)) :=
  chunkArray_loop fuel array chunkSize 0 [].

(** The class of the first replacement of [sanitizeFilename]: angle
    brackets, colon, double quote, slash, backslash, bar, question mark
    and star. *)
Definition isReservedChar (c : ascii) : bool :=
  match c with
  | "<" | ">" | ":" | "034" | "/" | "\" | "|" | "?" | "*" => true
  | _ => false
  end%char.

(** [s.replace(/[class]/g, '_')] *)
Fixpoint replaceEach (p : ascii -> bool) (s : string) : string :=
  match s with
  | String c s' => String (if p c then "_"%char else c) (replaceEach p s')
  | EmptyString => EmptyString
  end.

(** [s.replace(/[class]+/g, '_')]: [inRun] tells that the code unit
    before was of the class, its run being replaced already. *)
Fixpoint replaceRuns (p : ascii -> bool) (s : string) (inRun : bool) : string :=
  match s with
  | String c s' =>
      if p c then (if inRun then replaceRuns p s' true else String "_" (replaceRuns p s' true))
      else String c (replaceRuns p s' false)
  | EmptyString => EmptyString
  end.

Definition isUnderscore (c : ascii) : bool := Ascii.eqb c "_".

(** [s.replace(/^_|_$/g, '')]: an underscore that starts the string and
    one that ends what is left of it. *)
Definition stripUnderscore (s : string) : string :=
  match s with
  | String "_" s' => s'
  | _ => s
  end.

Fixpoint stripLastUnderscore (s : string) : string :=
  match s with
  | String c s' =>
      match s' with
      | EmptyString => if isUnderscore c then EmptyString else s
      | String _ _ => String c (stripLastUnderscore s')
      end
  | EmptyString => EmptyString
  end.

Definition stripEnds (s : string) : string :=
  stripLastUnderscore (stripUnderscore s).

(** [sanitizeFilename(filename)] *)
Definition sanitizeFilename (filename : string) : string :=
  let s := replaceEach isReservedChar filename in
  let s := replaceRuns JS.isWhiteSpace s false in
  let s := replaceRuns isUnderscore s false in
  let s := stripEnds s in
  JS.substring s 0 100.

(** A [Response] of [fetch], as far as it is read. *)
Record Response := {
  resp_ok : bool;
  resp_status : Z;
  resp_statusText : string;
  resp_text : JsError + string;
  resp_contentType : option string
}.

(** The network, the [URL] class, the directory of the downloads and the
    clock. [fetch n url] is the outcome of the call number [n] of
    [fetch], [writeFile n] that of the write of the download number [n],
    [toISOString n] and [now n] are the clock as that download reads it. *)
Class Web := {
  fetch : nat -> string -> JsError + Response;
  mkdir : string -> option JsError;
  writeFile : nat -> string -> string -> option JsError;
  (** [new URL(url)]: its [pathname] and [hostname], its [origin] *)
  urlParts : string -> option (string * string);
  urlOrigin : string -> option string;
  (** [new URL(line, origin).toString()] *)
  urlResolve : string -> string -> option string;
  (** the group of [content.match(/<title[^>]*>([^<]+)<\/title>/i)] *)
  titleGroup : string -> option string;
  toISOString : nat -> string;
  now : nat -> Q
}.

(** [DownloadedContent] *)
Record DownloadedContent := {
  dc_url : string;
  dc_content : string;
  dc_title : string;
  dc_contentType : string;
  downloadedAt : Q;
  dc_filePath : string
}.

(** [DownloadResult] *)
Record DownloadResult := {
  successful : list DownloadedContent;
  failed : list (string * string);
  totalUrls : Z;
  downloadedCount : Z
}.

Section Downloader.
Context `{Host} `{Web}.

(** [this.outputDir] *)
Variable outputDir : string.

Definition maxConcurrentDownloads : Z := 50.

(** [s.startsWith(prefix)] *)
Definition startsWith (s prefix : string) : bool := String.prefix prefix s.

(** The body of the loop of [parseLlmsTxt]: [urls] after [line]. *)
Definition parseLlmsLine (baseUrl : string) (urls : list string) (line : string)
    : list string :=
  if startsWith line "#" || startsWith line "//" then urls
  else if startsWith line "http://" || startsWith line "https://" then urls ++ [line]
  else
    match urlOrigin baseUrl with
    | Some origin =>
        match urlResolve line origin with
        | Some url => urls ++ [url]
        | None => urls
        end
    | None => urls
    end.

(** [content.split('\n').map(line => line.trim()).filter(Boolean)] *)
Definition listedLines (content : string) : list string :=
  filter (fun line => JS.truthy line = true) (map JS.trim (JS.split content JS.LF)).

(** [parseLlmsTxt(content, baseUrl)] *)
Definition parseLlmsTxt (content baseUrl : string) : list string :=
  let lines := listedLines content in
  fold_left (parseLlmsLine baseUrl) lines [].

(** [extractTitle(content, contentType)] *)
Definition extractTitle (content contentType : string) : option string :=
  if negb (JS.includes contentType "html") then None
  else JS.trim <$> titleGroup content.

(** [urlToFilename(url)] *)
Definition urlToFilename (url : string) : string :=
  match urlParts url with
  | Some (pathname, hostname) =>
      if JS.truthy pathname && negb (String.eqb pathname "/") then
        let segments := filter (fun seg => JS.truthy seg = true) (JS.split pathname "/") in
        JS.or_else (List.last segments "") hostname
      else hostname
  | None => "downloaded-content"
  end.

(** [formatContent(url, content, contentType, title)], the clock read
    by the download number [n]. *)
Definition formatContent (n : nat) (url content contentType title : string) : string :=
  JS.join [ "# Downloaded Content";
            "URL: " +:+ url;
            "Title: " +:+ JS.or_else title "N/A";
            "Content-Type: " +:+ contentType;
            "Downloaded: " +:+ toISOString n;
            "";
            "---";
            "";
            content ] JS.LF.

(** [downloadSingleUrl(url)], the download number [n]: the promise is
    fulfilled with a value or rejected with an error. *)
Definition downloadSingleUrl (n : nat) (url : string) : JsError + DownloadedContent :=
  match fetch n url with
  | inl e => inl e
  | inr response =>
      if negb (resp_ok response) then
        inl (mkError ("HTTP " +:+ JS.ofZ (resp_status response) +:+ ": "
                      +:+ resp_statusText response))
      else
        match resp_text response with
        | inl e => inl e
        | inr content =>
            let contentType := JS.or_else (default "" (resp_contentType response)) "text/plain" in
            let title := extractTitle content contentType in
            let title := if JS.truthy_opt title then default "" title else urlToFilename url in
            let filename := sanitizeFilename title +:+ ".txt" in
            let filePath := path_join outputDir filename in
            let fileContent := formatContent n url content contentType title in
            match writeFile n filePath fileContent with
            | Some e => inl e
            | None =>
                inr {| dc_url := url; dc_content := fileContent; dc_title := title;
                       dc_contentType := contentType; downloadedAt := now n;
                       dc_filePath := filePath |}
            end
        end
  end.

(** Has the download of [entry], a number and a URL, been fulfilled? *)
Definition fulfilled (entry : nat * string) : bool :=
  match downloadSingleUrl (fst entry) (snd entry) with
  | inr _ => true
  | inl _ => false
  end.

(** The callback of [batchResults.forEach]. *)
Definition settle (result : DownloadResult) (url : string)
    (batchResult : JsError + DownloadedContent) : DownloadResult :=
  match batchResult with
  | inr value =>
      {| successful := successful result ++ [value]; failed := failed result;
         totalUrls := totalUrls result; downloadedCount := downloadedCount result + 1 |}
  | inl reason =>
      {| successful := successful result;
         failed := failed result ++ [(url, JS.or_else (errMessage reason) "Unknown error")];
         totalUrls := totalUrls result; downloadedCount := downloadedCount result |}
  end.

(** One batch: the downloads are started in the order of the batch,
    [n] being the number of the first, and [Promise.allSettled] gives
    their outcomes in that order. *)
Fixpoint processBatch (n : nat) (batch : list string) (result : DownloadResult)
    : DownloadResult :=
  match batch with
  | [] => result
  | url :: batch' => processBatch (S n) batch' (settle result url (downloadSingleUrl n url))
  end.

Fixpoint processBatches (n : nat) (batches : list (list string)) (result : DownloadResult)
    : DownloadResult :=
  match batches with
  | [] => result
  | batch :: batches' =>
      processBatches (n + List.length batch) batches' (processBatch n batch result)
  end.

(** [downloadUrls(urls)], its downloads numbered from [n]; the promise
    is rejected when the output directory cannot be made. *)
Definition downloadUrls (fuel n : nat) (urls : list string)
    : option (JsError + DownloadResult) :=
  let result := {| successful := []; failed := [];
                   totalUrls := Z.of_nat (List.length urls); downloadedCount := 0 |} in
  match mkdir outputDir with
  | Some e => Some (inl e)
  | None =>
      match chunkArray fuel urls maxConcurrentDownloads with
      | Some batches => Some (inr (processBatches n batches result))
      | None => None
      end
  end.

(** [downloadFromLlmsTxt(llmsTxtUrl)]: the call number 0 of [fetch]
    reads the list, the downloads are numbered from 1. *)
Definition downloadFromLlmsTxt (fuel : nat) (llmsTxtUrl : string) : option DownloadResult :=
  let caught (error : JsError) :=
    {| successful := [];
       failed := [(llmsTxtUrl, "Failed to fetch llms.txt: " +:+ errorToString error)];
       totalUrls := 1; downloadedCount := 0 |} in
  match fetch 0 llmsTxtUrl with
  | inl e => Some (caught e)
  | inr response =>
      if negb (resp_ok response) then
        Some (caught (mkError ("Failed to fetch llms.txt: " +:+ JS.ofZ (resp_status response)
                               +:+ " " +:+ resp_statusText response)))
      else
        match resp_text response with
        | inl e => Some (caught e)
        | inr llmsTxtContent =>
            let urls := parseLlmsTxt llmsTxtContent llmsTxtUrl in
            match downloadUrls fuel 1 urls with
            | Some (inr result) => Some result
            | Some (inl e) => Some (caught e)
            | None => None
            end
        end
  end.

(** The URLs that [downloadFromLlmsTxt] goes on to download: those of
    the list, when it could be fetched and read. *)
Definition listedUrls (llmsTxtUrl : string) : list string :=
  match fetch 0 llmsTxtUrl with
  | inr response =>
      if resp_ok response then
        match resp_text response with
        | inr llmsTxtContent => parseLlmsTxt llmsTxtContent llmsTxtUrl
        | inl _ => []
        end
      else []
  | inl _ => []
  end.

End Downloader.

(** The line is taken as a URL as it stands. *)
Definition isAbsoluteUrl (line : string) : bool :=
  String.prefix "http://" line || String.prefix "https://" line.

(** The URLs with the numbers of their downloads, from [n]. *)
Definition numbered (n : nat) (urls : list string) : list (nat * string) :=
  combine (seq n (List.length urls)) urls.

(** The books of a [DownloadResult] balance: every URL counted is among
    the downloads or among the failures, and the counter of the
    downloads is their number. *)
Definition balanced (r : DownloadResult) : Prop :=
  Z.of_nat (List.length (successful r)) + Z.of_nat (List.length (failed r)) = totalUrls r
  /\ downloadedCount r = Z.of_nat (List.length (successful r)).

(** The code units of a string. *)
Fixpoint codeUnits (s : string) : list ascii :=
  match s with
  | String c s' => c :: codeUnits s'
  | EmptyString => []
  end.

(** No two underscores follow each other in [s]. *)
Fixpoint singleUnderscores (s : string) : Prop :=
  match s with
  | String c s' =>
      match s' with
      | String d _ => ~ (isUnderscore c = true /\ isUnderscore d = true)
      | EmptyString => True
      end /\ singleUnderscores s'
  | EmptyString => True
  end.

(** ** More hosts to run the model on *)

Module Scenario.

(** The host of a world, but where every stream of files ends with the
    error [e] after having yielded nothing. *)
Definition brokenStream (w : Sample.World) (e : JsError) : Host :=
  let h := Sample.host w in
  {| platform := @platform h;
     cwd := @cwd h;
     toLowerCase := @toLowerCase h;
     toUpperCase := @toUpperCase h;
     toFixed := @toFixed h;
     regexp_ok := @regexp_ok h;
     regexp_error := @regexp_error h;
     regexp_test_i := @regexp_test_i h;
     path_resolve := @path_resolve h;
     path_relative := @path_relative h;
     path_basename := @path_basename h;
     path_extname := @path_extname h;
     path_join := @path_join h;
     schemaValidate := @schemaValidate h;
     getTargetDir := @getTargetDir h;
     getDirectories := @getDirectories h;
     isPathWithinWorkspace := @isPathWithinWorkspace h;
     statSync := @statSync h;
     isGitRepository := @isGitRepository h;
     spawn := @spawn h;
     globStream := fun _ _ _ => {| globFiles := []; globError := Some e |};
     readFile := @readFile h;
     stat := @stat h;
     performance_now := @performance_now h;
     Date_now := @Date_now h |}.

Definition aborted : JsError :=
  {| errName := "AbortError"; errMessage := "The operation was aborted";
     errCode := Some "ABORT_ERR" |}.

(** A directory with a file named [constructor]. *)
Definition constructorWorld : Sample.World := {|
  Sample.os := posix;
  Sample.workspace := ["/ws"];
  Sample.directories := ["/ws"];
  Sample.files := [ ("/ws/constructor", "// TODO fix" +:+ JS.LF) ];
  Sample.gitRepositories := [];
  Sample.processes := Sample.noProcesses
  |}.

(** Two roots, each with a file [a.txt]. *)
Definition twoRoots : Sample.World := {|
  Sample.os := posix;
  Sample.workspace := ["/ws/app"; "/ws/lib"];
  Sample.directories := ["/ws/app"; "/ws/lib"];
  Sample.files := [ ("/ws/app/a.txt", "// TODO app" +:+ JS.LF);
                    ("/ws/lib/a.txt", "nothing" +:+ JS.LF +:+ "// TODO lib" +:+ JS.LF) ];
  Sample.gitRepositories := [];
  Sample.processes := Sample.noProcesses
  |}.

(** A site that serves a list of three entries, one of them a comment,
    and of the two pages listed only the first. *)
Definition site : Web := {|
  fetch := fun n url =>
    if String.eqb url "https://docs.test/llms.txt" then
      inr {| resp_ok := true; resp_status := 200; resp_statusText := "OK";
             resp_text := inr ("# pages" +:+ JS.LF +:+ "https://docs.test/intro" +:+ JS.LF
                               +:+ "  https://docs.test/gone  " +:+ JS.LF);
             resp_contentType := Some "text/plain" |}
    else if String.eqb url "https://docs.test/intro" then
      inr {| resp_ok := true; resp_status := 200; resp_statusText := "OK";
             resp_text := inr "<title>Intro: start here</title>";
             resp_contentType := Some "text/html" |}
    else
      inr {| resp_ok := false; resp_status := 404; resp_statusText := "Not Found";
             resp_text := inr ""; resp_contentType := None |};
  mkdir := fun _ => None;
  writeFile := fun _ _ _ => None;
  urlParts := fun _ => None;
  urlOrigin := fun _ => None;
  urlResolve := fun _ _ => None;
  titleGroup := fun content =>
    if String.prefix "<title>" content then Some "Intro: start here" else None;
  toISOString := fun _ => "2025-01-01T00:00:00.000Z";
  now := fun n => inject_Z (Z.of_nat n)
  |}.

Definition denied : JsError :=
  {| errName := "Error"; errMessage := "EACCES: permission denied"; errCode := Some "EACCES" |}.

(** A reader for which [/ws/a.txt] can be read, [/ws/locked.txt]
    makes the read fail, and nothing else is found. *)
Definition reader : FileHost := {|
  readSchemaValidate := fun _ => None;
  path_isAbsolute := fun p => String.prefix "/" p;
  shouldGeminiIgnoreFile := fun _ => false;
  processSingleFileContent := fun p _ _ _ =>
    if String.eqb p "/ws/a.txt" then
      inr {| pf_llmContent := Some (TextPart "// TODO fix");
             pf_returnDisplay := Some "Read 1 line"; pf_error := None |}
    else if String.eqb p "/ws/locked.txt" then inl denied
    else inr {| pf_llmContent := None; pf_returnDisplay := None;
                pf_error := Some ("File not found: " +:+ p) |};
  statSyncStats := fun p =>
    if String.eqb p "/ws/a.txt" then inr {| size := 24; mtimeMs := 0 |}
    else inl (Sample.enoent p)
  |}.

End Scenario.

(** * Properties *)

(** ** The primitives on examples *)

Example trim_ex : JS.trim "  a b  " = "a b".
Proof. reflexivity. Qed.

Example split_ex :
  JS.split ("a" +:+ JS.CRLF +:+ "b" +:+ JS.CRLF) JS.CRLF = ["a"; "b"; ""].
Proof. reflexivity. Qed.

Example parseInt_ex :
  JS.parseInt " 12abc" = Some 12 /\ JS.parseInt "abc" = None /\ JS.parseInt "-7" = Some (-7).
Proof. repeat split. Qed.

Example indexOf_ex : JS.indexOf "a:b:c" ":" 2 = 3 /\ JS.indexOf "abc" "x" 0 = -1.
Proof. split; reflexivity. Qed.

Example execute_todo :
  fst (@execute (Sample.host Sample.todoWorld)
         {| pattern := "TODO"; path := None; include := None |} (Sample.initial true))
  = inr {| llmContent :=
             "Found 1 match for pattern " +:+ JS.dquote +:+ "TODO" +:+ JS.dquote
             +:+ " in the workspace directory:" +:+ JS.LF +:+ "---" +:+ JS.LF
             +:+ "File: a.txt" +:+ JS.LF +:+ "L3: // TODO fix" +:+ JS.LF +:+ "---";
           returnDisplay := "Found 1 match" |}.
Proof. vm_compute. reflexivity. Qed.

(** ** Relevance and ranking heuristics *)

Lemma Qmin_eq_l (a b c : Q) : (a == b)%Q -> (Qmin a c == Qmin b c)%Q.
Proof. intros E. rewrite E. reflexivity. Qed.

Lemma Qmin_eq_r (a b c : Q) : (a == b)%Q -> (Qmin c a == Qmin c b)%Q.
Proof. intros E. rewrite E. reflexivity. Qed.

Lemma countRegexChars_nonneg (s : string) : 0 <= countRegexChars s.
Proof. induction s as [|c s IH]; simpl; [lia|]. destruct (isRegexChar c); lia. Qed.

Section Heuristics.
Context `{Host}.

(** The score of the code in closed form: the position increment is
    granted when [indexOf] is below 10, which includes its [-1]. *)
Lemma calculateRelevanceScore_formula (m : GrepMatch) (pat : string) :
  (calculateRelevanceScore m pat ==
     Qmin 1
       (0.5
        + (if JS.includes (toLowerCase (line m)) (toLowerCase pat) then 0.2 else 0)
        + (if JS.length (JS.trim (line m)) <? 100 then 0.1 else 0)
        + (if JS.length (JS.trim (line m)) <? 50 then 0.1 else 0)
        + (if matchPosition m pat <? 10 then 0.1 else 0)
        + (if favoredExtension m then 0.1 else 0)))%Q.
Proof.
  unfold calculateRelevanceScore, matchPosition, favoredExtension.
  apply Qmin_eq_r.
  destruct (JS.includes _ _), (_ <? 100), (_ <? 50), (_ <? 10), (existsb _ _); ring.
Qed.

(** Where the pattern occurs in the trimmed lowercased line, the code
    and the specification agree. *)
Lemma calculateRelevanceScore_when_found (m : GrepMatch) (pat : string) :
  0 <= matchPosition m pat ->
  (calculateRelevanceScore m pat == specRelevanceScore m pat)%Q.
Proof.
  intros Hpos. rewrite calculateRelevanceScore_formula. unfold specRelevanceScore.
  apply Z.leb_le in Hpos. rewrite Hpos. reflexivity.
Qed.

Lemma calculateRelevanceScore_bounds (m : GrepMatch) (pat : string) :
  (0 <= calculateRelevanceScore m pat <= 1)%Q.
Proof.
  rewrite calculateRelevanceScore_formula. split; [|apply Q.le_min_l].
  apply Q.min_glb; [discriminate|].
  destruct (JS.includes _ _), (_ <? 100), (_ <? 50), (_ <? 10), (favoredExtension m);
    discriminate.
Qed.

(** C4 (amended). For every pattern the complexity is the sum, clamped to
    at most 1, of: 0.1 per regex metacharacter capped at 0.5; 0.01 per
    character capped at 0.3; 0.1 if the pattern differs from both its
    lowercase and uppercase form; 0.2 if it contains one of the
    word-boundary, word or digit escapes (the white-space escape is not
    among them). *)
Theorem calculatePatternComplexity_formula (pat : string) :
  (calculatePatternComplexity pat ==
     Qmin (Qmin (inject_Z (countRegexChars pat) * 0.1) 0.5
           + Qmin (inject_Z (JS.length pat) * 0.01) 0.3
           + (if mixesCase pat then 0.1 else 0)
           + (if hasShorthandEscape pat then 0.2 else 0)) 1)%Q.
Proof.
  unfold calculatePatternComplexity, mixesCase, hasShorthandEscape.
  pose proof (countRegexChars_nonneg pat) as Hn.
  apply Qmin_eq_l.
  destruct (0 <? countRegexChars pat) eqn:E.
  - destruct (_ && _), (_ || _); ring.
  - apply Z.ltb_ge in E. assert (countRegexChars pat = 0) as -> by lia.
    assert (Qmin (inject_Z 0 * 0.1) 0.5 == 0)%Q as -> by reflexivity.
    destruct (_ && _), (_ || _); ring.
Qed.

End Heuristics.

(** C4, as stated, fails on the pattern made of the white-space escape
    alone: one metacharacter and two characters give 0.12, and the
    specification adds 0.2 for the escape. *)
Lemma whitespace_escape_not_counted :
  let h := Sample.host Sample.todoWorld in
  (@calculatePatternComplexity h "\s" == 0.12)%Q
  /\ (@specPatternComplexity h "\s" == 0.32)%Q
  /\ ~ (@calculatePatternComplexity h "\s" == @specPatternComplexity h "\s")%Q.
Proof. vm_compute. repeat split; discriminate. Qed.

(** C3. On a line that the regular expression matches without containing
    the pattern as a substring, [indexOf] is [-1], which is below 10: the
    code grants the position increment, 0.8 in all, where the
    specification has 0.7. *)
Theorem relevance_position_increment_without_match :
  let h := Sample.host Sample.todoWorld in
  let m := {| filePath := "notes.c"; lineNumber := 4; line := "hello world" |} in
  @regexp_test_i h "h.llo" (line m) = true
  /\ @matchPosition h m "h.llo" = -1
  /\ (@calculateRelevanceScore h m "h.llo" == 0.8)%Q
  /\ (@specRelevanceScore h m "h.llo" == 0.7)%Q.
Proof. vm_compute. repeat split. Qed.

(** ** Match reasons *)

Lemma append_nonempty (a b : string) : a <> "" -> a +:+ b <> "".
Proof. destruct a as [|c a]; [congruence|]. intros _. cbv [String.append]. discriminate. Qed.

Lemma truthy_true (s : string) : JS.truthy s = true <-> s <> "".
Proof.
  unfold JS.truthy. destruct (String.eqb_spec s ""); simpl; split; congruence.
Qed.

Lemma join_nonempty (x : string) (l : list string) (sep : string) :
  x <> "" -> JS.join (x :: l) sep <> "".
Proof.
  intros Hx. unfold JS.join. simpl. destruct l; [exact Hx|].
  apply append_nonempty, Hx.
Qed.

Section Reasons.
Context `{Host}.

Lemma matchReasons_applicable (m : GrepMatch) (pat : string) :
  matchReasons m pat = applicableReasons m pat.
Proof.
  unfold matchReasons, applicableReasons.
  destruct (JS.includes _ _), (regexp_test_i _ _), (JS.truthy _), (_ <? 10); reflexivity.
Qed.

Lemma applicableReasons_head (m : GrepMatch) (pat : string) :
  match applicableReasons m pat with
  | [] => True
  | r :: _ => r <> ""
  end.
Proof.
  unfold applicableReasons.
  destruct (JS.includes _ _), (regexp_test_i _ _), (JS.truthy _), (_ <? 10); simpl;
    try exact I; try discriminate; apply append_nonempty; discriminate.
Qed.

(** C9. For every match and pattern the relevance score lies in [0,1];
    and for every pattern that is a regular expression [getMatchReason]
    returns a non-empty string: the applicable reasons joined by a comma
    and a space, or ["pattern match"] when none applies. *)
Theorem relevance_in_unit_interval_and_reason_nonempty (m : GrepMatch) (pat : string) :
  (0 <= calculateRelevanceScore m pat <= 1)%Q
  /\ (regexp_ok pat = true ->
      forall st : State,
      exists reason : string,
        getMatchReason m pat st = (inr reason, st)
        /\ reason <> ""
        /\ reason = match applicableReasons m pat with
                    | [] => "pattern match"
                    | reasons => JS.join reasons ", "
                    end).
Proof.
  split; [apply calculateRelevanceScore_bounds|].
  intros Hok st. unfold getMatchReason, newRegExp, bind, ret. rewrite Hok.
  rewrite matchReasons_applicable.
  pose proof (applicableReasons_head m pat) as Hhead.
  destruct (applicableReasons m pat) as [|r rs].
  - exists "pattern match". repeat split. discriminate.
  - exists (JS.join (r :: rs) ", ").
    assert (JS.join (r :: rs) ", " <> "") as Hne by (apply join_nonempty, Hhead).
    unfold JS.or_else. apply truthy_true in Hne as Ht. rewrite Ht. auto.
Qed.

End Reasons.

Lemma relevance_in_unit_interval_and_reason_nonempty_witness :
  let h := Sample.host Sample.todoWorld in
  let m := {| filePath := "a.txt"; lineNumber := 3; line := "// TODO fix" |} in
  @regexp_ok h "TODO" = true
  /\ exists reason : string,
       @getMatchReason h m "TODO" (Sample.initial true) = (inr reason, Sample.initial true)
       /\ reason <> ""
       /\ reason = match @applicableReasons h m "TODO" with
                   | [] => "pattern match"
                   | reasons => JS.join reasons ", "
                   end.
Proof.
  intros h m. split; [reflexivity|].
  apply (proj2 (@relevance_in_unit_interval_and_reason_nonempty h m "TODO")).
  reflexivity.
Defined.

Example getMatchReason_todo :
  let h := Sample.host Sample.todoWorld in
  fst (@getMatchReason h {| filePath := "a.txt"; lineNumber := 3; line := "// TODO fix" |}
         "TODO" (Sample.initial true))
  = inr "exact pattern match, regex pattern match, found in .txt file, near file beginning".
Proof. vm_compute. reflexivity. Qed.

Example getMatchReason_default :
  let h := Sample.host Sample.todoWorld in
  fst (@getMatchReason h {| filePath := "Makefile"; lineNumber := 40; line := "all:" |}
         "clean" (Sample.initial true))
  = inr "pattern match".
Proof. vm_compute. reflexivity. Qed.

(** ** Strings *)

Lemma append_cons (c : ascii) (a b : string) : String c a +:+ b = String c (a +:+ b).
Proof. reflexivity. Qed.

Lemma append_nil_l (b : string) : "" +:+ b = b.
Proof. reflexivity. Qed.

Lemma append_nil_r (a : string) : a +:+ "" = a.
Proof. induction a as [|c a IH]; [reflexivity|]. rewrite append_cons, IH. reflexivity. Qed.

Lemma append_assoc (a b c : string) : (a +:+ b) +:+ c = a +:+ (b +:+ c).
Proof.
  induction a as [|x a IH]; [reflexivity|]. rewrite !append_cons, IH. reflexivity.
Qed.

Lemma length_append (a b : string) :
  String.length (a +:+ b) = (String.length a + String.length b)%nat.
Proof. induction a as [|x a IH]; [reflexivity|]. rewrite append_cons. simpl. lia. Qed.

Lemma rev_app_append (a b : string) : String.rev_app a b = String.rev a +:+ b.
Proof.
  unfold String.rev. revert b. induction a as [|x a IH]; intros b; [reflexivity|].
  simpl. rewrite IH, (IH (String x "")), append_assoc. reflexivity.
Qed.

Lemma rev_cons (c : ascii) (s : string) : String.rev (String c s) = String.rev s +:+ String c "".
Proof. unfold String.rev at 1. simpl. apply rev_app_append. Qed.

Lemma drop_append (p r : string) : JS.drop (String.length p) (p +:+ r) = r.
Proof. induction p as [|x p IH]; [destruct r; reflexivity|]. rewrite append_cons. exact IH. Qed.

Lemma drop_nil (n : nat) : JS.drop n "" = "".
Proof. destruct n; reflexivity. Qed.

Lemma substring_append_l (p r : string) : String.substring 0 (String.length p) (p +:+ r) = p.
Proof.
  induction p as [|x p IH]; [destruct r; reflexivity|].
  rewrite append_cons. simpl. rewrite IH. reflexivity.
Qed.

Lemma substring_append_r (p r : string) (n : nat) :
  String.substring (String.length p) n (p +:+ r) = String.substring 0 n r.
Proof. induction p as [|x p IH]; [reflexivity|]. rewrite append_cons. exact IH. Qed.

Lemma prefix_cons (a c : ascii) (p s : string) :
  String.prefix (String a p) (String c s)
  = if ascii_dec a c then String.prefix p s else false.
Proof. reflexivity. Qed.

Lemma prefix_nil_l (s : string) : String.prefix "" s = true.
Proof. destruct s; reflexivity. Qed.

Lemma prefix_colon_cons (c : ascii) (s : string) :
  String.prefix ":" (String c s) = if ascii_dec ":" c then true else false.
Proof. rewrite prefix_cons, prefix_nil_l. reflexivity. Qed.

Lemma prefix_append (p s : string) :
  String.prefix p s = true -> s = p +:+ JS.drop (String.length p) s.
Proof.
  revert s. induction p as [|x p IH]; intros s Hp.
  - destruct s; reflexivity.
  - destruct s as [|c s]; [discriminate Hp|]. rewrite prefix_cons in Hp.
    destruct (ascii_dec x c) as [<-|]; [|discriminate Hp].
    rewrite append_cons. simpl. f_equal. apply IH, Hp.
Qed.

(** *** [indexOf] of a colon *)

Lemma colonFree_nil : colonFree "".
Proof. intros [|c a] b; rewrite ?append_cons; discriminate. Qed.

Lemma colonFree_cons (c : ascii) (s : string) :
  c <> ":"%char -> colonFree s -> colonFree (String c s).
Proof.
  intros Hc Hs [|x a] b; rewrite ?append_cons, ?append_nil_l; intros E.
  - injection E as E1 E2. congruence.
  - injection E as E1 E2. exact (Hs a b E2).
Qed.

Lemma indexOf_scan_colon (s : string) (i : Z) :
  0 <= i ->
  (JS.indexOf_scan ":" s i = -1 /\ colonFree s)
  \/ exists p r : string,
       s = p +:+ ":" +:+ r /\ colonFree p
       /\ JS.indexOf_scan ":" s i = i + Z.of_nat (String.length p).
Proof.
  revert i. induction s as [|c s IH]; intros i Hi.
  - left. split; [reflexivity|apply colonFree_nil].
  - destruct (ascii_dec c ":") as [->|Hne].
    + right. exists "", s. repeat split; [apply colonFree_nil|].
      cbn [JS.indexOf_scan]. rewrite prefix_colon_cons.
      destruct (ascii_dec ":" ":"); [simpl; lia|congruence].
    + assert (JS.indexOf_scan ":" (String c s) i = JS.indexOf_scan ":" s (i + 1)) as Hstep.
      { cbn [JS.indexOf_scan]. rewrite prefix_colon_cons.
        destruct (ascii_dec ":" c); [congruence|reflexivity]. }
      rewrite Hstep.
      destruct (IH (i + 1)) as [[E F]|(p & r & E & F & G)]; [lia| |].
      * left. split; [exact E|]. apply colonFree_cons; assumption.
      * right. exists (String c p), r. rewrite append_cons. subst s.
        repeat split; [apply colonFree_cons; assumption|].
        rewrite G. simpl String.length. lia.
Qed.

(** *** [split] undoes [join] *)

Lemma split_scan_nonempty (sep s : string) (skip : nat) (cur : string) :
  JS.split_scan sep s skip cur <> [].
Proof.
  revert skip cur.
  induction s as [|c s IH]; intros skip cur; cbn [JS.split_scan]; [discriminate|].
  destruct skip; [|apply IH]. destruct (String.prefix sep (String c s)); [discriminate|apply IH].
Qed.

Lemma concat_cons (sep x : string) (l : list string) :
  l <> [] -> String.concat sep (x :: l) = x +:+ sep +:+ String.concat sep l.
Proof. destruct l; [congruence|reflexivity]. Qed.

Lemma split_scan_concat (sep s : string) (skip : nat) (cur : string) :
  sep <> "" ->
  String.concat sep (JS.split_scan sep s skip cur) = String.rev cur +:+ JS.drop skip s.
Proof.
  intros Hsep. revert skip cur. induction s as [|c s IH]; intros skip cur.
  - simpl. rewrite drop_nil, append_nil_r. reflexivity.
  - destruct skip as [|k].
    + cbn [JS.split_scan].
      destruct (String.prefix sep (String c s)) eqn:Hp.
      * rewrite concat_cons by apply split_scan_nonempty. rewrite IH.
        apply prefix_append in Hp.
        destruct sep as [|x sep]; [congruence|].
        cbn [String.length JS.drop] in *.
        replace (S (String.length sep) - 1)%nat with (String.length sep) by lia.
        f_equal. symmetry. exact Hp.
      * rewrite IH, rev_cons, append_assoc. reflexivity.
    + cbn [JS.split_scan]. rewrite IH. reflexivity.
Qed.

Lemma split_join (s sep : string) : sep <> "" -> JS.join (JS.split s sep) sep = s.
Proof. intros Hsep. unfold JS.join, JS.split. rewrite split_scan_concat by exact Hsep. reflexivity. Qed.

Lemma EOL_nonempty `{Host} : EOL <> "".
Proof. unfold EOL. destruct platform; discriminate. Qed.

(** *** No piece of a [split] holds the separator *)

Lemma prefix_nil_r (p : string) : p <> "" -> String.prefix p "" = false.
Proof. destruct p; [congruence|reflexivity]. Qed.

Lemma prefix_app (p a b : string) :
  String.prefix p a = true -> String.prefix p (a +:+ b) = true.
Proof.
  revert a. induction p as [|x p IH]; intros a Hp; [apply prefix_nil_l|].
  destruct a as [|c a]; [discriminate Hp|]. rewrite append_cons, prefix_cons in *.
  destruct (ascii_dec x c); [apply IH, Hp|discriminate Hp].
Qed.

Lemma drop_app_le (n : nat) (a b : string) :
  (n <= String.length a)%nat -> JS.drop n (a +:+ b) = JS.drop n a +:+ b.
Proof.
  revert a. induction n as [|n IH]; intros a Hn; [destruct a; reflexivity|].
  destruct a as [|c a]; [cbn in Hn; lia|]. rewrite append_cons. cbn [JS.drop].
  apply IH. cbn in Hn. lia.
Qed.

Lemma drop_length (s : string) : JS.drop (String.length s) s = "".
Proof. rewrite <- (append_nil_r s) at 2. apply drop_append. Qed.

Lemma length_rev (s : string) : String.length (String.rev s) = String.length s.
Proof.
  induction s as [|c s IH]; [reflexivity|].
  rewrite rev_cons, length_append, IH. cbn [String.length]. lia.
Qed.

(** [search] starts at no position of [s]. *)
Lemma indexOf_scan_absent (search s : string) (i : Z) :
  (forall n, (n <= String.length s)%nat -> String.prefix search (JS.drop n s) = false) ->
  JS.indexOf_scan search s i = -1.
Proof.
  revert i. induction s as [|c s IH]; intros i Hfree; cbn [JS.indexOf_scan];
    pose proof (Hfree 0%nat ltac:(cbn; lia)) as Hhere; cbn [JS.drop] in Hhere;
    rewrite Hhere; [reflexivity|].
  apply IH. intros n Hn. apply (Hfree (S n)). cbn. lia.
Qed.

Lemma includes_absent (s search : string) :
  (forall n, (n <= String.length s)%nat -> String.prefix search (JS.drop n s) = false) ->
  JS.includes s search = false.
Proof.
  intros Hfree. unfold JS.includes, JS.indexOf. rewrite Nat.min_0_l. cbn [JS.drop].
  rewrite indexOf_scan_absent by exact Hfree. reflexivity.
Qed.

(** While a piece is read, the separator starts at none of its
    positions in what has been read and what is left. *)
Lemma split_scan_free (sep s : string) (skip : nat) (cur : string) :
  sep <> "" ->
  (skip <> 0%nat -> cur = "") ->
  (forall n, (n < String.length cur)%nat ->
             String.prefix sep (JS.drop n (String.rev cur +:+ s)) = false) ->
  Forall (fun piece => JS.includes piece sep = false) (JS.split_scan sep s skip cur).
Proof.
  intros Hsep. revert skip cur.
  assert (forall cur rest : string,
            (forall n, (n < String.length cur)%nat ->
                       String.prefix sep (JS.drop n (String.rev cur +:+ rest)) = false) ->
            JS.includes (String.rev cur) sep = false) as Hpiece.
  { intros cur rest Hinv. apply includes_absent. intros n Hn. rewrite length_rev in Hn.
    destruct (Nat.eq_dec n (String.length cur)) as [->|Hne].
    - rewrite <- (length_rev cur), drop_length. apply prefix_nil_r, Hsep.
    - destruct (String.prefix sep (JS.drop n (String.rev cur))) eqn:Hp; [|reflexivity].
      apply (prefix_app _ _ rest) in Hp.
      rewrite <- drop_app_le in Hp by (rewrite length_rev; lia).
      rewrite Hinv in Hp by lia. discriminate Hp. }
  induction s as [|c s IH]; intros skip cur Hskip Hinv; cbn [JS.split_scan].
  - constructor; [|constructor]. apply (Hpiece cur ""), Hinv.
  - destruct skip as [|k].
    + destruct (String.prefix sep (String c s)) eqn:Hp.
      * constructor; [apply (Hpiece cur (String c s)), Hinv|].
        apply IH; [reflexivity|]. intros n Hn. cbn in Hn. lia.
      * apply IH; [congruence|]. intros n Hn. cbn [String.length] in Hn.
        rewrite rev_cons, append_assoc. cbn [append].
        destruct (Nat.eq_dec n (String.length cur)) as [->|Hne]; [|apply Hinv; lia].
        rewrite <- (length_rev cur), drop_append. exact Hp.
    + rewrite (Hskip ltac:(discriminate)). apply IH; [reflexivity|].
      intros n Hn. cbn in Hn. lia.
Qed.

Lemma split_free (s sep : string) :
  sep <> "" -> Forall (fun piece => JS.includes piece sep = false) (JS.split s sep).
Proof.
  intros Hsep. apply split_scan_free; [exact Hsep|congruence|].
  intros n Hn. cbn in Hn. lia.
Qed.

(** ** The output parser *)

Lemma indexOf_colon_first (l : string) :
  (JS.indexOf l ":" 0 = -1 /\ colonFree l)
  \/ exists p r : string,
       l = p +:+ ":" +:+ r /\ colonFree p
       /\ JS.indexOf l ":" 0 = Z.of_nat (String.length p).
Proof.
  unfold JS.indexOf. rewrite Nat.min_0_l. cbn [JS.drop]. change (Z.of_nat 0) with 0.
  destruct (indexOf_scan_colon l 0) as [?|(p & r & E & F & G)]; [lia|auto|].
  right. exists p, r. repeat split; [exact E|exact F|]. rewrite G. lia.
Qed.

Lemma indexOf_colon_after (p r : string) :
  (JS.indexOf (p +:+ ":" +:+ r) ":" (S (String.length p)) = -1 /\ colonFree r)
  \/ exists n c : string,
       r = n +:+ ":" +:+ c /\ colonFree n
       /\ JS.indexOf (p +:+ ":" +:+ r) ":" (S (String.length p))
          = Z.of_nat (String.length p + 1 + String.length n).
Proof.
  unfold JS.indexOf.
  assert (String.length (p +:+ ":" +:+ r) = (String.length p + 1 + String.length r)%nat) as Hlen.
  { rewrite !length_append. simpl. lia. }
  rewrite Hlen, Nat.min_l by lia.
  assert (JS.drop (S (String.length p)) (p +:+ ":" +:+ r) = r) as ->.
  { replace (S (String.length p)) with (String.length (p +:+ ":"))
      by (rewrite length_append; simpl; lia).
    rewrite <- append_assoc. apply drop_append. }
  destruct (indexOf_scan_colon r (Z.of_nat (S (String.length p))))
    as [?|(n & c & E & F & G)]; [lia|auto|].
  right. exists n, c. repeat split; [exact E|exact F|]. rewrite G. lia.
Qed.

Lemma substring_first_field (p r : string) :
  JS.substring (p +:+ ":" +:+ r) 0 (String.length p) = p.
Proof.
  unfold JS.substring. rewrite Nat.min_0_l, Nat.max_0_l, Nat.sub_0_r.
  apply substring_append_l.
Qed.

Lemma substring_second_field (p n c : string) :
  JS.substring (p +:+ ":" +:+ n +:+ ":" +:+ c)
    (String.length p + 1) (String.length p + 1 + String.length n) = n.
Proof.
  unfold JS.substring. rewrite Nat.min_l, Nat.max_r by lia.
  replace (String.length p + 1 + String.length n - (String.length p + 1))%nat
    with (String.length n) by lia.
  replace (String.length p + 1)%nat with (String.length (p +:+ ":"))
    by (rewrite length_append; simpl; lia).
  rewrite <- (append_assoc p ":"), substring_append_r. apply substring_append_l.
Qed.

Lemma substring_third_field (p n c : string) :
  JS.substringFrom (p +:+ ":" +:+ n +:+ ":" +:+ c)
    (String.length p + 1 + String.length n + 1) = c.
Proof.
  unfold JS.substringFrom.
  replace (String.length p + 1 + String.length n + 1)%nat
    with (String.length (p +:+ ":" +:+ n +:+ ":"))
    by (rewrite !length_append; simpl; lia).
  replace (p +:+ ":" +:+ n +:+ ":" +:+ c) with ((p +:+ ":" +:+ n +:+ ":") +:+ c)
    by (rewrite !append_assoc; reflexivity).
  apply drop_append.
Qed.

Section Parser.
Context `{Host}.

(** One turn of the loop appends what the specification says of the line. *)
Lemma parseGrepLine_parsed (basePath : string) (results : list GrepMatch) (l : string) :
  exists o : option GrepMatch,
    ParsedLine basePath l o
    /\ parseGrepLine basePath results l = results ++ option_list o.
Proof.
  unfold parseGrepLine.
  destruct (JS.truthy (JS.trim l)) eqn:Htrim; cbn [negb].
  2:{ exists None. split; [|symmetry; apply app_nil_r].
      apply parsed_blank. unfold JS.truthy in Htrim.
      destruct (String.eqb_spec (JS.trim l) ""); [assumption|discriminate]. }
  apply truthy_true in Htrim.
  destruct (indexOf_colon_first l) as [[E F]|(p & r & -> & Fp & E)]; rewrite E.
  { exists None. split; [apply parsed_no_colon, F|symmetry; apply app_nil_r]. }
  destruct (Z.eqb_spec (Z.of_nat (String.length p)) (-1)) as [?|_]; [lia|].
  replace (Z.to_nat (Z.of_nat (String.length p) + 1)) with (S (String.length p)) by lia.
  destruct (indexOf_colon_after p r) as [[E2 F2]|(n & c & -> & Fn & E2)]; rewrite E2.
  { exists None. split; [apply parsed_one_colon; assumption|symmetry; apply app_nil_r]. }
  destruct (Z.eqb_spec (Z.of_nat (String.length p + 1 + String.length n)) (-1)) as [?|_]; [lia|].
  replace (S (String.length p)) with (String.length p + 1)%nat by lia.
  replace (Z.to_nat (Z.of_nat (String.length p + 1 + String.length n)))
    with (String.length p + 1 + String.length n)%nat by lia.
  replace (Z.to_nat (Z.of_nat (String.length p + 1 + String.length n) + 1))
    with (String.length p + 1 + String.length n + 1)%nat by lia.
  rewrite !Nat2Z.id.
  rewrite substring_first_field, substring_second_field, substring_third_field.
  destruct (JS.parseInt n) as [k|] eqn:Hn.
  - eexists (Some _). split; [apply parsed_match; eassumption|reflexivity].
  - exists None. split; [apply parsed_not_a_number; assumption|symmetry; apply app_nil_r].
Qed.

Lemma parseGrepLines_parsed (basePath : string) (lines : list string) (results : list GrepMatch) :
  exists parsed : list (option GrepMatch),
    Forall2 (ParsedLine basePath) lines parsed
    /\ fold_left (parseGrepLine basePath) lines results = results ++ omap id parsed.
Proof.
  revert results. induction lines as [|l lines IH]; intros results.
  - exists []. split; [constructor|symmetry; apply app_nil_r].
  - destruct (parseGrepLine_parsed basePath results l) as (o & Ho & E).
    destruct (IH (results ++ option_list o)) as (parsed & Hp & E').
    exists (o :: parsed). split; [constructor; assumption|].
    cbn [fold_left]. rewrite E, E', <- app_assoc. destruct o; reflexivity.
Qed.

Lemma parseGrepOutput_parsed (output basePath : string) :
  exists parsed : list (option GrepMatch),
    Forall2 (ParsedLine basePath) (JS.split output EOL) parsed
    /\ parseGrepOutput output basePath = omap id parsed.
Proof.
  unfold parseGrepOutput. destruct (JS.truthy output) eqn:Hout; cbn [negb].
  - destruct (parseGrepLines_parsed basePath (JS.split output EOL) []) as (parsed & Hp & E).
    exists parsed. split; [exact Hp|exact E].
  - assert (output = "") as ->.
    { unfold JS.truthy in Hout. destruct (String.eqb_spec output ""); [assumption|discriminate]. }
    exists [None]. split; [|reflexivity].
    cbn. constructor; [|constructor]. apply parsed_blank. reflexivity.
Qed.

(** C6. The raw output is split on the platform line terminator: the
    pieces joined by it give the output back, and no piece holds the
    terminator, so that the pieces are the lines of the output. Every
    line contributes what the specification says: nothing when blank or
    without two colons, and otherwise the text before the first colon as
    the path, made relative to the search root or reduced to its base
    name, and the text after the second colon as the line content; the
    contributions come in the order of the lines. *)
Theorem parseGrepOutput_parses_lines (output basePath : string) :
  JS.join (JS.split output EOL) EOL = output
  /\ Forall (fun piece => JS.includes piece EOL = false) (JS.split output EOL)
  /\ exists parsed : list (option GrepMatch),
       Forall2 (ParsedLine basePath) (JS.split output EOL) parsed
       /\ parseGrepOutput output basePath = omap id parsed.
Proof.
  split; [|split].
  - apply split_join, EOL_nonempty.
  - apply split_free, EOL_nonempty.
  - apply parseGrepOutput_parsed.
Qed.

End Parser.

(** *** The decomposition at the first colon is unique *)

Lemma colonFree_indexOf (s : string) : JS.indexOf s ":" 0 = -1 -> colonFree s.
Proof.
  intros E. destruct (indexOf_colon_first s) as [[_ F]|(p & r & _ & _ & G)]; [exact F|].
  rewrite G in E. lia.
Qed.

Lemma first_colon_unique (p r p' r' : string) :
  colonFree p -> colonFree p' ->
  p +:+ ":" +:+ r = p' +:+ ":" +:+ r' -> p = p' /\ r = r'.
Proof.
  revert p'. induction p as [|x p IH]; intros [|y p'] Hp Hp' E;
    rewrite ?append_cons, ?append_nil_l in E.
  - injection E as E. auto.
  - injection E as Ey E. subst y. exfalso. apply (Hp' "" p'). reflexivity.
  - injection E as Ex E. subst x. exfalso. apply (Hp "" p). reflexivity.
  - injection E as Ex E. subst y.
    destruct (IH p') as [-> ->]; [| |exact E|auto].
    + intros a b Ea. apply (Hp (String x a) b). rewrite append_cons, Ea. reflexivity.
    + intros a b Ea. apply (Hp' (String x a) b). rewrite append_cons, Ea. reflexivity.
Qed.

Section ParserDeterminism.
Context `{Host}.

(** A line with two colons yields a match exactly according to its
    line-number field. *)
Lemma ParsedLine_two_colons (basePath p n c : string) (o : option GrepMatch) :
  colonFree p -> colonFree n ->
  ParsedLine basePath (p +:+ ":" +:+ n +:+ ":" +:+ c) o ->
  match JS.parseInt n with
  | None => o = None
  | Some k =>
      o = None
      \/ o = Some {| filePath := relativeOrBasename basePath p; lineNumber := k; line := c |}
  end.
Proof.
  intros Hp Hn Hl. remember (p +:+ ":" +:+ n +:+ ":" +:+ c) as l eqn:El.
  destruct Hl as [l Hb|l Hf|p' r' Hp' Hr'|p' n' c' Hp' Hn' Hnan|p' n' c' k' Hp' Hn' Hk Hb].
  - destruct (JS.parseInt n); auto.
  - exfalso. exact (Hf _ _ El).
  - apply first_colon_unique in El as [-> El]; try assumption.
    exfalso. exact (Hr' _ _ El).
  - destruct (JS.parseInt n); auto.
  - apply first_colon_unique in El as [-> El]; try assumption.
    apply first_colon_unique in El as [-> ->]; try assumption.
    rewrite Hk. auto.
Qed.

(** The specification of a line determines its contribution. *)
Lemma ParsedLine_functional (basePath l : string) (o1 o2 : option GrepMatch) :
  ParsedLine basePath l o1 -> ParsedLine basePath l o2 -> o1 = o2.
Proof.
  intros H1 H2.
  destruct H1 as [l Hb|l Hf|p r Hp Hr|p n c Hp Hn Hnan|p n c k Hp Hn Hk Hb].
  - inversion H2; subst; try reflexivity. congruence.
  - inversion H2; subst; try reflexivity. exfalso. eapply Hf. reflexivity.
  - remember (p +:+ ":" +:+ r) as l eqn:El.
    destruct H2 as [l Hb'|l Hf'|p' r' Hp' Hr'|p' n' c' Hp' Hn' Hnan'|p' n' c' k' Hp' Hn' Hk' Hb'];
      try reflexivity.
    apply first_colon_unique in El as [-> El]; try assumption.
    exfalso. eapply Hr. symmetry. exact El.
  - apply (ParsedLine_two_colons basePath p n c o2 Hp Hn) in H2. rewrite Hnan in H2. auto.
  - remember (p +:+ ":" +:+ n +:+ ":" +:+ c) as l eqn:El.
    destruct H2 as [l Hb'|l Hf'|p' r' Hp' Hr'|p' n' c' Hp' Hn' Hnan'|p' n' c' k' Hp' Hn' Hk' Hb'].
    + congruence.
    + exfalso. eapply Hf'. exact El.
    + apply first_colon_unique in El as [-> El]; try assumption.
      exfalso. eapply Hr'. exact El.
    + apply first_colon_unique in El as [-> El]; try assumption.
      apply first_colon_unique in El as [-> ->]; try assumption. congruence.
    + apply first_colon_unique in El as [-> El]; try assumption.
      apply first_colon_unique in El as [-> ->]; try assumption. congruence.
Qed.

Lemma ParsedLine_match_inv (basePath l : string) (m : GrepMatch) :
  ParsedLine basePath l (Some m) ->
  exists p n c : string,
    l = p +:+ ":" +:+ n +:+ ":" +:+ c /\ colonFree p /\ colonFree n
    /\ JS.parseInt n = Some (lineNumber m) /\ line m = c
    /\ filePath m = relativeOrBasename basePath p.
Proof.
  intros Hl. inversion Hl; subst. eexists _, _, _. repeat split; eauto.
Qed.

Lemma omap_id_In {A} (parsed : list (option A)) (m : A) :
  In m (omap id parsed) -> In (Some m) parsed.
Proof.
  induction parsed as [|[a|] parsed IH]; cbn; [tauto| |]; intros Hin.
  - destruct Hin as [->|Hin]; auto.
  - auto.
Qed.

Lemma Forall2_In_r {A B} (R : A -> B -> Prop) (l : list A) (k : list B) (b : B) :
  Forall2 R l k -> In b k -> exists a, In a l /\ R a b.
Proof.
  induction 1 as [|a b' l k Hab Hlk IH]; cbn; [tauto|].
  intros [->|Hin]; [eauto|]. destruct (IH Hin) as (a' & ? & ?). eauto.
Qed.

(** C10. Every match that the parser emits comes from a line with two
    colons whose text between them [parseInt] reads as the line number
    of the match; a line with two colons whose field [parseInt] does not
    read adds nothing, silently; so ["file.txt:abc:content"] is
    discarded, and ["file.txt:12abc:content"] is accepted with line
    number 12. *)
Theorem parseGrepOutput_needs_line_number (basePath : string) :
  (forall (output : string) (m : GrepMatch),
      In m (parseGrepOutput output basePath) ->
      exists p n c : string,
        In (p +:+ ":" +:+ n +:+ ":" +:+ c) (JS.split output EOL)
        /\ colonFree p /\ colonFree n
        /\ JS.parseInt n = Some (lineNumber m) /\ line m = c
        /\ filePath m = relativeOrBasename basePath p)
  /\ (forall (results : list GrepMatch) (p n c : string),
        colonFree p -> colonFree n -> JS.parseInt n = None ->
        parseGrepLine basePath results (p +:+ ":" +:+ n +:+ ":" +:+ c) = results)
  /\ parseGrepOutput "file.txt:abc:content" basePath = []
  /\ parseGrepOutput "file.txt:12abc:content" basePath
     = [ {| filePath := relativeOrBasename basePath "file.txt";
            lineNumber := 12; line := "content" |} ].
Proof.
  split; [|split; [|split]].
  - intros output m Hin.
    destruct (parseGrepOutput_parsed output basePath) as (parsed & Hp & E).
    rewrite E in Hin. apply omap_id_In in Hin.
    destruct (Forall2_In_r _ _ _ _ Hp Hin) as (l & Hl & Hm).
    destruct (ParsedLine_match_inv _ _ _ Hm) as (p & n & c & -> & ?). eauto.
  - intros results p n c Hp Hn Hnan.
    destruct (parseGrepLine_parsed basePath results (p +:+ ":" +:+ n +:+ ":" +:+ c))
      as (o & Ho & ->).
    apply ParsedLine_two_colons in Ho; [|assumption..]. rewrite Hnan in Ho. subst o.
    apply app_nil_r.
  - unfold parseGrepOutput, EOL. destruct platform; reflexivity.
  - unfold parseGrepOutput, EOL. destruct platform; reflexivity.
Qed.

End ParserDeterminism.

Lemma parseGrepOutput_needs_line_number_witness :
  let h := Sample.host Sample.todoWorld in
  let m := {| filePath := "file.txt"; lineNumber := 12; line := "content" |} in
  (In m (@parseGrepOutput h "file.txt:12abc:content" "/ws")
   /\ exists p n c : string,
        In (p +:+ ":" +:+ n +:+ ":" +:+ c) (JS.split "file.txt:12abc:content" (@EOL h))
        /\ colonFree p /\ colonFree n
        /\ JS.parseInt n = Some (lineNumber m) /\ line m = c
        /\ filePath m = @relativeOrBasename h "/ws" p)
  /\ (colonFree "file.txt" /\ colonFree "abc" /\ JS.parseInt "abc" = None
      /\ @parseGrepLine h "/ws" [] ("file.txt" +:+ ":" +:+ "abc" +:+ ":" +:+ "content") = []).
Proof.
  intros h m.
  assert (In m (@parseGrepOutput h "file.txt:12abc:content" "/ws")) as Hin
    by (vm_compute; left; reflexivity).
  assert (colonFree "file.txt") as Hp by (apply colonFree_indexOf; reflexivity).
  assert (colonFree "abc") as Hn by (apply colonFree_indexOf; reflexivity).
  split; [split; [exact Hin|]|].
  - exact (proj1 (@parseGrepOutput_needs_line_number h "/ws") _ m Hin).
  - split; [exact Hp|split; [exact Hn|split; [reflexivity|]]].
    exact (proj1 (proj2 (@parseGrepOutput_needs_line_number h "/ws")) [] _ _ "content" Hp Hn eq_refl).
Defined.

(** ** Grouping by file *)

Lemma sort_insert_In {A} (gt : A -> A -> bool) (x y : A) (l : list A) :
  In y (sort_insert gt x l) <-> y = x \/ In y l.
Proof.
  induction l as [|z l IH]; cbn [sort_insert In]; [intuition congruence|].
  destruct (gt z x); cbn [In]; rewrite ?IH; intuition congruence.
Qed.

Lemma sort_from_In {A} (gt : A -> A -> bool) (y : A) (l acc : list A) :
  In y (fold_left (fun acc x => sort_insert gt x acc) l acc) <-> In y acc \/ In y l.
Proof.
  revert acc. induction l as [|x l IH]; intros acc; cbn [fold_left In]; [tauto|].
  rewrite IH, sort_insert_In. intuition congruence.
Qed.

Lemma sort_In {A} (gt : A -> A -> bool) (y : A) (l : list A) :
  In y (sort gt l) <-> In y l.
Proof. unfold sort. rewrite sort_from_In. cbn [In]. tauto. Qed.

Lemma sort_insert_ascending (x : GrepMatch) (l : list GrepMatch) :
  ascending l -> ascending (sort_insert byLineNumber x l).
Proof.
  unfold ascending. induction l as [|y l IH]; intros Hl; cbn [sort_insert].
  - repeat constructor.
  - unfold byLineNumber at 1. destruct (Z.gtb_spec (lineNumber y - lineNumber x) 0) as [Hgt|Hle].
    + constructor; [exact Hl|]. constructor. lia.
    + apply Sorted_inv in Hl as [Hl Hhd]. constructor; [apply IH, Hl|].
      destruct l as [|z l]; cbn [sort_insert].
      * constructor. lia.
      * destruct (byLineNumber z x); constructor; [lia|].
        apply HdRel_inv in Hhd. exact Hhd.
Qed.

Lemma sort_ascending (l : list GrepMatch) : ascending (sort byLineNumber l).
Proof.
  unfold sort. assert (ascending []) as Hacc by constructor.
  revert Hacc. generalize (@nil GrepMatch) as acc.
  induction l as [|x l IH]; intros acc Hacc; cbn [fold_left]; [exact Hacc|].
  apply IH, sort_insert_ascending, Hacc.
Qed.

Lemma ascending_line_numbers (g : list GrepMatch) :
  ascending g -> Sorted Z.le (map lineNumber g).
Proof.
  unfold ascending. induction 1 as [|a g Hg IH Hhd]; cbn [map]; constructor; [exact IH|].
  destruct Hhd; cbn [map]; constructor. assumption.
Qed.

Lemma JsObject_set_In {V} (o : JsObject.t V) (k k' : string) (v v' : V) :
  In (k', v') (JsObject.set o k v) -> (k' = k /\ v' = v) \/ In (k', v') o.
Proof.
  induction o as [|[k0 v0] o IH]; cbn [JsObject.set In].
  - intros [E|[]]. injection E as <- <-. auto.
  - destruct (String.eqb_spec k0 k) as [->|Hne]; cbn [In].
    + intros [E|Hin]; [injection E as <- <-; auto|auto].
    + intros [E|Hin]; [auto|]. destruct (IH Hin); auto.
Qed.

Lemma JsObject_own_In {V} (o : JsObject.t V) (k : string) (v : V) :
  JsObject.own o k = Some v -> In (k, v) o.
Proof.
  induction o as [|[k0 v0] o IH]; cbn [JsObject.own In]; [discriminate|].
  destruct (String.eqb_spec k0 k) as [->|Hne]; [intros [= ->]; auto|auto].
Qed.

Lemma JsObject_forIn_In {V} (o : JsObject.t V) (e : string * V) :
  In e (JsObject.forIn o) <-> In e o.
Proof.
  unfold JsObject.forIn. rewrite in_app_iff, sort_In, <- !list_elem_of_In, !list_elem_of_filter.
  destruct (JsObject.isArrayIndex (fst e)); intuition congruence.
Qed.

Lemma JsObject_own_set {V} (o : JsObject.t V) (k k' : string) (v : V) :
  JsObject.own (JsObject.set o k v) k' = if String.eqb k k' then Some v else JsObject.own o k'.
Proof.
  induction o as [|[k0 v0] o IH]; cbn [JsObject.set JsObject.own]; [reflexivity|].
  destruct (String.eqb_spec k0 k) as [->|Hne]; cbn [JsObject.own].
  - destruct (String.eqb k k'); reflexivity.
  - rewrite IH. destruct (String.eqb_spec k0 k') as [->|?]; [|reflexivity].
    destruct (String.eqb_spec k k'); congruence.
Qed.

Lemma groupStep_grouped (source : list GrepMatch) (acc acc' : JsObject.t (list GrepMatch))
    (m : GrepMatch) :
  In m source -> grouped source acc -> groupStep acc m = inr acc' -> grouped source acc'.
Proof.
  intros Hm Hacc Hstep k g Hin. unfold groupStep, JsObject.get in Hstep.
  destruct (JsObject.own acc (filePath m)) as [arr|] eqn:Hown.
  - injection Hstep as <-. apply JsObject_set_In in Hin as [[-> ->]|Hin]; [|auto].
    split; [apply sort_ascending|]. intros m' Hm'. apply sort_In, in_app_iff in Hm'.
    destruct Hm' as [Hm'|[<-|[]]]; [|auto].
    apply JsObject_own_In in Hown. exact (proj2 (Hacc _ _ Hown) _ Hm').
  - destruct (existsb _ _); [discriminate|]. injection Hstep as <-.
    apply JsObject_set_In in Hin as [[-> ->]|Hin]; [|auto].
    split; [apply sort_ascending|]. intros m' Hm'. apply sort_In in Hm'.
    destruct Hm' as [<-|[]]. auto.
Qed.

Lemma groupStep_covers (done : list GrepMatch) (acc acc' : JsObject.t (list GrepMatch))
    (m : GrepMatch) :
  covers done acc -> groupStep acc m = inr acc' -> covers (done ++ [m]) acc'.
Proof.
  intros Hacc Hstep m' Hm'. unfold groupStep, JsObject.get in Hstep.
  assert (exists arr, acc' = JsObject.set acc (filePath m) (sort byLineNumber (arr ++ [m]))
                      /\ forall x, JsObject.own acc (filePath m) = Some x -> x = arr)
    as (arr & -> & Harr).
  { destruct (JsObject.own acc (filePath m)) as [arr|].
    - injection Hstep as <-. exists arr. split; [reflexivity|congruence].
    - destruct (existsb _ _); [discriminate|]. injection Hstep as <-.
      exists []. split; [reflexivity|discriminate]. }
  rewrite JsObject_own_set. apply in_app_iff in Hm' as [Hm'|[<-|[]]].
  - destruct (Hacc _ Hm') as (g & Hg & Hin).
    destruct (String.eqb_spec (filePath m) (filePath m')) as [E|_]; [|eauto].
    eexists. split; [reflexivity|]. apply sort_In, in_app_iff. left.
    rewrite <- E in Hg. rewrite <- (Harr _ Hg). exact Hin.
  - rewrite String.eqb_refl. eexists. split; [reflexivity|].
    apply sort_In, in_app_iff. right. left. reflexivity.
Qed.

Lemma groupMatches_grouped (source rest done : list GrepMatch)
    (acc o : JsObject.t (list GrepMatch)) :
  (forall m, In m rest -> In m source) ->
  grouped source acc -> covers done acc ->
  groupMatches rest acc = inr o -> grouped source o /\ covers (done ++ rest) o.
Proof.
  revert done acc. induction rest as [|m rest IH]; intros done acc Hsrc Hacc Hcov;
    cbn [groupMatches].
  - intros [= <-]. rewrite app_nil_r. auto.
  - destruct (groupStep acc m) as [e|acc'] eqn:Hstep; [discriminate|]. intros Ho.
    replace (done ++ m :: rest) with ((done ++ [m]) ++ rest) by (rewrite <- app_assoc; reflexivity).
    apply (IH (done ++ [m]) acc'); [intros; apply Hsrc; right; assumption| | |exact Ho].
    + eapply groupStep_grouped; [apply Hsrc; left; reflexivity|exact Hacc|exact Hstep].
    + eapply groupStep_covers; eassumption.
Qed.

(** Grouping fails only on a file named like a property of
    [Object.prototype]. *)
Lemma groupMatches_succeeds (allMatches : list GrepMatch) (acc : JsObject.t (list GrepMatch)) :
  Forall (fun m => existsb (String.eqb (filePath m)) JsObject.objectPrototypeKeys = false)
         allMatches ->
  exists o, groupMatches allMatches acc = inr o.
Proof.
  intros Hall. revert acc. induction Hall as [|m rest Hm _ IH]; intros acc; cbn [groupMatches].
  - eauto.
  - unfold groupStep, JsObject.get. rewrite Hm. destruct (JsObject.own acc (filePath m)); apply IH.
Qed.

(** The groups of a grouping that went through: each holds matches of
    its one file, in the order of their line numbers, and every match is
    in the group of its file. *)
Lemma groups_in_line_order (allMatches : list GrepMatch)
    (matchesByFile : JsObject.t (list GrepMatch)) :
  groupMatches allMatches [] = inr matchesByFile ->
  (forall (fileKey : string) (group : list GrepMatch),
      In (fileKey, group) (JsObject.forIn matchesByFile) ->
      Sorted Z.le (map lineNumber group)
      /\ forall m, In m group -> filePath m = fileKey /\ In m allMatches)
  /\ (forall m, In m allMatches ->
        exists group, In (filePath m, group) (JsObject.forIn matchesByFile) /\ In m group).
Proof.
  intros Hgroup.
  destruct (groupMatches_grouped allMatches allMatches [] [] matchesByFile) as [Hg Hc];
    [auto|intros k g []|intros m []|exact Hgroup|].
  split.
  - intros fileKey group Hin. apply (proj1 (JsObject_forIn_In _ _)) in Hin.
    destruct (Hg _ _ Hin) as [Hasc Hm]. split; [apply ascending_line_numbers, Hasc|exact Hm].
  - intros m Hm. destruct (Hc m Hm) as (g & Hown & Hin). exists g. split; [|exact Hin].
    apply (proj2 (JsObject_forIn_In _ _)), JsObject_own_In, Hown.
Qed.

Example forIn_index_keys_first :
  map fst (JsObject.forIn [("b", 1); ("10", 2); ("a", 3); ("9", 4); ("007", 5)])
  = ["9"; "10"; "b"; "a"; "007"].
Proof. vm_compute. reflexivity. Qed.

Example groupMatches_prototype_key :
  groupMatches [ {| filePath := "constructor"; lineNumber := 1; line := "x" |} ] []
  = inl (mkTypeError "acc[fileKey].push is not a function").
Proof. reflexivity. Qed.

(** ** The strategies *)

(** Unfolding of the monad. *)
Ltac run :=
  cbv beta delta [bind ret throw try_catch emit modify get_state set_records set_history tick]
    iota.

Section Strategies.
Context `{Host}.

Lemma isCommandAvailable_result (command : string) (st : State) :
  fst (isCommandAvailable command st) = inr (commandResolves command).
Proof.
  unfold isCommandAvailable, commandResolves. run.
  destruct (spawn _ _ cwd); reflexivity.
Qed.

(** Strategy 1 by exit code. *)
Lemma gitGrepStrategy_exit_code (options : SearchOptions) (st : State)
    (code : option Z) (out : string) (err : list string) :
  isGitRepository (opt_path options) = true ->
  commandResolves "git" = true ->
  spawn "git" (gitArgs options) (opt_path options) = ProcClose code out err ->
  fst (gitGrepStrategy options st)
  = inr (if bool_decide (code = Some 0) then Some (parseGrepOutput out (opt_path options))
         else if bool_decide (code = Some 1) then Some []
         else None).
Proof.
  intros Hgit Hres Hspawn. unfold gitGrepStrategy. rewrite Hgit.
  unfold bind at 1. unfold emit at 1, modify at 1. cbv beta iota.
  unfold bind at 1.
  pose proof (isCommandAvailable_result "git") as Hav.
  match goal with |- context [isCommandAvailable "git" ?s] =>
    specialize (Hav s); destruct (isCommandAvailable "git" s) as [r st1] end.
  cbn [fst] in Hav. subst r. rewrite Hres.
  unfold gitGrep. run. rewrite Hspawn.
  destruct (bool_decide (code = Some 0)); [reflexivity|].
  destruct (bool_decide (code = Some 1)); reflexivity.
Qed.

(** Strategy 2 by exit code and diagnostic output. *)
Lemma systemGrepStrategy_exit_code (options : SearchOptions) (st : State)
    (code : option Z) (out : string) (chunks : list string) :
  commandResolves "grep" = true ->
  spawn "grep" (grepArgs options) (opt_path options) = ProcClose code out chunks ->
  fst (systemGrepStrategy options st)
  = inr (if bool_decide (code = Some 0) then Some (parseGrepOutput out (opt_path options))
         else if bool_decide (code = Some 1) then Some []
         else if JS.truthy (diagnosticOutput chunks) then None
         else Some []).
Proof.
  intros Hres Hspawn. unfold systemGrepStrategy.
  unfold bind at 1.
  pose proof (isCommandAvailable_result "grep" st) as Hav.
  destruct (isCommandAvailable "grep" st) as [r st1].
  cbn [fst] in Hav. subst r. rewrite Hres.
  unfold systemGrep, diagnosticOutput. run. rewrite Hspawn.
  destruct (bool_decide (code = Some 0)); [reflexivity|].
  destruct (bool_decide (code = Some 1)); [reflexivity|].
  destruct (JS.truthy _); reflexivity.
Qed.

(** Neither subprocess strategy lets an error out. *)
Lemma gitGrepStrategy_total (options : SearchOptions) (st : State) :
  exists r st', gitGrepStrategy options st = (inr r, st').
Proof.
  unfold gitGrepStrategy, isCommandAvailable, gitGrep. run.
  destruct (isGitRepository _); [|eauto].
  destruct (spawn _ _ cwd) as [?|code ? ?]; [eauto|].
  destruct (bool_decide (code = Some 0)); [|eauto].
  destruct (spawn "git" _ _) as [?|code' ? ?]; [eauto|].
  destruct (bool_decide (code' = Some 0)); [eauto|].
  destruct (bool_decide (code' = Some 1)); eauto.
Qed.

Lemma systemGrepStrategy_total (options : SearchOptions) (st : State) :
  exists r st', systemGrepStrategy options st = (inr r, st').
Proof.
  unfold systemGrepStrategy, isCommandAvailable, systemGrep. run.
  destruct (spawn _ _ cwd) as [?|code ? ?]; [eauto|].
  destruct (bool_decide (code = Some 0)); [|eauto].
  destruct (spawn "grep" _ _) as [?|code' ? ?]; [eauto|].
  destruct (bool_decide (code' = Some 0)); [eauto|].
  destruct (bool_decide (code' = Some 1)); [eauto|].
  destruct (JS.truthy _); eauto.
Qed.

(** C2. With [git] applicable, exit code 0 of [git grep] has its output
    parsed, 1 gives no match, any other code makes strategy 1 fail; with
    [grep] resolvable, exit code 0 has its output parsed, 1 gives no
    match, any other code makes strategy 2 fail when diagnostic output
    that is not suppressed (and not blank) came with it, and gives no
    match otherwise. A strategy that fails raises no error: the search
    goes on with the next strategy. *)
Theorem subprocess_exit_codes (options : SearchOptions) (st : State) :
  (isGitRepository (opt_path options) = true ->
   commandResolves "git" = true ->
   forall (code : option Z) (out : string) (err : list string),
     spawn "git" (gitArgs options) (opt_path options) = ProcClose code out err ->
     fst (gitGrepStrategy options st)
     = inr (if bool_decide (code = Some 0) then Some (parseGrepOutput out (opt_path options))
            else if bool_decide (code = Some 1) then Some []
            else None))
  /\ (commandResolves "grep" = true ->
      forall (code : option Z) (out : string) (chunks : list string),
        spawn "grep" (grepArgs options) (opt_path options) = ProcClose code out chunks ->
        fst (systemGrepStrategy options st)
        = inr (if bool_decide (code = Some 0) then Some (parseGrepOutput out (opt_path options))
               else if bool_decide (code = Some 1) then Some []
               else if JS.truthy (diagnosticOutput chunks) then None
               else Some []))
  /\ (forall (matches : list GrepMatch) (st' : State),
        gitGrepStrategy options st = (inr (Some matches), st') ->
        performGrepSearch options st = (inr matches, st'))
  /\ (forall st' : State,
        gitGrepStrategy options st = (inr None, st') ->
        performGrepSearch options st = afterGitGrep options st')
  /\ (forall st' : State,
        systemGrepStrategy options st = (inr None, st') ->
        afterGitGrep options st = javascriptFallbackStrategy options st').
Proof.
  split; [|split; [|split; [|split]]].
  - intros Hgit Hres code out err Hspawn. eapply gitGrepStrategy_exit_code; eassumption.
  - intros Hres code out chunks Hspawn. eapply systemGrepStrategy_exit_code; eassumption.
  - intros matches st' Hrun. unfold performGrepSearch. run. rewrite Hrun. reflexivity.
  - intros st' Hrun. unfold performGrepSearch, afterGitGrep. run. rewrite Hrun.
    destruct (systemGrepStrategy options st') as [[e|[matches|]] st2]; try reflexivity.
    destruct (javascriptFallbackStrategy options st2) as [[e|matches] st3]; reflexivity.
  - intros st' Hrun. unfold afterGitGrep. rewrite Hrun. reflexivity.
Qed.

End Strategies.

Example brokenTools_falls_back :
  let h := Sample.host Sample.brokenTools in
  fst (@gitGrepStrategy h Sample.todoOptions (Sample.initial false)) = inr None
  /\ fst (@systemGrepStrategy h Sample.todoOptions (Sample.initial false)) = inr None
  /\ fst (@performGrepSearch h Sample.todoOptions (Sample.initial false))
     = inr [ {| filePath := "a.txt"; lineNumber := 3; line := "// TODO fix" |} ]
  /\ trace (snd (@performGrepSearch h Sample.todoOptions (Sample.initial false)))
     = [ EvIsGitRepository "/ws";
         EvSpawn "command" ["-v"; "git"] "/ws";
         EvSpawn "git" (gitArgs Sample.todoOptions) "/ws";
         EvSpawn "command" ["-v"; "grep"] "/ws";
         EvSpawn "grep" (grepArgs Sample.todoOptions) "/ws";
         EvGlobStream "**/*" "/ws";
         EvReadFile "/ws/a.txt" ].
Proof. vm_compute. repeat split. Qed.

Lemma subprocess_exit_codes_witness :
  let h := Sample.host Sample.brokenTools in
  let st := Sample.initial false in
  (@isGitRepository h "/ws" = true /\ @commandResolves h "git" = true
   /\ @spawn h "git" (gitArgs Sample.todoOptions) "/ws"
      = ProcClose (Some 128) "" ["fatal: not a git repository" +:+ JS.LF]
   /\ fst (@gitGrepStrategy h Sample.todoOptions st) = inr None)
  /\ (@commandResolves h "grep" = true
      /\ @spawn h "grep" (grepArgs Sample.todoOptions) "/ws"
         = ProcClose (Some 2) ("./a.txt:3:// TODO fix" +:+ JS.LF)
             ["grep: ./secret: Permission denied" +:+ JS.LF;
              "grep: Unmatched ( or \\(" +:+ JS.LF]
      /\ fst (@systemGrepStrategy h Sample.todoOptions st) = inr None)
  /\ (@gitGrepStrategy h Sample.todoOptions st
      = (inr None, snd (@gitGrepStrategy h Sample.todoOptions st))
      /\ @performGrepSearch h Sample.todoOptions st
         = @afterGitGrep h Sample.todoOptions (snd (@gitGrepStrategy h Sample.todoOptions st)))
  /\ (@systemGrepStrategy h Sample.todoOptions st
      = (inr None, snd (@systemGrepStrategy h Sample.todoOptions st))
      /\ @afterGitGrep h Sample.todoOptions st
         = @javascriptFallbackStrategy h Sample.todoOptions
             (snd (@systemGrepStrategy h Sample.todoOptions st))).
Proof.
  intros h st.
  destruct (@subprocess_exit_codes h Sample.todoOptions st) as (Hgit & Hgrep & _ & Hnext & Hlast).
  refine (conj (conj eq_refl (conj eq_refl (conj eq_refl _)))
            (conj (conj eq_refl (conj eq_refl _))
               (conj (conj eq_refl _) (conj eq_refl _)))).
  - exact (Hgit eq_refl eq_refl _ _ _ eq_refl).
  - exact (Hgrep eq_refl _ _ _ eq_refl).
  - exact (Hnext _ eq_refl).
  - exact (Hlast _ eq_refl).
Defined.

(** ** Effects *)


Lemma Agree_ret {A} (a : A) : Agree (ret a) (ret a).
Proof. intros st1 st2. reflexivity. Qed.

Lemma Agree_throw {A} (e : JsError) : Agree (@throw A e) (throw e).
Proof. intros st1 st2. reflexivity. Qed.

Lemma Agree_bind {A B} (m1 m2 : M A) (k1 k2 : A -> M B) :
  Agree m1 m2 -> (forall a, Agree (k1 a) (k2 a)) -> Agree (bind m1 k1) (bind m2 k2).
Proof.
  intros Hm Hk st1 st2. unfold bind. specialize (Hm st1 st2).
  destruct (m1 st1) as [[e1|a1] st1'], (m2 st2) as [[e2|a2] st2']; cbn [fst] in *;
    try congruence.
  injection Hm as <-. apply Hk.
Qed.

Lemma Agree_try_catch {A} (m1 m2 : M A) (h1 h2 : JsError -> M A) :
  Agree m1 m2 -> (forall e, Agree (h1 e) (h2 e)) -> Agree (try_catch m1 h1) (try_catch m2 h2).
Proof.
  intros Hm Hh st1 st2. unfold try_catch. specialize (Hm st1 st2).
  destruct (m1 st1) as [[e1|a1] st1'], (m2 st2) as [[e2|a2] st2']; cbn [fst] in *;
    try congruence.
  injection Hm as <-. apply Hh.
Qed.

Lemma Silent_Agree (m1 m2 : M unit) : Silent m1 -> Silent m2 -> Agree m1 m2.
Proof. intros H1 H2 st1 st2. rewrite H1, H2. reflexivity. Qed.

Lemma Agree_after_NoThrow {A B} (m1 m2 : M A) (k1 k2 : M B) :
  NoThrow m1 -> NoThrow m2 -> Agree k1 k2 ->
  Agree (bind m1 (fun _ => k1)) (bind m2 (fun _ => k2)).
Proof.
  intros H1 H2 Hk st1 st2. unfold bind.
  destruct (H1 st1) as [a1 E1], (H2 st2) as [a2 E2].
  destruct (m1 st1) as [[?|?] st1'], (m2 st2) as [[?|?] st2']; cbn [fst] in *;
    try discriminate.
  apply Hk.
Qed.

Lemma Silent_ret : Silent (ret tt).
Proof. intros st. reflexivity. Qed.

Lemma Silent_modify (f : State -> State) : Silent (modify f).
Proof. intros st. reflexivity. Qed.

Lemma Silent_emit (e : Event) : Silent (emit e).
Proof. intros st. reflexivity. Qed.

Lemma Silent_update (r : nat) (f : SearchAnalytics -> SearchAnalytics) : Silent (update r f).
Proof. intros st. reflexivity. Qed.

Lemma Silent_bind {A} (m : M A) (k : A -> M unit) :
  NoThrow m -> (forall a, Silent (k a)) -> Silent (bind m k).
Proof.
  intros Hm Hk st. unfold bind. destruct (Hm st) as [a E].
  destruct (m st) as [[?|?] st']; cbn [fst] in E; [discriminate|]. apply Hk.
Qed.

Lemma Silent_NoThrow (m : M unit) : Silent m -> NoThrow m.
Proof. intros Hm st. exists tt. apply Hm. Qed.

Lemma Silent_seq (m k : M unit) : Silent m -> Silent k -> Silent (bind m (fun _ => k)).
Proof. intros Hm Hk. apply Silent_bind; [apply Silent_NoThrow, Hm|intros _; exact Hk]. Qed.

Lemma Silent_for_each {A} (l : list A) (body : A -> M unit) :
  (forall x, In x l -> Silent (body x)) -> Silent (for_each l body).
Proof.
  induction l as [|x l IH]; intros Hbody; cbn [for_each]; [apply Silent_ret|].
  apply Silent_seq; [apply Hbody; left; reflexivity|].
  apply IH. intros y Hy. apply Hbody. right. exact Hy.
Qed.

Lemma NoThrow_ret {A} (a : A) : NoThrow (ret a).
Proof. intros st. exists a. reflexivity. Qed.

Lemma NoThrow_bind {A B} (m : M A) (k : A -> M B) :
  NoThrow m -> (forall a, NoThrow (k a)) -> NoThrow (bind m k).
Proof.
  intros Hm Hk st. unfold bind. destruct (Hm st) as [a E].
  destruct (m st) as [[?|?] st']; cbn [fst] in E; [discriminate|]. apply Hk.
Qed.

(** *** Triples *)

Lemma Triple_ret {A} (P : State -> Prop) (a : A) (Q : A -> State -> Prop)
    (E : JsError -> State -> Prop) :
  (forall st, P st -> Q a st) -> Triple P (ret a) Q E.
Proof. intros H st Hst. apply H, Hst. Qed.

Lemma Triple_throw {A} (P : State -> Prop) (e : JsError) (Q : A -> State -> Prop)
    (E : JsError -> State -> Prop) :
  (forall st, P st -> E e st) -> Triple P (throw e) Q E.
Proof. intros H st Hst. apply H, Hst. Qed.

Lemma Triple_bind {A B} (P : State -> Prop) (m : M A) (k : A -> M B)
    (Q : A -> State -> Prop) (R : B -> State -> Prop) (E : JsError -> State -> Prop) :
  Triple P m Q E -> (forall a, Triple (Q a) (k a) R E) -> Triple P (bind m k) R E.
Proof.
  intros Hm Hk st Hst. unfold bind. specialize (Hm st Hst).
  destruct (m st) as [[e|a] st']; [exact Hm|]. apply Hk, Hm.
Qed.

Lemma Triple_try_catch {A} (P : State -> Prop) (m : M A) (h : JsError -> M A)
    (Q : A -> State -> Prop) (E1 E2 : JsError -> State -> Prop) :
  Triple P m Q E1 -> (forall e, Triple (E1 e) (h e) Q E2) -> Triple P (try_catch m h) Q E2.
Proof.
  intros Hm Hh st Hst. unfold try_catch. specialize (Hm st Hst).
  destruct (m st) as [[e|a] st']; [|exact Hm]. apply Hh, Hm.
Qed.

Lemma Triple_weaken {A} (P P' : State -> Prop) (m : M A) (Q Q' : A -> State -> Prop)
    (E E' : JsError -> State -> Prop) :
  Triple P m Q E ->
  (forall st, P' st -> P st) -> (forall a st, Q a st -> Q' a st) ->
  (forall e st, E e st -> E' e st) ->
  Triple P' m Q' E'.
Proof.
  intros Hm HP HQ HE st Hst. specialize (Hm st (HP st Hst)). revert Hm.
  destruct (m st) as [[e|a] st']; auto.
Qed.

(** *** Footprints *)

Lemma Effect_ret {A} (R : State -> State -> Prop) `{!Reflexive R} (a : A) : Effect R (ret a).
Proof. intros st. reflexivity. Qed.

Lemma Effect_throw {A} (R : State -> State -> Prop) `{!Reflexive R} (e : JsError) :
  Effect R (@throw A e).
Proof. intros st. reflexivity. Qed.

Lemma Effect_bind {A B} (R : State -> State -> Prop) `{!Transitive R}
    (m : M A) (k : A -> M B) :
  Effect R m -> (forall a, Effect R (k a)) -> Effect R (bind m k).
Proof.
  intros Hm Hk st. unfold bind. specialize (Hm st).
  destruct (m st) as [[e|a] st']; cbn [snd] in *; [exact Hm|].
  etransitivity; [exact Hm|apply Hk].
Qed.

Lemma Effect_try_catch {A} (R : State -> State -> Prop) `{!Transitive R}
    (m : M A) (h : JsError -> M A) :
  Effect R m -> (forall e, Effect R (h e)) -> Effect R (try_catch m h).
Proof.
  intros Hm Hh st. unfold try_catch. specialize (Hm st).
  destruct (m st) as [[e|a] st']; cbn [snd] in *; [|exact Hm].
  etransitivity; [exact Hm|apply Hh].
Qed.

Lemma Effect_for_each {A} (R : State -> State -> Prop) `{!Reflexive R} `{!Transitive R}
    (l : list A) (body : A -> M unit) :
  (forall x, Effect R (body x)) -> Effect R (for_each l body).
Proof.
  intros Hbody. induction l as [|x l IH]; cbn [for_each].
  - apply Effect_ret; assumption.
  - apply Effect_bind; [assumption|apply Hbody|intros _; exact IH].
Qed.

Lemma Effect_weaken {A} (R R' : State -> State -> Prop) (m : M A) :
  (forall st st', R st st' -> R' st st') -> Effect R m -> Effect R' m.
Proof. intros HR Hm st. apply HR, Hm. Qed.

Lemma Effect_Triple {A} (R : State -> State -> Prop) (P P' : State -> Prop) (m : M A) :
  Effect R m -> (forall st st', P st -> R st st' -> P' st') ->
  Triple P m (fun _ => P') (fun _ => P').
Proof.
  intros Hm HP st Hst. specialize (Hm st).
  destruct (m st) as [[e|a] st']; cbn [snd] in Hm; eapply HP; eassumption.
Qed.

#[global] Instance onlyTrace_refl : Reflexive onlyTrace.
Proof. intros st. repeat split. Qed.

#[global] Instance onlyTrace_trans : Transitive onlyTrace.
Proof. intros a b c (?&?&?&?) (?&?&?&?). repeat split; congruence. Qed.

#[global] Instance observes_refl (active : bool) : Reflexive (observes active).
Proof. intros st. repeat split. Qed.

#[global] Instance observes_trans (active : bool) : Transitive (observes active).
Proof.
  intros a b c (?&?&?&Hab) (?&?&?&Hbc). repeat split; try congruence.
  intros Hact. rewrite (Hbc Hact). apply Hab, Hact.
Qed.

#[global] Instance quiet_refl : Reflexive quiet.
Proof. intros st. reflexivity. Qed.

#[global] Instance quiet_trans : Transitive quiet.
Proof. intros a b c Hab Hbc. unfold quiet in *. congruence. Qed.

#[global] Instance statOnly_refl : Reflexive statOnly.
Proof. intros st. exists []. split; [symmetry; apply app_nil_r|constructor]. Qed.

#[global] Instance statOnly_trans : Transitive statOnly.
Proof.
  intros a b c (e1 & E1 & F1) (e2 & E2 & F2). exists (e1 ++ e2). split.
  - rewrite E2, E1, <- app_assoc. reflexivity.
  - apply Forall_app; split; assumption.
Qed.

Lemma onlyTrace_observes (active : bool) (st st' : State) :
  onlyTrace st st' -> observes active st st'.
Proof. intros (Hr & ? & ? & ?). repeat split; try congruence. Qed.

Lemma quiet_statOnly (st st' : State) : quiet st st' -> statOnly st st'.
Proof. intros Hq. exists []. split; [rewrite app_nil_r; exact Hq|constructor]. Qed.

Lemma Effect_emit_onlyTrace (e : Event) : Effect onlyTrace (emit e).
Proof. intros st. repeat split. Qed.

(** ** The session *)

Lemma update_run (r : nat) (f : SearchAnalytics -> SearchAnalytics) (st : State) :
  update r f st
  = (inr tt,
     {| records := alter f r (records st); searchHistory := searchHistory st;
        analyticsEnabled := analyticsEnabled st; trace := trace st; ticks := ticks st |}).
Proof. reflexivity. Qed.

Lemma Effect_update_observes (r : nat) (f : SearchAnalytics -> SearchAnalytics) :
  Effect (observes true) (update r f).
Proof.
  intros st. rewrite update_run. cbn [snd]. repeat split; cbn.
  - apply length_alter.
  - discriminate.
Qed.

Lemma Effect_update_quiet (r : nat) (f : SearchAnalytics -> SearchAnalytics) :
  Effect quiet (update r f).
Proof. intros st. reflexivity. Qed.

(** Every method that only accumulates is silent, leaves an inactive
    session's state as it is, and touches no file and no process. *)
Ltac session_method s :=
  unfold setPattern, setFilesScanned, addMatch, addRankingFactor, setToolDecisionReason, isActive;
  destruct (analytics s) as [r|];
  [ repeat first [ apply Effect_bind; [typeclasses eauto| |intros ?]
                 | apply Effect_update_observes
                 | apply Effect_update_quiet
                 | apply Silent_seq
                 | apply Silent_update ]
  | first [ apply Effect_ret; typeclasses eauto | apply Silent_ret ] ].

Section SessionMethods.
Context `{Host}.
Variable s : SearchSession.

Lemma Silent_setPattern (p : string) : Silent (setPattern s p).
Proof. session_method s. Qed.

Lemma Silent_setFilesScanned (n : Z) : Silent (setFilesScanned s n).
Proof. session_method s. Qed.

Lemma Silent_addMatch (m : MatchAnalytics) : Silent (addMatch s m).
Proof. session_method s. Qed.

Lemma Silent_addRankingFactor (f : RankingFactor) : Silent (addRankingFactor s f).
Proof. session_method s. Qed.

Lemma observes_setPattern (p : string) : Effect (observes (isActive s)) (setPattern s p).
Proof. session_method s. Qed.

Lemma observes_setFilesScanned (n : Z) : Effect (observes (isActive s)) (setFilesScanned s n).
Proof. session_method s. Qed.

Lemma observes_addMatch (m : MatchAnalytics) : Effect (observes (isActive s)) (addMatch s m).
Proof. session_method s. Qed.

Lemma observes_addRankingFactor (f : RankingFactor) :
  Effect (observes (isActive s)) (addRankingFactor s f).
Proof. session_method s. Qed.

Lemma quiet_setPattern (p : string) : Effect quiet (setPattern s p).
Proof. session_method s. Qed.

End SessionMethods.

Lemma logSearchResults_run (r : nat) (st : State) :
  exists f : list MatchAnalytics -> list MatchAnalytics,
    logSearchResults r st = update r (with_matchDetails f) st.
Proof.
  unfold logSearchResults, bind, get_state.
  destruct (records st !! r) as [a|] eqn:Hr.
  - destruct (0 <? _); [eauto|].
    exists (fun ms => ms). rewrite update_run. unfold ret. do 2 f_equal.
    destruct st as [rs h en tr tk]; cbn in *. f_equal. symmetry.
    apply list_alter_id. intros [? ? ? ? ? ? ? ? ? ? ? ?]. reflexivity.
  - exists (fun ms => ms). rewrite update_run. unfold ret. do 2 f_equal.
    destruct st as [rs h en tr tk]; cbn in *. f_equal. symmetry.
    apply list_alter_id. intros [? ? ? ? ? ? ? ? ? ? ? ?]. reflexivity.
Qed.

Section Complete.
Context `{Host}.

(** What one call of [complete()] on an active session does. *)
Lemma complete_active_run (s : SearchSession) (r : nat) (st : State) :
  analytics s = Some r -> onComplete s = Some recordInHistory ->
  exists f : list MatchAnalytics -> list MatchAnalytics,
    complete s st
    = (inr (Some r),
       {| records :=
            alter (with_matchDetails f)
              r (alter (with_executionTimeMs (performance_now (ticks st) - startTime s)%Q)
                   r (records st));
          searchHistory := searchHistory st ++ [r];
          analyticsEnabled := analyticsEnabled st;
          trace := trace st;
          ticks := S (ticks st) |}).
Proof.
  intros Ha Hcb. unfold complete. rewrite Ha, Hcb.
  unfold recordInHistory, bind at 1 2 3 4, tick, set_history, modify.
  rewrite update_run. cbv beta iota.
  match goal with |- context [logSearchResults r ?st1] =>
    destruct (logSearchResults_run r st1) as [f ->] end.
  exists f. rewrite update_run. reflexivity.
Qed.

Lemma complete_inactive_run (s : SearchSession) (st : State) :
  analytics s = None -> complete s st = (inr None, st).
Proof. intros Ha. unfold complete. rewrite Ha. reflexivity. Qed.

Lemma complete_result (s : SearchSession) (st : State) :
  started s -> fst (complete s st) = inr (analytics s).
Proof.
  unfold started. destruct (analytics s) as [r|] eqn:Ha; intros Hs.
  - destruct (complete_active_run s r st Ha Hs) as [f ->]. reflexivity.
  - rewrite complete_inactive_run by exact Ha. reflexivity.
Qed.

Lemma NoThrow_complete (s : SearchSession) : started s -> NoThrow (complete s).
Proof. intros Hs st. eexists. apply complete_result, Hs. Qed.

Lemma quiet_complete (s : SearchSession) : started s -> Effect quiet (complete s).
Proof.
  unfold started. destruct (analytics s) as [r|] eqn:Ha; intros Hs st.
  - destruct (complete_active_run s r st Ha Hs) as [f ->]. reflexivity.
  - rewrite complete_inactive_run by exact Ha. reflexivity.
Qed.

(** What [startSearch] returns. *)
Lemma startSearch_disabled (q target : string) (ty : SearchType) (st : State) :
  analyticsEnabled st = false ->
  startSearch q ty target st
  = (inr {| analytics := None; startTime := performance_now (ticks st); onComplete := None |},
     {| records := records st; searchHistory := searchHistory st;
        analyticsEnabled := analyticsEnabled st; trace := trace st;
        ticks := S (ticks st) |}).
Proof.
    intros Hen. destruct st as [rs h en tr tk]. cbn in Hen. subst en. reflexivity.
Qed.

Lemma startSearch_enabled (q target : string) (ty : SearchType) (st : State) :
  analyticsEnabled st = true ->
  exists a : SearchAnalytics,
    startSearch q ty target st
    = (inr {| analytics := Some (List.length (records st));
              startTime := performance_now (S (ticks st));
              onComplete := Some recordInHistory |},
       {| records := records st ++ [a]; searchHistory := searchHistory st;
          analyticsEnabled := analyticsEnabled st; trace := trace st;
          ticks := S (S (ticks st)) |}).
Proof.
  intros Hen. destruct st as [rs h en tr tk]. cbn in Hen. subst en.
  exists {| timestamp := Date_now tk; query := q; searchType := ty; targetPath := target;
            sa_pattern := None; executionTimeMs := 0; resultsFound := 0; filesScanned := 0;
            matchDetails := []; searchStrategy := determineSearchStrategy q ty;
            rankingFactors := None; toolDecisionReason := None |}.
  reflexivity.
Qed.

Lemma startSearch_started (q target : string) (ty : SearchType) (st : State) :
  exists (s : SearchSession) (st' : State),
    startSearch q ty target st = (inr s, st')
    /\ started s /\ isActive s = analyticsEnabled st /\ quiet st st'.
Proof.
  destruct (analyticsEnabled st) eqn:Hen.
  - destruct (startSearch_enabled q target ty st Hen) as [a ->].
    eexists _, _. split; [reflexivity|]. repeat split.
  - rewrite startSearch_disabled by exact Hen.
    eexists _, _. split; [reflexivity|]. repeat split.
Qed.

End Complete.

(** ** Finalization *)

(** C5, as stated, fails: a second [complete()] on an active session
    appends the record to the history a second time. *)
Lemma complete_twice_appends_twice :
  let h := Sample.host Sample.todoWorld in
  let begun := @startSearch h "TODO" grep "." (Sample.initial true) in
  match fst begun with
  | inr s =>
      isActive s = true
      /\ searchHistory (snd (@complete h s (snd begun))) = [0%nat]
      /\ searchHistory (snd (@complete h s (snd (@complete h s (snd begun))))) = [0%nat; 0%nat]
      /\ ~ @completesOnce h s (snd begun)
  | inl _ => False
  end.
Proof.
  vm_compute. repeat split. intros [E _]. discriminate E.
Qed.

Section Finalization.
Context `{Host}.

Lemma executionTimeMs_after_complete (f : list MatchAnalytics -> list MatchAnalytics)
    (t : Q) (r : nat) (rs : list SearchAnalytics) :
  executionTimeMs <$> alter (with_matchDetails f) r (alter (with_executionTimeMs t) r rs) !! r
  = (fun _ => t) <$> rs !! r.
Proof.
  rewrite !list_lookup_alter_eq. destruct (rs !! r); reflexivity.
Qed.

(** C5 (amended). A session started while telemetry is enabled is
    active, and every call of [complete()] on it, the first and any later
    one, from any state, computes the elapsed time from the start instant
    and appends the record to the history through the completion
    callback. *)
Theorem complete_appends_on_every_call (q target : string) (ty : SearchType) (st : State) :
  analyticsEnabled st = true ->
  exists (s : SearchSession) (st0 : State) (r : nat),
    startSearch q ty target st = (inr s, st0)
    /\ analytics s = Some r /\ isActive s = true
    /\ searchHistory st0 = searchHistory st
    /\ forall st' : State,
         exists st'' : State,
           complete s st' = (inr (Some r), st'')
           /\ searchHistory st'' = searchHistory st' ++ [r]
           /\ executionTimeMs <$> records st'' !! r
              = (fun _ => (performance_now (ticks st') - startTime s)%Q) <$> records st' !! r.
Proof.
  intros Hen. destruct (startSearch_enabled q target ty st Hen) as [a ->].
  eexists _, _, _. split; [reflexivity|]. repeat split.
  intros st'.
  edestruct (complete_active_run
               {| analytics := Some (List.length (records st));
                  startTime := performance_now (S (ticks st));
                  onComplete := Some recordInHistory |} (List.length (records st)) st')
    as [f ->]; [reflexivity..|].
  eexists. split; [reflexivity|]. split; [reflexivity|].
  cbn [records]. apply executionTimeMs_after_complete.
Qed.

End Finalization.

Lemma complete_appends_on_every_call_witness :
  let h := Sample.host Sample.todoWorld in
  analyticsEnabled (Sample.initial true) = true
  /\ exists (s : SearchSession) (st0 : State) (r : nat),
       @startSearch h "TODO" grep "." (Sample.initial true) = (inr s, st0)
       /\ analytics s = Some r /\ isActive s = true
       /\ searchHistory st0 = searchHistory (Sample.initial true)
       /\ forall st' : State,
            exists st'' : State,
              @complete h s st' = (inr (Some r), st'')
              /\ searchHistory st'' = searchHistory st' ++ [r]
              /\ executionTimeMs <$> records st'' !! r
                 = (fun _ => (@performance_now h (ticks st') - startTime s)%Q) <$> records st' !! r.
Proof.
  intros h. split; [reflexivity|].
  apply (@complete_appends_on_every_call h "TODO" "." grep (Sample.initial true)).
  reflexivity.
Defined.

(** ** The search does not read the telemetry state *)

(** Structural steps: a computation built from [ret], [throw], [emit],
    sequencing, [try]/[catch] and tests on values agrees with itself. *)
Ltac agree_step :=
  first
    [ apply Agree_ret
    | apply Agree_throw
    | apply Silent_Agree; apply Silent_emit
    | solve [eauto 2]
    | apply Agree_bind; [|intros ?]
    | apply Agree_try_catch; [|intros ?]
    | match goal with
      | |- Agree (if ?b then _ else _) (if ?b then _ else _) => destruct b
      | |- Agree (match ?x with _ => _ end) (match ?x with _ => _ end) => destruct x
      end ].

Ltac agree := cbv zeta; repeat agree_step.

(** The same for the footprint [onlyTrace]. *)
Ltac trace_step :=
  first
    [ apply Effect_ret; typeclasses eauto
    | apply Effect_throw; typeclasses eauto
    | apply Effect_emit_onlyTrace
    | solve [eauto 2]
    | apply Effect_bind; [typeclasses eauto| |intros ?]
    | apply Effect_try_catch; [typeclasses eauto| |intros ?]
    | match goal with
      | |- Effect _ (if ?b then _ else _) => destruct b
      | |- Effect _ (match ?x with _ => _ end) => destruct x
      end ].

Ltac only_trace := cbv zeta; repeat trace_step.

Section Oblivious.
Context `{Host}.

Lemma Agree_isCommandAvailable (command : string) :
  Agree (isCommandAvailable command) (isCommandAvailable command).
Proof. unfold isCommandAvailable. agree. Qed.

Lemma Agree_javascriptFallback (pat dir : string) (files : list string) (acc : list GrepMatch) :
  Agree (javascriptFallback pat dir files acc) (javascriptFallback pat dir files acc).
Proof.
  revert acc. induction files as [|f files IH]; intros acc; cbn [javascriptFallback].
  - agree.
  - agree; apply IH.
Qed.

Lemma Agree_performGrepSearch (options : SearchOptions) :
  Agree (performGrepSearch options) (performGrepSearch options).
Proof.
  pose proof Agree_isCommandAvailable. pose proof Agree_javascriptFallback.
  unfold performGrepSearch, gitGrepStrategy, systemGrepStrategy, javascriptFallbackStrategy,
    gitGrep, systemGrep, streamEnd, newRegExp.
  agree.
Qed.

Lemma Agree_resolveAndValidatePath (p : option string) :
  Agree (resolveAndValidatePath p) (resolveAndValidatePath p).
Proof. unfold resolveAndValidatePath. agree. Qed.

Lemma Agree_validateToolParams (params : GrepToolParams) :
  Agree (validateToolParams params) (validateToolParams params).
Proof.
  pose proof Agree_resolveAndValidatePath. unfold validateToolParams. agree.
Qed.

Lemma onlyTrace_isCommandAvailable (command : string) :
  Effect onlyTrace (isCommandAvailable command).
Proof. unfold isCommandAvailable. only_trace. Qed.

Lemma onlyTrace_javascriptFallback (pat dir : string) (files : list string)
    (acc : list GrepMatch) :
  Effect onlyTrace (javascriptFallback pat dir files acc).
Proof.
  revert acc. induction files as [|f files IH]; intros acc; cbn [javascriptFallback].
  - only_trace.
  - only_trace; apply IH.
Qed.

Lemma onlyTrace_performGrepSearch (options : SearchOptions) :
  Effect onlyTrace (performGrepSearch options).
Proof.
  pose proof onlyTrace_isCommandAvailable. pose proof onlyTrace_javascriptFallback.
  unfold performGrepSearch, gitGrepStrategy, systemGrepStrategy, javascriptFallbackStrategy,
    gitGrep, systemGrep, streamEnd, newRegExp.
  only_trace.
Qed.

Lemma onlyTrace_resolveAndValidatePath (p : option string) :
  Effect onlyTrace (resolveAndValidatePath p).
Proof. unfold resolveAndValidatePath. only_trace. Qed.

Lemma onlyTrace_validateToolParams (params : GrepToolParams) :
  Effect onlyTrace (validateToolParams params).
Proof.
  pose proof onlyTrace_resolveAndValidatePath. unfold validateToolParams. only_trace.
Qed.

End Oblivious.

(** ** Telemetry observes *)

Section Observer.
Context `{Host}.

Lemma getMatchReason_ok (m : GrepMatch) (pat : string) :
  regexp_ok pat = true -> NoThrow (getMatchReason m pat).
Proof.
  intros Hok st. unfold getMatchReason, newRegExp, bind, ret. rewrite Hok. eauto.
Qed.

Lemma NoThrow_createMatchAnalytics (m : GrepMatch) (pat dir : string) :
  regexp_ok pat = true -> NoThrow (createMatchAnalytics m pat dir).
Proof.
  intros Hok. unfold createMatchAnalytics. cbv zeta.
  apply NoThrow_bind.
  - apply NoThrow_bind; [apply Silent_NoThrow, Silent_emit|intros _].
    destruct (stat _); [apply NoThrow_ret|].
    apply NoThrow_bind; [apply Silent_NoThrow, Silent_emit|intros _].
    destruct (readFile _); apply NoThrow_ret.
  - intros [[[size mtime] before] after].
    apply NoThrow_bind; [apply getMatchReason_ok, Hok|intros reason; apply NoThrow_ret].
Qed.

Lemma onlyTrace_createMatchAnalytics (m : GrepMatch) (pat dir : string) :
  Effect onlyTrace (createMatchAnalytics m pat dir).
Proof.
  unfold createMatchAnalytics, getMatchReason, newRegExp. only_trace.
Qed.

Lemma Silent_addSearchRankingFactors (s : SearchSession) (options : SearchOptions)
    (matches : list GrepMatch) (n : Z) :
  Silent (addSearchRankingFactors s options matches n).
Proof.
  unfold addSearchRankingFactors. cbv zeta.
  destruct (negb (isActive s)); [apply Silent_ret|].
  repeat (apply Silent_seq; [apply Silent_addRankingFactor|]).
  destruct (JS.truthy_opt _); [apply Silent_addRankingFactor|apply Silent_ret].
Qed.

Lemma observes_addSearchRankingFactors (s : SearchSession) (options : SearchOptions)
    (matches : list GrepMatch) (n : Z) :
  Effect (observes (isActive s)) (addSearchRankingFactors s options matches n).
Proof.
  unfold addSearchRankingFactors. cbv zeta.
  destruct (negb (isActive s)); [apply Effect_ret; typeclasses eauto|].
  repeat (apply Effect_bind;
          [typeclasses eauto|apply observes_addRankingFactor|intros _]).
  destruct (JS.truthy_opt _);
    [apply observes_addRankingFactor|apply Effect_ret; typeclasses eauto].
Qed.

(** The block run when the session is active. *)
Lemma Silent_analytics_block (s : SearchSession) (options : SearchOptions)
    (matches : list GrepMatch) (globPattern : string) (ignore : list string) :
  regexp_ok (opt_pattern options) = true ->
  Silent
    (emit (EvGlobStream globPattern (opt_path options)) ;;
     setFilesScanned s
       (Z.of_nat (List.length (globFiles (globStream globPattern (opt_path options) ignore)))) ;;
     for_each matches (fun m =>
       matchAnalytics <- createMatchAnalytics m (opt_pattern options) (opt_path options) ;;
       addMatch s matchAnalytics) ;;
     addSearchRankingFactors s options matches
       (Z.of_nat (List.length (globFiles (globStream globPattern (opt_path options) ignore))))).
Proof.
  intros Hok.
  apply Silent_seq; [apply Silent_emit|].
  apply Silent_seq; [apply Silent_setFilesScanned|].
  apply Silent_seq; [|apply Silent_addSearchRankingFactors].
  apply Silent_for_each. intros m _.
  apply Silent_bind; [apply NoThrow_createMatchAnalytics, Hok|intros a; apply Silent_addMatch].
Qed.

(** The match list that a search returns does not depend on the session
    it is given, nor on the state. *)
Lemma Agree_performGrepSearchWithAnalytics (options : SearchOptions) (s1 s2 : SearchSession) :
  regexp_ok (opt_pattern options) = true ->
  Agree (performGrepSearchWithAnalytics options s1) (performGrepSearchWithAnalytics options s2).
Proof.
  intros Hok. unfold performGrepSearchWithAnalytics. cbv zeta.
  apply Agree_try_catch; [|intros e; apply Agree_throw].
  apply Agree_bind; [apply Agree_performGrepSearch|intros matches].
  apply Agree_bind; [|intros []; apply Agree_ret].
  apply Silent_Agree.
  - destruct (isActive s1); [apply Silent_analytics_block, Hok|apply Silent_ret].
  - destruct (isActive s2); [apply Silent_analytics_block, Hok|apply Silent_ret].
Qed.

Lemma observes_performGrepSearchWithAnalytics (options : SearchOptions) (s : SearchSession) :
  Effect (observes (isActive s)) (performGrepSearchWithAnalytics options s).
Proof.
  unfold performGrepSearchWithAnalytics. cbv zeta.
  apply Effect_try_catch; [typeclasses eauto| |intros e; apply Effect_throw; typeclasses eauto].
  apply Effect_bind; [typeclasses eauto| |intros matches].
  { eapply Effect_weaken; [apply onlyTrace_observes|apply onlyTrace_performGrepSearch]. }
  apply Effect_bind; [typeclasses eauto| |intros _; apply Effect_ret; typeclasses eauto].
  destruct (isActive s) eqn:Hact; [|apply Effect_ret; typeclasses eauto].
  apply Effect_bind; [typeclasses eauto| |intros _].
  { eapply Effect_weaken; [apply onlyTrace_observes|apply Effect_emit_onlyTrace]. }
  apply Effect_bind; [typeclasses eauto| |intros _].
  { rewrite <- Hact. apply observes_setFilesScanned. }
  apply Effect_bind; [typeclasses eauto| |intros _].
  - apply Effect_for_each; [typeclasses eauto..|]. intros m.
    apply Effect_bind; [typeclasses eauto| |intros a].
    + eapply Effect_weaken; [apply onlyTrace_observes|apply onlyTrace_createMatchAnalytics].
    + rewrite <- Hact. apply observes_addMatch.
  - rewrite <- Hact. apply observes_addSearchRankingFactors.
Qed.

Lemma Agree_searchDirectoriesLoop (params : GrepToolParams) (s1 s2 : SearchSession)
    (multiple : bool) (dirs : list string) (acc : list GrepMatch) :
  regexp_ok (pattern params) = true ->
  Agree (searchDirectoriesLoop params s1 multiple dirs acc)
        (searchDirectoriesLoop params s2 multiple dirs acc).
Proof.
  intros Hok. revert acc. induction dirs as [|d dirs IH]; intros acc; cbn [searchDirectoriesLoop].
  - apply Agree_ret.
  - apply Agree_bind; [apply Agree_performGrepSearchWithAnalytics, Hok|intros matches].
    apply IH.
Qed.

Lemma observes_searchDirectoriesLoop (params : GrepToolParams) (s : SearchSession)
    (multiple : bool) (dirs : list string) (acc : list GrepMatch) :
  Effect (observes (isActive s)) (searchDirectoriesLoop params s multiple dirs acc).
Proof.
  revert acc. induction dirs as [|d dirs IH]; intros acc; cbn [searchDirectoriesLoop].
  - apply Effect_ret; typeclasses eauto.
  - apply Effect_bind; [typeclasses eauto| |intros matches; apply IH].
    apply observes_performGrepSearchWithAnalytics.
Qed.

End Observer.

(** ** Validation *)

Section Validation.
Context `{Host}.

Lemma truthy_append (a b : string) : JS.truthy a = true -> JS.truthy (a +:+ b) = true.
Proof. rewrite !truthy_true. apply append_nonempty. Qed.

(** A pattern that is not a regular expression is refused before
    anything is looked up. *)
Lemma validateToolParams_invalid_regexp (params : GrepToolParams) :
  regexp_ok (pattern params) = false ->
  exists msg : string,
    JS.truthy msg = true
    /\ (JS.truthy_opt (schemaValidate params) = false ->
        msg = "Invalid regular expression pattern provided: " +:+ pattern params
              +:+ ". Error: " +:+ regexp_error (pattern params))
    /\ forall st : State, validateToolParams params st = (inr (Some msg), st).
Proof.
  intros Hbad. unfold validateToolParams. cbv zeta. rewrite Hbad. cbn [negb].
  destruct (JS.truthy_opt (schemaValidate params)) eqn:Hschema.
  - destruct (schemaValidate params) as [errors|]; [|discriminate].
    exists errors. split; [exact Hschema|]. split; [discriminate|reflexivity].
  - eexists. split; [|split; [reflexivity|reflexivity]].
    apply truthy_append. reflexivity.
Qed.

(** Validation lets through only patterns that are regular expressions. *)
Lemma validateToolParams_accepts (params : GrepToolParams) (st : State) (v : option string) :
  fst (validateToolParams params st) = inr v -> JS.truthy_opt v = false ->
  regexp_ok (pattern params) = true.
Proof.
  unfold validateToolParams. cbv zeta.
  destruct (JS.truthy_opt (schemaValidate params)) eqn:Hschema.
  - intros [= <-]. congruence.
  - destruct (regexp_ok (pattern params)); [reflexivity|]. cbn [negb].
    intros [= <-] Hv. cbn [JS.truthy_opt] in Hv.
    rewrite truthy_append in Hv by reflexivity. discriminate Hv.
Qed.

End Validation.

(** ** The orchestrator *)

Lemma Agree_bind_post {A B} (m : M A) (P : A -> Prop) (k1 k2 : A -> M B) :
  Agree m m -> (forall st a, fst (m st) = inr a -> P a) ->
  (forall a, P a -> Agree (k1 a) (k2 a)) -> Agree (bind m k1) (bind m k2).
Proof.
  intros Hm HP Hk st1 st2. unfold bind. specialize (Hm st1 st2).
  pose proof (HP st1) as HP1.
  destruct (m st1) as [[e1|a1] st1'], (m st2) as [[e2|a2] st2']; cbn [fst] in *;
    try congruence.
  injection Hm as <-. apply Hk, HP1. reflexivity.
Qed.

Lemma NoThrow_try_catch {A} (m : M A) (h : JsError -> M A) :
  (forall e, NoThrow (h e)) -> NoThrow (try_catch m h).
Proof.
  intros Hh st. unfold try_catch. destruct (m st) as [[e|a] st']; [apply Hh|eauto].
Qed.

Lemma Effect_NoThrow_Triple {A} (R : State -> State -> Prop) (P P' : State -> Prop) (m : M A) :
  Effect R m -> NoThrow m -> (forall st st', P st -> R st st' -> P' st') ->
  Triple P m (fun _ => P') (fun _ _ => False).
Proof.
  intros Hm Hn HP st Hst. specialize (Hm st). destruct (Hn st) as [a Ha].
  destruct (m st) as [[e|a'] st']; cbn [fst snd] in *; [discriminate Ha|].
  eapply HP; eassumption.
Qed.

Section Orchestrator.
Context `{Host}.

Lemma NoThrow_validateToolParams (params : GrepToolParams) :
  NoThrow (validateToolParams params).
Proof.
  unfold validateToolParams. cbv zeta.
  destruct (JS.truthy_opt (schemaValidate params)); [apply NoThrow_ret|].
  destruct (negb _); [apply NoThrow_ret|].
  destruct (JS.truthy_opt (path params)); [|apply NoThrow_ret].
  apply NoThrow_try_catch. intros e. apply NoThrow_ret.
Qed.

Lemma Agree_bind_started {B} (q target : string) (ty : SearchType)
    (k1 k2 : SearchSession -> M B) :
  (forall s1 s2, started s1 -> started s2 -> Agree (k1 s1) (k2 s2)) ->
  Agree (bind (startSearch q ty target) k1) (bind (startSearch q ty target) k2).
Proof.
  intros Hk st1 st2. unfold bind.
  destruct (startSearch_started q target ty st1) as (s1 & st1' & -> & Hs1 & _).
  destruct (startSearch_started q target ty st2) as (s2 & st2' & -> & Hs2 & _).
  apply Hk; assumption.
Qed.

Lemma Agree_complete_then {B} (s1 s2 : SearchSession) (k1 k2 : M B) :
  started s1 -> started s2 -> Agree k1 k2 ->
  Agree (bind (complete s1) (fun _ => k1)) (bind (complete s2) (fun _ => k2)).
Proof. intros Hs1 Hs2. apply Agree_after_NoThrow; apply NoThrow_complete; assumption. Qed.

(** What [execute] returns does not depend on the state in which it
    starts: not on the switch of the telemetry, not on the history. *)
Lemma Agree_execute (params : GrepToolParams) : Agree (execute params) (execute params).
Proof.
  unfold execute. apply Agree_bind_started. intros s1 s2 Hs1 Hs2.
  apply Agree_bind; [apply Silent_Agree; apply Silent_setPattern|intros _].
  apply Agree_bind_post
    with (P := fun v => JS.truthy_opt v = false -> regexp_ok (pattern params) = true).
  { apply Agree_validateToolParams. }
  { intros st v Hv. exact (validateToolParams_accepts params st v Hv). }
  intros validationError Hpost.
  destruct (JS.truthy_opt validationError).
  { apply Agree_complete_then; [assumption..|apply Agree_ret]. }
  specialize (Hpost eq_refl).
  apply Agree_try_catch.
  2:{ intros e. cbv zeta. apply Agree_complete_then; [assumption..|apply Agree_ret]. }
  apply Agree_bind; [apply Agree_resolveAndValidatePath|intros searchDirAbs]. cbv zeta.
  apply Agree_bind; [apply Agree_searchDirectoriesLoop, Hpost|intros allMatches].
  destruct (_ =? 0).
  { apply Agree_complete_then; [assumption..|apply Agree_ret]. }
  apply Agree_bind; [destruct (groupMatches _ _); agree|intros matchesByFile].
  apply Agree_complete_then; [assumption..|apply Agree_ret].
Qed.

(** The state through [execute]: [P s] holds from the start of the
    session to its completion, exclusive, and is kept by everything that
    only observes; [complete] then establishes [Q s]. *)
Lemma Triple_execute (params : GrepToolParams) (P0 : State -> Prop)
    (P Q : SearchSession -> State -> Prop) :
  Triple P0 (startSearch (pattern params) grep (JS.or_else (default "" (path params)) "."))
         P (fun _ _ => False) ->
  (forall s st st', P s st -> observes (isActive s) st st' -> P s st') ->
  (forall s, Triple (P s) (complete s) (fun _ => Q s) (fun _ _ => False)) ->
  Triple P0 (execute params) (fun _ st => exists s, Q s st) (fun _ _ => False).
Proof.
  intros Hstart Hobs Hcomplete. unfold execute.
  eapply Triple_bind; [exact Hstart|intros s].
  assert (forall {A} (m : M A), Effect (observes (isActive s)) m ->
            Triple (P s) m (fun _ => P s) (fun _ => P s)) as Hkeep.
  { intros A m Hm. eapply Effect_Triple; [exact Hm|]. intros st st'. apply Hobs. }
  assert (forall (R : ToolResult) (E : JsError -> State -> Prop),
            Triple (P s) (complete s ;; ret R) (fun _ st => exists s, Q s st) E) as Hend.
  { intros R E. eapply Triple_bind.
    - eapply Triple_weaken; [apply Hcomplete|auto|intros a st HQ; exact HQ|intros e st []].
    - intros ?. apply Triple_ret. eauto. }
  eapply Triple_bind.
  { eapply Effect_NoThrow_Triple;
      [apply observes_setPattern|apply Silent_NoThrow, Silent_setPattern|apply Hobs]. }
  intros ?. eapply Triple_bind.
  { eapply Effect_NoThrow_Triple; [|apply NoThrow_validateToolParams|apply Hobs].
    eapply Effect_weaken; [apply onlyTrace_observes|apply onlyTrace_validateToolParams]. }
  intros validationError. destruct (JS.truthy_opt validationError); [apply Hend|].
  eapply Triple_try_catch with (E1 := fun _ => P s); [|intros e; cbv zeta; apply Hend].
  eapply Triple_bind.
  { apply Hkeep. eapply Effect_weaken;
      [apply onlyTrace_observes|apply onlyTrace_resolveAndValidatePath]. }
  intros searchDirAbs. cbv zeta.
  eapply Triple_bind; [apply Hkeep, observes_searchDirectoriesLoop|intros allMatches].
  destruct (_ =? 0); [apply Hend|].
  eapply Triple_bind with (Q := fun _ => P s).
  { destruct (groupMatches _ _); [apply Triple_throw|apply Triple_ret]; auto. }
  intros matchesByFile. apply Hend.
Qed.

End Orchestrator.

Section Claims.
Context `{Host}.

Lemma execute_disabled (params : GrepToolParams) (st : State) :
  analyticsEnabled st = false ->
  exists result : ToolResult,
    fst (execute params st) = inr result
    /\ searchHistory (snd (execute params st)) = searchHistory st
    /\ records (snd (execute params st)) = records st.
Proof.
  intros Hen.
  pose proof (Triple_execute params (fun st' => st' = st)
    (fun s st' => analytics s = None /\ searchHistory st' = searchHistory st
                  /\ records st' = records st)
    (fun s st' => searchHistory st' = searchHistory st /\ records st' = records st)) as Ht.
  assert (match execute params st with
          | (inr _, st') => exists s : SearchSession,
                              searchHistory st' = searchHistory st /\ records st' = records st
          | (inl _, _) => False
          end) as Hrun.
  { apply Ht; [| | |reflexivity].
    - intros st0 ->. rewrite startSearch_disabled by exact Hen. cbn. auto.
    - intros s st1 st2 (Ha & Hh & Hr) (Hh' & _ & _ & Hr').
      unfold isActive in Hr'. rewrite Ha in Hr'. specialize (Hr' eq_refl).
      repeat split; congruence.
    - intros s st1 (Ha & Hh & Hr). rewrite complete_inactive_run by exact Ha. auto. }
  destruct (execute params st) as [[e|result] st']; [contradiction|].
  destruct Hrun as (_ & Hh & Hr). exists result. auto.
Qed.

Lemma execute_enabled (params : GrepToolParams) (st : State) :
  analyticsEnabled st = true ->
  exists result : ToolResult,
    fst (execute params st) = inr result
    /\ searchHistory (snd (execute params st)) = searchHistory st ++ [List.length (records st)]
    /\ List.length (records (snd (execute params st))) = S (List.length (records st)).
Proof.
  intros Hen. set (n := List.length (records st)).
  pose proof (Triple_execute params (fun st' => st' = st)
    (fun s st' => analytics s = Some n /\ onComplete s = Some recordInHistory
                  /\ searchHistory st' = searchHistory st
                  /\ List.length (records st') = S n)
    (fun s st' => searchHistory st' = searchHistory st ++ [n]
                  /\ List.length (records st') = S n)) as Ht.
  assert (match execute params st with
          | (inr _, st') => exists s : SearchSession,
                              searchHistory st' = searchHistory st ++ [n]
                              /\ List.length (records st') = S n
          | (inl _, _) => False
          end) as Hrun.
  { apply Ht; [| | |reflexivity].
    - intros st0 ->.
      destruct (startSearch_enabled (pattern params) (JS.or_else (default "" (path params)) ".")
                  grep st Hen) as [a ->].
      cbn. repeat split. rewrite length_app. cbn. unfold n. lia.
    - intros s st1 st2 (Ha & Hcb & Hh & Hr) (Hh' & _ & Hr' & _). repeat split; congruence.
    - intros s st1 (Ha & Hcb & Hh & Hr).
      destruct (complete_active_run s n st1 Ha Hcb) as [f ->]. cbn.
      split; [congruence|]. rewrite !length_alter. exact Hr. }
  destruct (execute params st) as [[e|result] st']; [contradiction|].
  destruct Hrun as (_ & Hh & Hr). exists result. auto.
Qed.

(** C1. For every pattern, path and include filter, the result of the
    search (the rendered summary and what is displayed) is the same with
    the telemetry enabled and with it disabled; with it disabled neither
    the history nor any record changes; with it enabled exactly one
    record is allocated and appended to the history; and the match list
    of each search directory is the same for an active and for a null
    session. *)
Theorem telemetry_noninterference (params : GrepToolParams) :
  (forall st : State,
      fst (execute params (snd (enableAnalytics true st)))
      = fst (execute params (snd (enableAnalytics false st))))
  /\ (forall st : State,
        analyticsEnabled st = false ->
        exists result : ToolResult,
          fst (execute params st) = inr result
          /\ searchHistory (snd (execute params st)) = searchHistory st
          /\ records (snd (execute params st)) = records st)
  /\ (forall st : State,
        analyticsEnabled st = true ->
        exists result : ToolResult,
          fst (execute params st) = inr result
          /\ searchHistory (snd (execute params st))
             = searchHistory st ++ [List.length (records st)]
          /\ List.length (records (snd (execute params st))) = S (List.length (records st)))
  /\ (forall (options : SearchOptions) (active null : SearchSession) (st1 st2 : State),
        regexp_ok (opt_pattern options) = true ->
        isActive active = true -> isActive null = false ->
        fst (performGrepSearchWithAnalytics options active st1)
        = fst (performGrepSearchWithAnalytics options null st2)).
Proof.
  split; [|split; [|split]].
  - intros st. apply Agree_execute.
  - intros st. apply execute_disabled.
  - intros st. apply execute_enabled.
  - intros options active null st1 st2 Hok _ _.
    apply Agree_performGrepSearchWithAnalytics, Hok.
Qed.

End Claims.

Example execute_todo_record :
  let h := Sample.host Sample.todoWorld in
  let st := snd (@execute h {| pattern := "TODO"; path := None; include := None |}
                   (Sample.initial true)) in
  searchHistory st = [0%nat]
  /\ (resultsFound <$> records st !! 0%nat) = Some 1
  /\ (filesScanned <$> records st !! 0%nat) = Some 2
  /\ (map matchReason <$> (matchDetails <$> records st !! 0%nat))
     = Some ["exact pattern match, regex pattern match, found in .txt file, near file beginning"].
Proof. vm_compute. repeat split. Qed.

Lemma telemetry_noninterference_witness :
  let h := Sample.host Sample.todoWorld in
  let params := {| pattern := "TODO"; path := None; include := None |} in
  let s := {| analytics := Some 0%nat; startTime := 0; onComplete := Some recordInHistory |} in
  let null := {| analytics := None; startTime := 0; onComplete := None |} in
  (analyticsEnabled (Sample.initial false) = false
   /\ exists result : ToolResult,
        fst (@execute h params (Sample.initial false)) = inr result
        /\ searchHistory (snd (@execute h params (Sample.initial false))) = []
        /\ records (snd (@execute h params (Sample.initial false))) = [])
  /\ (analyticsEnabled (Sample.initial true) = true
      /\ exists result : ToolResult,
           fst (@execute h params (Sample.initial true)) = inr result
           /\ searchHistory (snd (@execute h params (Sample.initial true))) = [] ++ [0%nat]
           /\ List.length (records (snd (@execute h params (Sample.initial true)))) = 1%nat)
  /\ (@regexp_ok h "TODO" = true /\ isActive s = true /\ isActive null = false
      /\ fst (@performGrepSearchWithAnalytics h Sample.todoOptions s (Sample.initial true))
         = fst (@performGrepSearchWithAnalytics h Sample.todoOptions null (Sample.initial false))).
Proof.
  intros h params s null.
  destruct (@telemetry_noninterference h params) as (_ & Hoff & Hon & Hlist).
  split; [split; [reflexivity|exact (Hoff (Sample.initial false) eq_refl)]|].
  split; [split; [reflexivity|exact (Hon (Sample.initial true) eq_refl)]|].
  split; [reflexivity|]. split; [reflexivity|]. split; [reflexivity|].
  exact (Hlist Sample.todoOptions s null _ _ eq_refl eq_refl eq_refl).
Defined.

(** ** Validation comes first *)

Section ValidationFirst.
Context `{Host}.

(** The reply to invalid parameters. *)
Lemma execute_validation_error (params : GrepToolParams) (msg : string)
    (R : State -> State -> Prop) `{!Reflexive R} `{!Transitive R} :
  JS.truthy msg = true ->
  (forall st st', quiet st st' -> R st st') ->
  (forall st, exists st', validateToolParams params st = (inr (Some msg), st') /\ R st st') ->
  forall st : State,
  exists st' : State,
    execute params st
    = (inr {| llmContent := "Error: Invalid parameters provided. Reason: " +:+ msg;
              returnDisplay := "Model provided invalid parameters. Error: " +:+ msg |}, st')
    /\ R st st'.
Proof.
  intros Hmsg Hquiet Hval st. unfold execute. unfold bind at 1.
  destruct (startSearch_started (pattern params) (JS.or_else (default "" (path params)) ".")
              grep st) as (s & st1 & -> & Hs & _ & Hq1).
  unfold bind at 1.
  pose proof (Silent_setPattern s (pattern params) st1) as Hsilent.
  pose proof (quiet_setPattern s (pattern params) st1) as Hq2.
  destruct (setPattern s (pattern params) st1) as [r st2]. cbn [fst snd] in *. subst r.
  unfold bind at 1. destruct (Hval st2) as (st3 & -> & Hr3).
  cbn [JS.truthy_opt]. rewrite Hmsg. unfold bind at 1.
  pose proof (complete_result s st3 Hs) as Hc.
  pose proof (quiet_complete s Hs st3) as Hq4.
  destruct (complete s st3) as [r st4]. cbn [fst snd] in *. subst r.
  exists st4. split; [reflexivity|].
  transitivity st1; [apply Hquiet, Hq1|]. transitivity st2; [apply Hquiet, Hq2|].
  transitivity st3; [exact Hr3|apply Hquiet, Hq4].
Qed.

(** A supplied path outside the workspace, missing, or not a directory
    is refused, after at most a look at the path. *)
Lemma validateToolParams_rejects_path (params : GrepToolParams) :
  JS.truthy_opt (schemaValidate params) = false ->
  regexp_ok (pattern params) = true ->
  JS.truthy_opt (path params) = true ->
  isPathWithinWorkspace (path_resolve getTargetDir (default "" (path params))) = false
  \/ statSync (path_resolve getTargetDir (default "" (path params))) <> StatDirectory ->
  exists msg : string,
    JS.truthy msg = true
    /\ forall st, exists st',
         validateToolParams params st = (inr (Some msg), st') /\ statOnly st st'.
Proof.
  intros Hschema Hok Hpath Hbad.
  unfold validateToolParams, resolveAndValidatePath. cbv zeta.
  rewrite Hschema, Hok, Hpath. cbn [negb].
  set (target := path_resolve getTargetDir (default "" (path params))) in *.
  destruct (isPathWithinWorkspace target) eqn:Hin; cbn [negb].
  2:{ eexists. split; [|intros st; eexists; split; [reflexivity|reflexivity]].
      apply truthy_append. reflexivity. }
  destruct Hbad as [?|Hstat]; [discriminate|].
  assert (forall st, statOnly st (snd (emit (EvStatSync target) st))) as Hev.
  { intros st. exists [EvStatSync target]. split; [reflexivity|]. repeat constructor. }
  destruct (statSync target) as [| |e] eqn:Hs; [congruence| |].
  - eexists. split; [|intros st; eexists; split; [reflexivity|apply Hev]].
    apply truthy_append. reflexivity.
  - unfold try_catch, bind, emit, modify, throw, ret. cbn [getErrorMessage].
    destruct (isNodeError e && negb (bool_decide (errCode e = Some "ENOENT"))).
    + eexists. split; [|intros st; eexists; split; [reflexivity|apply Hev]].
      apply truthy_append. reflexivity.
    + eexists. split; [|intros st; eexists; split; [reflexivity|apply Hev]].
      apply truthy_append. reflexivity.
Qed.

(** C8. A pattern that is not a regular expression makes the search
    return the validation error with no access to the file system or to
    a process: the trace of events is as it was. A supplied path that
    lies outside the workspace, does not exist or is not a directory is
    rejected by the validation, and the search returns the validation
    error, having run no strategy. *)
Theorem validation_error_before_any_access (params : GrepToolParams) (st : State) :
  (regexp_ok (pattern params) = false ->
   exists (msg : string) (st' : State),
     execute params st
     = (inr {| llmContent := "Error: Invalid parameters provided. Reason: " +:+ msg;
               returnDisplay := "Model provided invalid parameters. Error: " +:+ msg |}, st')
     /\ trace st' = trace st
     /\ (JS.truthy_opt (schemaValidate params) = false ->
         msg = "Invalid regular expression pattern provided: " +:+ pattern params
               +:+ ". Error: " +:+ regexp_error (pattern params)))
  /\ (JS.truthy_opt (schemaValidate params) = false ->
      regexp_ok (pattern params) = true ->
      JS.truthy_opt (path params) = true ->
      isPathWithinWorkspace (path_resolve getTargetDir (default "" (path params))) = false
      \/ statSync (path_resolve getTargetDir (default "" (path params))) <> StatDirectory ->
      exists (msg : string) (st' : State),
        fst (validateToolParams params st) = inr (Some msg)
        /\ JS.truthy msg = true
        /\ execute params st
           = (inr {| llmContent := "Error: Invalid parameters provided. Reason: " +:+ msg;
                     returnDisplay := "Model provided invalid parameters. Error: " +:+ msg |}, st')
        /\ exists evs : list Event,
             trace st' = trace st ++ evs
             /\ Forall (fun e => isStrategyEvent e = false) evs).
Proof.
  split.
  - intros Hbad.
    destruct (validateToolParams_invalid_regexp params Hbad) as (msg & Hmsg & Hform & Hval).
    destruct (execute_validation_error params msg quiet Hmsg) with (st := st)
      as (st' & Hrun & Hq); [auto| |].
    { intros st0. exists st0. split; [apply Hval|reflexivity]. }
    exists msg, st'. auto.
  - intros Hschema Hok Hpath Hrej.
    destruct (validateToolParams_rejects_path params Hschema Hok Hpath Hrej)
      as (msg & Hmsg & Hval).
    destruct (execute_validation_error params msg statOnly Hmsg) with (st := st)
      as (st' & Hrun & Hq); [apply quiet_statOnly|exact Hval|].
    exists msg, st'. destruct (Hval st) as (st1 & -> & _). auto.
Qed.

End ValidationFirst.

Example execute_open_parenthesis :
  let h := Sample.host Sample.todoWorld in
  @execute h {| pattern := "("; path := None; include := None |} (Sample.initial false)
  = (inr {| llmContent :=
              "Error: Invalid parameters provided. Reason: Invalid regular expression pattern provided: (. Error: Invalid regular expression: /(/";
            returnDisplay :=
              "Model provided invalid parameters. Error: Invalid regular expression pattern provided: (. Error: Invalid regular expression: /(/" |},
     {| records := []; searchHistory := []; analyticsEnabled := false; trace := [];
        ticks := 1 |}).
Proof. vm_compute. reflexivity. Qed.

Lemma validation_error_before_any_access_witness :
  let h := Sample.host Sample.todoWorld in
  let bad := {| pattern := "("; path := None; include := None |} in
  let file := {| pattern := "TODO"; path := Some "a.txt"; include := None |} in
  (@regexp_ok h (pattern bad) = false
   /\ exists (msg : string) (st' : State),
        @execute h bad (Sample.initial true)
        = (inr {| llmContent := "Error: Invalid parameters provided. Reason: " +:+ msg;
                  returnDisplay := "Model provided invalid parameters. Error: " +:+ msg |}, st')
        /\ trace st' = trace (Sample.initial true)
        /\ (JS.truthy_opt (@schemaValidate h bad) = false ->
            msg = "Invalid regular expression pattern provided: " +:+ pattern bad
                  +:+ ". Error: " +:+ @regexp_error h (pattern bad)))
  /\ (JS.truthy_opt (@schemaValidate h file) = false
      /\ @regexp_ok h (pattern file) = true
      /\ JS.truthy_opt (path file) = true
      /\ @statSync h (@path_resolve h (@getTargetDir h) (default "" (path file))) <> StatDirectory
      /\ exists (msg : string) (st' : State),
           fst (@validateToolParams h file (Sample.initial true)) = inr (Some msg)
           /\ JS.truthy msg = true
           /\ @execute h file (Sample.initial true)
              = (inr {| llmContent := "Error: Invalid parameters provided. Reason: " +:+ msg;
                        returnDisplay := "Model provided invalid parameters. Error: " +:+ msg |},
                 st')
           /\ exists evs : list Event,
                trace st' = trace (Sample.initial true) ++ evs
                /\ Forall (fun e => isStrategyEvent e = false) evs).
Proof.
  intros h bad file.
  assert (@statSync h (@path_resolve h (@getTargetDir h) (default "" (path file)))
          <> StatDirectory) as Hstat by (vm_compute; discriminate).
  split.
  - split; [reflexivity|].
    exact (proj1 (@validation_error_before_any_access h bad (Sample.initial true)) eq_refl).
  - split; [reflexivity|]. split; [reflexivity|]. split; [reflexivity|]. split; [exact Hstat|].
    exact (proj2 (@validation_error_before_any_access h file (Sample.initial true))
             eq_refl eq_refl eq_refl (or_intror Hstat)).
Defined.

(** * More of the telemetry *)

(** ** The strategy label *)

Lemma indexOf_scan_regex_char (c : ascii) (s : string) (i : Z) :
  isRegexChar c = true -> 0 <= i ->
  JS.indexOf_scan (String c "") s i <> -1 -> 0 < countRegexChars s.
Proof.
  intros Hc. revert i. induction s as [|d s IH]; intros i Hi; cbn [JS.indexOf_scan].
  - cbn. congruence.
  - rewrite prefix_cons, prefix_nil_l. cbn [countRegexChars].
    pose proof (countRegexChars_nonneg s).
    destruct (ascii_dec c d) as [<-|Hne].
    + rewrite Hc. lia.
    + intros Hscan. apply IH in Hscan; [|lia]. destruct (isRegexChar d); lia.
Qed.

Lemma includes_regex_char (c : ascii) (s : string) :
  isRegexChar c = true -> JS.includes s (String c "") = true -> 0 < countRegexChars s.
Proof.
  intros Hc Hin. unfold JS.includes, JS.indexOf in Hin. rewrite Nat.min_0_l in Hin.
  cbn [JS.drop] in Hin. change (Z.of_nat 0) with 0 in Hin.
  apply (indexOf_scan_regex_char c s 0 Hc); [lia|].
  intros E. rewrite E in Hin. discriminate Hin.
Qed.

(** X1. The strategy label of a search always ends with the tool tag
    ["tool-<searchType>"], and a query holding a glob character ([*] or
    [?]) is labelled ["glob-pattern+regex-search"]: both characters are
    regex metacharacters, so the glob tag never comes without the regex
    tag. *)
Theorem determineSearchStrategy_tags (q : string) (ty : SearchType) :
  (exists tags : string,
      determineSearchStrategy q ty = tags +:+ "tool-" +:+ SearchType_name ty)
  /\ (JS.includes q "*" || JS.includes q "?" = true ->
      String.prefix "glob-pattern+regex-search+" (determineSearchStrategy q ty) = true).
Proof.
  unfold determineSearchStrategy. cbv zeta.
  assert (JS.includes q "*" || JS.includes q "?" = true -> (0 <? countRegexChars q) = true)
    as Hglob.
  { intros Hg. apply Z.ltb_lt. apply orb_true_iff in Hg as [Hg|Hg];
      eapply includes_regex_char; try exact Hg; reflexivity. }
  split.
  - exists ((if JS.includes q "*" || JS.includes q "?" then "glob-pattern+" else "")
            +:+ (if 0 <? countRegexChars q then "regex-search+" else "")
            +:+ (if 1 <? Z.of_nat (List.length (JS.split q " ")) then "multi-term+" else "")
            +:+ (match ty with embedding => "semantic-similarity+" | _ => "" end)).
    destruct (JS.includes q "*" || JS.includes q "?"), (0 <? countRegexChars q), (1 <? _), ty;
      reflexivity.
  - intros Hg. rewrite (Hglob Hg), Hg. destruct (1 <? _), ty; reflexivity.
Qed.

Lemma determineSearchStrategy_tags_witness :
  (JS.includes "*.ts" "*" || JS.includes "*.ts" "?" = true)
  /\ String.prefix "glob-pattern+regex-search+" (determineSearchStrategy "*.ts" grep) = true.
Proof.
  split; [reflexivity|].
  exact (proj2 (determineSearchStrategy_tags "*.ts" grep) eq_refl).
Defined.

Example determineSearchStrategy_ex :
  determineSearchStrategy "find *.ts files" grep = "glob-pattern+regex-search+multi-term+tool-grep"
  /\ determineSearchStrategy "TODO" embedding = "semantic-similarity+tool-embedding".
Proof. split; reflexivity. Qed.

(** ** The report sorts what the session gathered *)

Lemma sort_insert_Permutation {A} (gt : A -> A -> bool) (x : A) (l : list A) :
  Permutation (sort_insert gt x l) (x :: l).
Proof.
  induction l as [|y l IH]; cbn [sort_insert]; [reflexivity|].
  destruct (gt y x); [reflexivity|].
  rewrite IH. apply perm_swap.
Qed.

Lemma sort_from_Permutation {A} (gt : A -> A -> bool) (l acc : list A) :
  Permutation (fold_left (fun acc x => sort_insert gt x acc) l acc) (acc ++ l).
Proof.
  revert acc. induction l as [|x l IH]; intros acc; cbn [fold_left].
  - rewrite app_nil_r. reflexivity.
  - rewrite IH, sort_insert_Permutation.
    change (x :: acc) with ([x] ++ acc). rewrite (Permutation_app_comm [x] acc), <- app_assoc.
    reflexivity.
Qed.

Lemma sort_Permutation {A} (gt : A -> A -> bool) (l : list A) : Permutation (sort gt l) l.
Proof. unfold sort. apply (sort_from_Permutation gt l []). Qed.

Lemma byRelevanceDescending_spec (a b : MatchAnalytics) :
  if byRelevanceDescending a b
  then (default 0 (relevanceScore a) < default 0 (relevanceScore b))%Q
  else (default 0 (relevanceScore b) <= default 0 (relevanceScore a))%Q.
Proof.
  unfold byRelevanceDescending.
  destruct (Qle_bool _ _) eqn:E; cbn [negb].
  - apply Qle_bool_iff, E.
  - apply Qnot_le_lt. intros Hle. apply Qle_bool_iff in Hle. congruence.
Qed.

Lemma sort_insert_descending (x : MatchAnalytics) (l : list MatchAnalytics) :
  byDescendingRelevance l -> byDescendingRelevance (sort_insert byRelevanceDescending x l).
Proof.
  unfold byDescendingRelevance. induction l as [|y l IH]; intros Hl; cbn [sort_insert].
  - repeat constructor.
  - pose proof (byRelevanceDescending_spec y x) as Hyx.
    destruct (byRelevanceDescending y x).
    + constructor; [exact Hl|]. constructor. apply Qlt_le_weak, Hyx.
    + apply Sorted_inv in Hl as [Hl Hhd]. constructor; [apply IH, Hl|].
      destruct l as [|z l]; cbn [sort_insert].
      * constructor. exact Hyx.
      * destruct (byRelevanceDescending z x); constructor; [exact Hyx|].
        apply HdRel_inv in Hhd. exact Hhd.
Qed.

Lemma sort_descending (l : list MatchAnalytics) :
  byDescendingRelevance (sort byRelevanceDescending l).
Proof.
  unfold sort. assert (byDescendingRelevance []) as Hacc by constructor.
  revert Hacc. generalize (@nil MatchAnalytics) as acc.
  induction l as [|x l IH]; intros acc Hacc; cbn [fold_left]; [exact Hacc|].
  apply IH, sort_insert_descending, Hacc.
Qed.

Lemma list_alter_insert_at {A} (f : A -> A) (l : list A) (i : nat) (x : A) :
  l !! i = Some x -> alter f i l = <[i := f x]> l.
Proof.
  intros Hx. apply list_eq. intros j. destruct (decide (i = j)) as [<-|Hne].
  - rewrite list_lookup_alter_eq, Hx, list_lookup_insert_eq; [reflexivity|].
    eapply lookup_lt_Some, Hx.
  - rewrite list_lookup_alter_ne, list_lookup_insert_ne by exact Hne. reflexivity.
Qed.

Section Report.
Context `{Host}.

(** What [complete()] leaves of an active session. *)
Lemma complete_record (s : SearchSession) (r : nat) (st : State) (a : SearchAnalytics) :
  analytics s = Some r -> onComplete s = Some recordInHistory ->
  records st !! r = Some a ->
  exists a' : SearchAnalytics,
    fst (complete s st) = inr (Some r)
    /\ records (snd (complete s st)) = <[r := a']> (records st)
    /\ searchHistory (snd (complete s st)) = searchHistory st ++ [r]
    /\ analyticsEnabled (snd (complete s st)) = analyticsEnabled st
    /\ trace (snd (complete s st)) = trace st
    /\ Permutation (matchDetails a') (matchDetails a)
    /\ byDescendingRelevance (matchDetails a')
    /\ resultsFound a' = resultsFound a
    /\ filesScanned a' = filesScanned a
    /\ rankingFactors a' = rankingFactors a
    /\ query a' = query a
    /\ searchType a' = searchType a
    /\ toolDecisionReason a' = toolDecisionReason a.
Proof.
  intros Ha Hcb Hr. unfold complete. rewrite Ha, Hcb.
  unfold recordInHistory, logSearchResults, bind, tick, set_history, modify, get_state.
  rewrite update_run. cbn [records fst snd].
  rewrite list_lookup_alter_eq, Hr.
  cbn [fmap option_fmap option_map matchDetails with_executionTimeMs].
  rewrite (list_alter_insert_at _ _ _ _ Hr).
  destruct (0 <? Z.of_nat (List.length (matchDetails a))) eqn:Hlen.
  - rewrite update_run. cbn [records searchHistory analyticsEnabled trace fst snd ret].
    erewrite list_alter_insert_at
      by (apply list_lookup_insert_eq; eapply lookup_lt_Some, Hr).
    rewrite list_insert_insert_eq.
    eexists. split; [reflexivity|]. split; [reflexivity|].
    cbn. repeat split; [apply sort_Permutation|apply sort_descending].
  - cbn [records searchHistory analyticsEnabled trace fst snd ret].
    eexists. split; [reflexivity|]. split; [reflexivity|].
    cbn. apply Z.ltb_ge in Hlen.
    destruct (matchDetails a) as [|m ms]; [|cbn [List.length] in Hlen; lia].
    repeat split; constructor.
Qed.

(** X2. Completing an active session reorders the [matchDetails] of its
    record by descending relevance, in place: the entries after
    [complete()] are those before it, none added and none dropped, and
    the counters of the record are as they were. *)
Theorem complete_sorts_matchDetails (s : SearchSession) (r : nat) (st : State)
    (a : SearchAnalytics) :
  analytics s = Some r -> onComplete s = Some recordInHistory ->
  records st !! r = Some a ->
  exists a' : SearchAnalytics,
    records (snd (complete s st)) !! r = Some a'
    /\ Permutation (matchDetails a') (matchDetails a)
    /\ byDescendingRelevance (matchDetails a')
    /\ resultsFound a' = resultsFound a
    /\ filesScanned a' = filesScanned a
    /\ rankingFactors a' = rankingFactors a.
Proof.
  intros Ha Hcb Hr.
  destruct (complete_record s r st a Ha Hcb Hr)
    as (a' & _ & Hrec & _ & _ & _ & Hperm & Hsorted & Hfound & Hscanned & Hfactors & _).
  exists a'. rewrite Hrec. split; [|auto].
  apply list_lookup_insert_eq. eapply lookup_lt_Some, Hr.
Qed.

End Report.

Lemma complete_sorts_matchDetails_witness :
  let h := Sample.host Sample.todoWorld in
  let low := {| ma_filePath := "a.txt"; ma_lineNumber := Some 1; matchText := "x";
                contextBefore := None; contextAfter := None; relevanceScore := Some 0.6%Q;
                matchReason := "pattern match"; fileSize := 0; fileLastModified := 0 |} in
  let high := {| ma_filePath := "b.txt"; ma_lineNumber := Some 2; matchText := "y";
                 contextBefore := None; contextAfter := None; relevanceScore := Some 0.9%Q;
                 matchReason := "pattern match"; fileSize := 0; fileLastModified := 0 |} in
  let a := {| timestamp := 0; query := "q"; searchType := grep; targetPath := ".";
              sa_pattern := None; executionTimeMs := 0; resultsFound := 2; filesScanned := 1;
              matchDetails := [low; high]; searchStrategy := "tool-grep";
              rankingFactors := None; toolDecisionReason := None |} in
  let s := {| analytics := Some 0%nat; startTime := 0; onComplete := Some recordInHistory |} in
  let st := {| records := [a]; searchHistory := []; analyticsEnabled := true; trace := [];
               ticks := 0 |} in
  (matchDetails <$> records (snd (@complete h s st)) !! 0%nat) = Some [high; low]
  /\ exists a' : SearchAnalytics,
       records (snd (@complete h s st)) !! 0%nat = Some a'
       /\ Permutation (matchDetails a') (matchDetails a)
       /\ byDescendingRelevance (matchDetails a')
       /\ resultsFound a' = resultsFound a
       /\ filesScanned a' = filesScanned a
       /\ rankingFactors a' = rankingFactors a.
Proof.
  intros h low high a s st. split; [reflexivity|].
  exact (@complete_sorts_matchDetails h s 0%nat st a eq_refl eq_refl eq_refl).
Defined.

(** * More of the search *)

(** ** Strategy 3, the scan in JavaScript *)

Section Fallback.
Context `{Host}.

Lemma emit_then {A} (e : Event) (k : M A) (st : State) :
  (emit e ;; k) st
  = k {| records := records st; searchHistory := searchHistory st;
         analyticsEnabled := analyticsEnabled st;
         trace := trace st ++ [e]; ticks := ticks st |}.
Proof. reflexivity. Qed.

Lemma fileMatches_In (pat rel : string) (lines : list string) (index : Z) (m : GrepMatch) :
  In m (fileMatches pat rel lines index)
  <-> exists i : nat,
        lines !! i = Some (line m) /\ lineNumber m = index + Z.of_nat i + 1
        /\ regexp_test_i pat (line m) = true /\ filePath m = rel.
Proof.
  revert index. induction lines as [|l lines IH]; intros index; cbn [fileMatches].
  - split; [intros []|]. intros (i & Hi & _). rewrite lookup_nil in Hi. discriminate Hi.
  - rewrite in_app_iff, IH. split.
    + intros [Hhd|(i & Hi & Hn & Ht & Hp)].
      * destruct (regexp_test_i pat l) eqn:Ht; [|destruct Hhd].
        destruct Hhd as [<-|[]]. exists 0%nat. cbn. repeat split; [lia|exact Ht].
      * exists (S i). cbn [lookup list_lookup]. repeat split; [exact Hi|lia|exact Ht|exact Hp].
    + intros ([|i] & Hi & Hn & Ht & Hp).
      * left. cbn in Hi. injection Hi as ->. rewrite Ht. left.
        destruct m as [p n l']. cbn in *. subst. f_equal. lia.
      * right. exists i. cbn in Hi. repeat split; [exact Hi|lia|exact Ht|exact Hp].
Qed.

Lemma fileMatches_lower (pat rel : string) (lines : list string) (index : Z) :
  Forall (fun m => index < lineNumber m) (fileMatches pat rel lines index).
Proof.
  apply List.Forall_forall. intros m Hm. apply fileMatches_In in Hm as (i & _ & Hn & _). lia.
Qed.

Lemma fileMatches_ascending (pat rel : string) (lines : list string) (index : Z) :
  StronglySorted (fun a b => lineNumber a < lineNumber b) (fileMatches pat rel lines index).
Proof.
  revert index. induction lines as [|l lines IH]; intros index; cbn [fileMatches].
  - constructor.
  - destruct (regexp_test_i pat l); cbn [app]; [|apply IH].
    constructor; [apply IH|]. cbn [lineNumber]. apply fileMatches_lower.
Qed.

Lemma javascriptFallback_run (pat absolutePath : string) (files : list string)
    (acc : list GrepMatch) (st : State) :
  exists ms : list GrepMatch,
    fst (javascriptFallback pat absolutePath files acc st) = inr (acc ++ ms)
    /\ traced (map EvReadFile files) st (snd (javascriptFallback pat absolutePath files acc st))
    /\ forall m : GrepMatch,
         In m ms
         <-> exists (f : string) (i : nat),
               In f files /\ matchingLine pat f i (line m)
               /\ lineNumber m = Z.of_nat i + 1
               /\ filePath m = reportedPath absolutePath f.
Proof.
  revert acc st. induction files as [|f files IH]; intros acc st; cbn [javascriptFallback map].
  - exists []. rewrite app_nil_r. repeat split; cbn; [rewrite app_nil_r; reflexivity|intros []|].
    intros (f & i & [] & _).
  - rewrite !emit_then.
    set (st1 := {| records := records st; searchHistory := searchHistory st;
                   analyticsEnabled := analyticsEnabled st;
                   trace := trace st ++ [EvReadFile f]; ticks := ticks st |}).
    destruct (readFile f) as [e|content] eqn:Hread.
    + destruct (IH acc st1) as (ms & Hres & [Htr Hst] & Hin).
      exists ms. split; [exact Hres|]. split.
      * split; [rewrite Htr; cbn; rewrite <- app_assoc; reflexivity|exact Hst].
      * intros m. rewrite Hin. split.
        -- intros (f' & i & Hf' & Hrest). exists f', i. split; [right; exact Hf'|exact Hrest].
        -- intros (f' & i & [<-|Hf'] & Hrest); [|exists f', i; split; assumption].
           destruct Hrest as ((content & Hc & _) & _). congruence.
    + cbv zeta.
      destruct (IH (acc ++ fileMatches pat (JS.or_else (path_relative absolutePath f)
                                                      (path_basename f))
                                      (splitLines content) 0) st1)
        as (ms & Hres & [Htr Hst] & Hin).
      eexists. split; [rewrite Hres, <- app_assoc; reflexivity|]. split.
      * split; [rewrite Htr; cbn; rewrite <- app_assoc; reflexivity|exact Hst].
      * intros m. rewrite in_app_iff, Hin, fileMatches_In. split.
        -- intros [(i & Hi & Hn & Ht & Hp)|(f' & i & Hf' & Hrest)].
           ++ exists f, i. split; [left; reflexivity|]. split; [exists content; auto|].
              split; [lia|exact Hp].
           ++ exists f', i. split; [right; exact Hf'|exact Hrest].
        -- intros (f' & i & [<-|Hf'] & Hrest); [|right; exists f', i; split; assumption].
           destruct Hrest as ((content' & Hc & Hi & Ht) & Hn & Hp).
           left. exists i. rewrite Hread in Hc. injection Hc as <-.
           repeat split; [exact Hi|lia|exact Ht|exact Hp].
Qed.


(** X4. The scan reads every file of the stream once, in the order of
    the stream, readable or not, and touches nothing else: no process is
    started, and the telemetry is left as it was. *)
Theorem javascriptFallback_reads_each_file_once (pat absolutePath : string)
    (files : list string) (acc : list GrepMatch) (st : State) :
  traced (map EvReadFile files) st (snd (javascriptFallback pat absolutePath files acc st)).
Proof.
  destruct (javascriptFallback_run pat absolutePath files acc st) as (ms & _ & Htr & _).
  exact Htr.
Qed.

Lemma javascriptFallback_returns (pat absolutePath : string) (files : list string)
    (acc : list GrepMatch) (st : State) :
  exists (ms : list GrepMatch) (st' : State),
    javascriptFallback pat absolutePath files acc st = (inr ms, st').
Proof.
  destruct (javascriptFallback_run pat absolutePath files acc st) as (ms & Hres & _).
  destruct (javascriptFallback pat absolutePath files acc st) as [r st'].
  cbn [fst] in Hres. subst r. eauto.
Qed.

Lemma javascriptFallbackStrategy_throws (options : SearchOptions) (st : State) (e : JsError) :
  fst (javascriptFallbackStrategy options st) = inl e ->
  (regexp_ok (opt_pattern options) = false
   /\ e = mkSyntaxError (regexp_error (opt_pattern options)))
  \/ (regexp_ok (opt_pattern options) = true /\ globError (scannedStream options) = Some e).
Proof.
  unfold javascriptFallbackStrategy, scannedStream. cbv zeta. rewrite emit_then.
  unfold newRegExp, streamEnd.
  destruct (regexp_ok (opt_pattern options)); [|cbn; intros [= <-]; left; split; reflexivity].
  unfold bind at 1. unfold ret at 1. unfold bind at 1.
  match goal with |- context [javascriptFallback ?p ?a ?fs ?acc ?s] =>
    destruct (javascriptFallback_returns p a fs acc s) as (ms & st' & ->) end.
  destruct (globError _) as [e'|]; cbn; [|discriminate].
  intros [= <-]. right. split; reflexivity.
Qed.

(** X5. The only errors that a search of a directory lets out are those
    of strategy 3: the [SyntaxError] of a pattern that [RegExp] refuses,
    and an error of the stream of files. A command that is missing,
    fails to start or exits with an error never fails the search. *)
Theorem performGrepSearch_error_sources (options : SearchOptions) (st : State) (e : JsError) :
  fst (performGrepSearch options st) = inl e ->
  (regexp_ok (opt_pattern options) = false
   /\ e = mkSyntaxError (regexp_error (opt_pattern options)))
  \/ (regexp_ok (opt_pattern options) = true /\ globError (scannedStream options) = Some e).
Proof.
  unfold performGrepSearch, try_catch. unfold bind at 1.
  destruct (gitGrepStrategy_total options st) as ([matches|] & st1 & ->);
    [cbn; discriminate|].
  unfold bind at 1.
  destruct (systemGrepStrategy_total options st1) as ([matches|] & st2 & ->);
    [cbn; discriminate|].
  pose proof (javascriptFallbackStrategy_throws options st2) as Hjs.
  destruct (javascriptFallbackStrategy options st2) as [[e'|ms] st3]; cbn in *;
    [|discriminate].
  intros [= <-]. apply Hjs. reflexivity.
Qed.

End Fallback.

Lemma performGrepSearch_error_sources_witness :
  let h := Sample.host Sample.todoWorld in
  let options := {| opt_pattern := "("; opt_path := "/ws"; opt_include := None |} in
  let e := mkSyntaxError "Invalid regular expression: /(/" in
  fst (@performGrepSearch h options (Sample.initial false)) = inl e
  /\ ((@regexp_ok h (opt_pattern options) = false
       /\ e = mkSyntaxError (@regexp_error h (opt_pattern options)))
      \/ (@regexp_ok h (opt_pattern options) = true
          /\ globError (@scannedStream h options) = Some e)).
Proof.
  intros h options e. split; [reflexivity|].
  exact (@performGrepSearch_error_sources h options (Sample.initial false) e eq_refl).
Defined.

(** * What an active session records *)

Lemma bind_run {A B} (m : M A) (k : A -> M B) (st : State) (a : A) :
  fst (m st) = inr a -> bind m k st = k a (snd (m st)).
Proof. unfold bind. destruct (m st) as [[e|a'] st']; cbn; intros [= ->]; reflexivity. Qed.

Lemma seq_Silent {B} (m : M unit) (k : M B) (st : State) :
  Silent m -> bind m (fun _ => k) st = k (snd (m st)).
Proof. intros Hm. apply (bind_run m (fun _ => k) st tt), Hm. Qed.

Lemma rewrites_lookup (r : nat) (a a' : SearchAnalytics) (st st' : State) :
  rewrites r a a' st st' -> records st' !! r = Some a'.
Proof.
  intros (Ha & -> & _). apply list_lookup_insert_eq. eapply lookup_lt_Some, Ha.
Qed.

Lemma rewrites_trans (r : nat) (a a' a'' : SearchAnalytics) (st st' st'' : State) :
  rewrites r a a' st st' -> rewrites r a' a'' st' st'' -> rewrites r a a'' st st''.
Proof.
  intros (Ha & Hr & Hh & Hen) (_ & Hr' & Hh' & Hen').
  repeat split; [exact Ha| |congruence|congruence].
  rewrite Hr', Hr. apply list_insert_insert_eq.
Qed.

Lemma rewrites_onlyTrace (r : nat) (a : SearchAnalytics) (st st' : State) :
  records st !! r = Some a -> onlyTrace st st' -> rewrites r a a st st'.
Proof.
  intros Ha (Hr & Hh & Hen & _). repeat split; [exact Ha| |exact Hh|exact Hen].
  rewrite Hr. symmetry. apply list_insert_id, Ha.
Qed.

Lemma rewrites_update (r : nat) (f : SearchAnalytics -> SearchAnalytics) (a : SearchAnalytics)
    (st : State) :
  records st !! r = Some a -> rewrites r a (f a) st (snd (update r f st)).
Proof.
  intros Ha. rewrite update_run. cbn [snd]. repeat split; [exact Ha|]. cbn [records].
  apply list_alter_insert_at, Ha.
Qed.

Section Recorded.
Context `{Host}.
Variable s : SearchSession.
Variable r : nat.
Hypothesis Hs : analytics s = Some r.

Lemma rewrites_setFilesScanned (n : Z) (a : SearchAnalytics) (st : State) :
  records st !! r = Some a ->
  rewrites r a (with_filesScanned n a) st (snd (setFilesScanned s n st)).
Proof. intros Ha. unfold setFilesScanned. rewrite Hs. apply rewrites_update, Ha. Qed.

Lemma rewrites_addMatch (m : MatchAnalytics) (a : SearchAnalytics) (st : State) :
  records st !! r = Some a ->
  rewrites r a (with_resultsFound (fun n => n + 1) (with_matchDetails (fun ms => ms ++ [m]) a))
    st (snd (addMatch s m st)).
Proof.
  intros Ha. unfold addMatch. rewrite Hs.
  rewrite seq_Silent by apply Silent_update.
  pose proof (rewrites_update r (with_matchDetails (fun ms => ms ++ [m])) a st Ha) as H1.
  eapply rewrites_trans; [exact H1|].
  exact (rewrites_update r (with_resultsFound (fun n => n + 1)) _ _
           (rewrites_lookup _ _ _ _ _ H1)).
Qed.

Lemma rewrites_addRankingFactor (f : RankingFactor) (a : SearchAnalytics) (st : State) :
  records st !! r = Some a ->
  rewrites r a (with_rankingFactors (default [] (rankingFactors a) ++ [f]) a)
    st (snd (addRankingFactor s f st)).
Proof.
  intros Ha. unfold addRankingFactor. rewrite Hs.
  rewrite seq_Silent by apply Silent_update.
  pose proof (rewrites_update r
                (fun a => with_rankingFactors (default [] (rankingFactors a)) a) a st Ha) as H1.
  cbv beta in H1. eapply rewrites_trans; [exact H1|].
  exact (rewrites_update r
           (fun a => with_rankingFactors (default [] (rankingFactors a) ++ [f]) a) _ _
           (rewrites_lookup _ _ _ _ _ H1)).
Qed.

(** One entry of telemetry per match. *)
Lemma createMatchAnalytics_run (m : GrepMatch) (pat dir : string) (st : State) :
  regexp_ok pat = true ->
  exists ma : MatchAnalytics,
    fst (createMatchAnalytics m pat dir st) = inr ma
    /\ mirrored ma = mirrorOf m
    /\ relevanceScore ma = Some (calculateRelevanceScore m pat).
Proof.
  intros Hok. unfold createMatchAnalytics, getMatchReason, newRegExp. rewrite Hok. run.
  destruct (stat _); [eexists; repeat split|].
  destruct (readFile _); eexists; repeat split.
Qed.

Lemma mirror_loop (pat dir : string) (ms : list GrepMatch) (a : SearchAnalytics) (st : State) :
  regexp_ok pat = true ->
  records st !! r = Some a ->
  let loop :=
    for_each ms (fun m =>
      matchAnalytics <- createMatchAnalytics m pat dir ;; addMatch s matchAnalytics) in
  exists details : list MatchAnalytics,
    rewrites r a
      (with_resultsFound (fun n => n + Z.of_nat (List.length ms))
         (with_matchDetails (fun d => d ++ details) a)) st (snd (loop st))
    /\ map mirrored details = map mirrorOf ms
    /\ Forall2 (fun d m => relevanceScore d = Some (calculateRelevanceScore m pat)) details ms.
Proof.
  intros Hok. cbv zeta. revert a st. induction ms as [|m ms IH]; intros a st Ha.
  - exists []. cbn [for_each ret snd List.length map]. split; [|split; [reflexivity|constructor]].
    replace (with_resultsFound _ _) with a.
    + apply rewrites_onlyTrace; [exact Ha|reflexivity].
    + destruct a. unfold with_resultsFound, with_matchDetails. cbn. f_equal; [lia|].
      symmetry. apply app_nil_r.
  - cbn [for_each].
    destruct (createMatchAnalytics_run m pat dir st Hok) as (ma & Hma & Hmir & Hrel).
    pose proof (onlyTrace_createMatchAnalytics m pat dir st) as Hst1.
    set (st1 := snd (createMatchAnalytics m pat dir st)) in *.
    assert (rewrites r a a st st1) as H01 by (apply rewrites_onlyTrace; assumption).
    pose proof (rewrites_addMatch ma a st1 (rewrites_lookup _ _ _ _ _ H01)) as H12.
    set (st2 := snd (addMatch s ma st1)) in *.
    destruct (IH _ st2 (rewrites_lookup _ _ _ _ _ H12)) as (details & H23 & Hmirs & Hrels).
    exists (ma :: details). split; [|split].
    + rewrite seq_Silent.
      2:{ apply Silent_bind; [apply NoThrow_createMatchAnalytics, Hok|].
          intros x. apply Silent_addMatch. }
      rewrite (bind_run _ _ st ma Hma). fold st1. fold st2.
      eapply rewrites_trans; [exact H01|]. eapply rewrites_trans; [exact H12|].
      match goal with |- rewrites _ _ ?x _ _ =>
        match type of H23 with rewrites _ _ ?y _ _ => replace x with y; [exact H23|] end end.
      destruct a. unfold with_resultsFound, with_matchDetails. cbn. f_equal.
      * rewrite Nat2Z.inj_succ. lia.
      * rewrite <- app_assoc. reflexivity.
    + cbn [map]. rewrite Hmir, Hmirs. reflexivity.
    + constructor; assumption.
Qed.

Lemma calculatePatternComplexity_bounds (pat : string) :
  (0 <= calculatePatternComplexity pat <= 1)%Q.
Proof.
  unfold calculatePatternComplexity. cbv zeta. split; [|apply Q.le_min_r].
  apply Q.min_glb; [|discriminate].
  assert (0 <= Qmin (inject_Z (countRegexChars pat) * 0.1) 0.5)%Q as Hre.
  { apply Q.min_glb; [|discriminate]. apply Qmult_le_0_compat; [|discriminate].
    rewrite <- (Zle_Qle 0). apply countRegexChars_nonneg. }
  assert (0 <= Qmin (inject_Z (JS.length pat) * 0.01) 0.3)%Q as Hlen.
  { apply Q.min_glb; [|discriminate]. apply Qmult_le_0_compat; [|discriminate].
    rewrite <- (Zle_Qle 0). unfold JS.length. lia. }
  destruct (0 <? countRegexChars pat), (negb _ && negb _), (_ || _); lra.
Qed.

(** The factors that [addSearchRankingFactors] adds, in order. *)
Lemma addSearchRankingFactors_run (options : SearchOptions) (ms : list GrepMatch) (n : Z)
    (a : SearchAnalytics) (st : State) :
  records st !! r = Some a ->
  0 <= n ->
  exists fs : list RankingFactor,
    rewrites r a (with_rankingFactors (default [] (rankingFactors a) ++ fs) a) st
      (snd (addSearchRankingFactors s options ms n st))
    /\ map factor fs
       = ["Pattern Complexity"; "Search Scope"; "Result Density"]
         ++ (if JS.truthy_opt (opt_include options) then ["File Filter"] else [])
    /\ Forall weighted fs.
Proof.
  intros Ha Hn. unfold addSearchRankingFactors, isActive. rewrite Hs. cbn [negb]. cbv zeta.
  rewrite seq_Silent by apply Silent_addRankingFactor.
  match goal with |- context [addRankingFactor s ?f st] =>
    pose proof (rewrites_addRankingFactor f a st Ha) as H1; set (f1 := f) in *;
    set (st1 := snd (addRankingFactor s f1 st)) in * end.
  rewrite seq_Silent by apply Silent_addRankingFactor.
  match goal with |- context [addRankingFactor s ?f st1] =>
    pose proof (rewrites_addRankingFactor f _ st1 (rewrites_lookup _ _ _ _ _ H1)) as H2;
    set (f2 := f) in *; set (st2 := snd (addRankingFactor s f2 st1)) in * end.
  rewrite seq_Silent by apply Silent_addRankingFactor.
  match goal with |- context [addRankingFactor s ?f st2] =>
    pose proof (rewrites_addRankingFactor f _ st2 (rewrites_lookup _ _ _ _ _ H2)) as H3;
    set (f3 := f) in *; set (st3 := snd (addRankingFactor s f3 st2)) in * end.
  assert (weighted f1) as W1.
  { split; [reflexivity|apply calculatePatternComplexity_bounds]. }
  assert (weighted f2) as W2.
  { split; [reflexivity|]. cbn [value f2].
    destruct (n >? 100); [discriminate|].
    apply Qle_shift_div_l; [reflexivity|]. rewrite Qmult_0_l, <- (Zle_Qle 0). exact Hn. }
  assert (weighted f3) as W3.
  { split; [reflexivity|]. cbn [value f3].
    destruct (n >? 0) eqn:Hpos; [|discriminate].
    apply Qle_shift_div_l.
    - rewrite <- (Zlt_Qlt 0). lia.
    - rewrite Qmult_0_l, <- (Zle_Qle 0). lia. }
  pose proof (rewrites_trans _ _ _ _ _ _ _ (rewrites_trans _ _ _ _ _ _ _ H1 H2) H3) as H13.
  destruct (JS.truthy_opt (opt_include options)).
  - match goal with |- context [addRankingFactor s ?f st3] =>
      pose proof (rewrites_addRankingFactor f _ st3 (rewrites_lookup _ _ _ _ _ H13)) as H4;
      set (f4 := f) in * end.
    exists [f1; f2; f3; f4]. split; [|split; [reflexivity|]].
    + pose proof (rewrites_trans _ _ _ _ _ _ _ H13 H4) as H14.
      match goal with |- rewrites _ _ ?x _ _ =>
        match type of H14 with rewrites _ _ ?y _ _ => replace x with y; [exact H14|] end end.
      unfold with_rankingFactors, id. cbn. rewrite <- !app_assoc. reflexivity.
    + assert (weighted f4) as W4 by (split; cbn; [reflexivity|discriminate]).
      repeat (apply List.Forall_cons; [assumption|]). apply List.Forall_nil.
  - exists [f1; f2; f3]. split; [|split; [reflexivity|]].
    + cbn [ret snd].
      match goal with |- rewrites _ _ ?x _ _ =>
        match type of H13 with rewrites _ _ ?y _ _ => replace x with y; [exact H13|] end end.
      unfold with_rankingFactors, id. cbn. rewrite <- !app_assoc. reflexivity.
    + repeat (apply List.Forall_cons; [assumption|]). apply List.Forall_nil.
Qed.

End Recorded.

Section Mirror.
Context `{Host}.

(** X6. With an active session, the search of a directory returns what
    the plain search returns, and the record of the session gains one
    entry per match, in the order of the matches, each repeating the
    path, the line number and the text of its match and carrying its
    relevance score; [resultsFound] grows by the number of matches, while
    [filesScanned] is replaced by the count of this directory. No other
    record, and nothing of the history, changes. *)
Theorem performGrepSearchWithAnalytics_mirrors (options : SearchOptions) (s : SearchSession)
    (r : nat) (a : SearchAnalytics) (st : State) (ms : list GrepMatch) :
  analytics s = Some r ->
  records st !! r = Some a ->
  regexp_ok (opt_pattern options) = true ->
  fst (performGrepSearch options st) = inr ms ->
  exists (details : list MatchAnalytics) (a' : SearchAnalytics),
    fst (performGrepSearchWithAnalytics options s st) = inr ms
    /\ rewrites r a a' st (snd (performGrepSearchWithAnalytics options s st))
    /\ matchDetails a' = matchDetails a ++ details
    /\ map mirrored details = map mirrorOf ms
    /\ Forall2 (fun d m => relevanceScore d
                           = Some (calculateRelevanceScore m (opt_pattern options)))
         details ms
    /\ resultsFound a' = resultsFound a + Z.of_nat (List.length ms)
    /\ filesScanned a' = Z.of_nat (List.length (globFiles (countedStream options))).
Proof.
  intros Hs Ha Hok Hrun.
  pose proof (onlyTrace_performGrepSearch options st) as H01.
  unfold performGrepSearchWithAnalytics, try_catch, isActive. rewrite Hs. cbv zeta.
  rewrite (bind_run _ _ st ms Hrun).
  set (st1 := snd (performGrepSearch options st)) in *.
  rewrite seq_Silent.
  2:{ pose proof (Silent_analytics_block s options ms) as Hblock.
      unfold isActive in Hblock. apply Hblock, Hok. }
  cbn [ret fst snd].
  rewrite emit_then.
  match goal with |- context [bind (setFilesScanned s ?n) _ ?st2'] =>
    set (st2 := st2'); set (n0 := n) end.
  assert (rewrites r a a st st2) as H02.
  { apply rewrites_onlyTrace; [exact Ha|]. destruct H01 as (? & ? & ? & ?). repeat split; assumption. }
  rewrite seq_Silent by apply Silent_setFilesScanned.
  pose proof (rewrites_setFilesScanned s r Hs n0 a st2 (rewrites_lookup _ _ _ _ _ H02)) as H23.
  set (st3 := snd (setFilesScanned s n0 st2)) in *.
  rewrite seq_Silent.
  2:{ apply Silent_for_each. intros m _.
      apply Silent_bind; [apply NoThrow_createMatchAnalytics, Hok|intros x; apply Silent_addMatch]. }
  destruct (mirror_loop s r Hs (opt_pattern options) (opt_path options) ms _ st3 Hok
              (rewrites_lookup _ _ _ _ _ H23)) as (details & H34 & Hmir & Hrel).
  cbv zeta in H34.
  match type of H34 with rewrites _ _ _ _ ?st4' => set (st4 := st4') in * end.
  destruct (addSearchRankingFactors_run s r Hs options ms n0 _ st4
              (rewrites_lookup _ _ _ _ _ H34) (Nat2Z.is_nonneg _)) as (fs & H45 & _).
  exists details. eexists. split; [reflexivity|].
  split; [exact (rewrites_trans _ _ _ _ _ _ _ H02
                   (rewrites_trans _ _ _ _ _ _ _ H23 (rewrites_trans _ _ _ _ _ _ _ H34 H45)))|].
  split; [reflexivity|]. split; [exact Hmir|]. split; [exact Hrel|].
  split; reflexivity.
Qed.

(** X7. For an active session, [addSearchRankingFactors] appends to the
    ranking factors of the record, in this order, [Pattern Complexity],
    [Search Scope] and [Result Density], and [File Filter] after them
    exactly when an include filter was given. For a file count that is
    not negative, the impact of each is its value times its weight and no
    value is negative. Matches and counters are left as they were. *)
Theorem addSearchRankingFactors_appends (options : SearchOptions) (s : SearchSession)
    (r : nat) (a : SearchAnalytics) (st : State) (ms : list GrepMatch) (n : Z) :
  analytics s = Some r ->
  records st !! r = Some a ->
  0 <= n ->
  exists (fs : list RankingFactor) (a' : SearchAnalytics),
    rewrites r a a' st (snd (addSearchRankingFactors s options ms n st))
    /\ rankingFactors a' = Some (default [] (rankingFactors a) ++ fs)
    /\ map factor fs
       = ["Pattern Complexity"; "Search Scope"; "Result Density"]
         ++ (if JS.truthy_opt (opt_include options) then ["File Filter"] else [])
    /\ Forall weighted fs
    /\ matchDetails a' = matchDetails a
    /\ resultsFound a' = resultsFound a
    /\ filesScanned a' = filesScanned a.
Proof.
  intros Hs Ha Hn.
  destruct (addSearchRankingFactors_run s r Hs options ms n a st Ha Hn) as (fs & Hrw & Hnames & Hw).
  exists fs. eexists. split; [exact Hrw|]. repeat split; assumption.
Qed.

End Mirror.

Lemma performGrepSearchWithAnalytics_mirrors_witness :
  let h := Sample.host Sample.todoWorld in
  let a := {| timestamp := 0; query := "TODO"; searchType := grep; targetPath := ".";
              sa_pattern := None; executionTimeMs := 0; resultsFound := 0; filesScanned := 0;
              matchDetails := []; searchStrategy := "tool-grep";
              rankingFactors := None; toolDecisionReason := None |} in
  let s := {| analytics := Some 0%nat; startTime := 0; onComplete := Some recordInHistory |} in
  let st := {| records := [a]; searchHistory := []; analyticsEnabled := true; trace := [];
               ticks := 0 |} in
  let ms := [ {| filePath := "a.txt"; lineNumber := 3; line := "// TODO fix" |} ] in
  (analytics s = Some 0%nat /\ records st !! 0%nat = Some a
   /\ @regexp_ok h (opt_pattern Sample.todoOptions) = true
   /\ fst (@performGrepSearch h Sample.todoOptions st) = inr ms)
  /\ exists (details : list MatchAnalytics) (a' : SearchAnalytics),
       fst (@performGrepSearchWithAnalytics h Sample.todoOptions s st) = inr ms
       /\ rewrites 0 a a' st (snd (@performGrepSearchWithAnalytics h Sample.todoOptions s st))
       /\ matchDetails a' = matchDetails a ++ details
       /\ map mirrored details = map mirrorOf ms
       /\ Forall2 (fun d m => relevanceScore d
                              = Some (@calculateRelevanceScore h m
                                        (opt_pattern Sample.todoOptions)))
            details ms
       /\ resultsFound a' = resultsFound a + Z.of_nat (List.length ms)
       /\ filesScanned a'
          = Z.of_nat (List.length (globFiles (@countedStream h Sample.todoOptions))).
Proof.
  intros h a s st ms.
  split; [repeat split|].
  exact (@performGrepSearchWithAnalytics_mirrors h Sample.todoOptions s 0%nat a st ms
           eq_refl eq_refl eq_refl eq_refl).
Defined.

Lemma addSearchRankingFactors_appends_witness :
  let h := Sample.host Sample.todoWorld in
  let a := {| timestamp := 0; query := "TODO"; searchType := grep; targetPath := ".";
              sa_pattern := None; executionTimeMs := 0; resultsFound := 1; filesScanned := 2;
              matchDetails := []; searchStrategy := "tool-grep";
              rankingFactors := None; toolDecisionReason := None |} in
  let s := {| analytics := Some 0%nat; startTime := 0; onComplete := Some recordInHistory |} in
  let st := {| records := [a]; searchHistory := []; analyticsEnabled := true; trace := [];
               ticks := 0 |} in
  let options := {| opt_pattern := "TODO"; opt_path := "/ws"; opt_include := Some "*.txt" |} in
  let ms := [ {| filePath := "a.txt"; lineNumber := 3; line := "// TODO fix" |} ] in
  (analytics s = Some 0%nat /\ records st !! 0%nat = Some a /\ 0 <= 2)
  /\ exists (fs : list RankingFactor) (a' : SearchAnalytics),
       rewrites 0 a a' st (snd (@addSearchRankingFactors h s options ms 2 st))
       /\ rankingFactors a' = Some (default [] (rankingFactors a) ++ fs)
       /\ map factor fs
          = ["Pattern Complexity"; "Search Scope"; "Result Density"]
            ++ (if JS.truthy_opt (opt_include options) then ["File Filter"] else [])
       /\ Forall weighted fs
       /\ matchDetails a' = matchDetails a
       /\ resultsFound a' = resultsFound a
       /\ filesScanned a' = filesScanned a.
Proof.
  intros h a s st options ms.
  split; [repeat split; lia|].
  exact (@addSearchRankingFactors_appends h options s 0%nat a st ms 2 eq_refl eq_refl
           ltac:(lia)).
Defined.

(** The record of the scenario after the search of its directory. *)
Example todo_recorded :
  let h := Sample.host Sample.todoWorld in
  let a := {| timestamp := 0; query := "TODO"; searchType := grep; targetPath := ".";
              sa_pattern := None; executionTimeMs := 0; resultsFound := 0; filesScanned := 0;
              matchDetails := []; searchStrategy := "tool-grep";
              rankingFactors := None; toolDecisionReason := None |} in
  let s := {| analytics := Some 0%nat; startTime := 0; onComplete := Some recordInHistory |} in
  let st := {| records := [a]; searchHistory := []; analyticsEnabled := true; trace := [];
               ticks := 0 |} in
  let st' := snd (@performGrepSearchWithAnalytics h Sample.todoOptions s st) in
  (resultsFound <$> records st' !! 0%nat) = Some 1
  /\ (filesScanned <$> records st' !! 0%nat) = Some 2
  /\ (map mirrored <$> (matchDetails <$> records st' !! 0%nat))
     = Some [("a.txt", Some 3, "// TODO fix")]
  /\ (fmap (map factor) <$> (rankingFactors <$> records st' !! 0%nat))
     = Some (Some ["Pattern Complexity"; "Search Scope"; "Result Density"]).
Proof. vm_compute. repeat split. Qed.

(** * The replies of the tool *)

(** ** Results, whatever the state *)

Lemma Returns_ret {A} (a : A) : Returns (ret a) a.
Proof. intros st. reflexivity. Qed.

Lemma Throws_throw {A} (e : JsError) : Throws (@throw A e) e.
Proof. intros st. reflexivity. Qed.

Lemma Returns_bind {A B} (m : M A) (k : A -> M B) (a : A) (v : B) :
  Returns m a -> Returns (k a) v -> Returns (bind m k) v.
Proof. intros Hm Hk st. rewrite (bind_run m k st a (Hm st)). apply Hk. Qed.

Lemma Throws_bind {A B} (m : M A) (k : A -> M B) (a : A) (e : JsError) :
  Returns m a -> Throws (k a) e -> Throws (bind m k) e.
Proof. intros Hm Hk st. rewrite (bind_run m k st a (Hm st)). apply Hk. Qed.

Lemma Throws_bind_l {A B} (m : M A) (k : A -> M B) (e : JsError) :
  Throws m e -> Throws (bind m k) e.
Proof.
  intros Hm st. specialize (Hm st). unfold bind.
  destruct (m st) as [[e'|a] st']; cbn [fst] in *; congruence.
Qed.

Lemma Returns_bind_post {A B} (m : M A) (P : A -> Prop) (k : A -> M B) (v : B) :
  (forall st, exists a, fst (m st) = inr a /\ P a) ->
  (forall a, P a -> Returns (k a) v) -> Returns (bind m k) v.
Proof.
  intros Hm Hk st. destruct (Hm st) as (a & Ha & HP).
  rewrite (bind_run m k st a Ha). apply Hk, HP.
Qed.

Lemma Returns_after {A B} (m : M A) (k : M B) (v : B) :
  NoThrow m -> Returns k v -> Returns (bind m (fun _ => k)) v.
Proof.
  intros Hm Hk. apply Returns_bind_post with (P := fun _ => True); [|auto].
  intros st. destruct (Hm st) as [a Ha]. eauto.
Qed.

Lemma Returns_try_catch {A} (m : M A) (h : JsError -> M A) (v : A) :
  Returns m v -> Returns (try_catch m h) v.
Proof.
  intros Hm st. specialize (Hm st). unfold try_catch.
  destruct (m st) as [[e|a] st']; cbn [fst] in *; congruence.
Qed.

Lemma Returns_caught {A} (m : M A) (h : JsError -> M A) (e : JsError) (v : A) :
  Throws m e -> Returns (h e) v -> Returns (try_catch m h) v.
Proof.
  intros Hm Hh st. specialize (Hm st). unfold try_catch.
  destruct (m st) as [[e'|a] st']; cbn [fst] in *; [|discriminate].
  injection Hm as ->. apply Hh.
Qed.

Lemma Throws_caught {A} (m : M A) (h : JsError -> M A) (e e' : JsError) :
  Throws m e -> Throws (h e) e' -> Throws (try_catch m h) e'.
Proof.
  intros Hm Hh st. specialize (Hm st). unfold try_catch.
  destruct (m st) as [[e0|a] st']; cbn [fst] in *; [|discriminate].
  injection Hm as ->. apply Hh.
Qed.

Section Replies.
Context `{Host}.

(** ** The path *)

Lemma resolveAndValidatePath_accepts (params : GrepToolParams) :
  acceptsPath params ->
  Returns (resolveAndValidatePath (path params))
          (if JS.truthy_opt (path params) then Some (targetOf params) else None).
Proof.
  unfold acceptsPath, resolveAndValidatePath, targetOf. cbv zeta.
  intros [Hnone|[Hin Hdir]].
  - rewrite Hnone. apply Returns_ret.
  - destruct (JS.truthy_opt (path params)); [|apply Returns_ret]. cbn [negb].
    rewrite Hin, Hdir. intros st. reflexivity.
Qed.

Lemma validateToolParams_accepted (params : GrepToolParams) :
  accepted params -> Returns (validateToolParams params) None.
Proof.
  intros (Hschema & Hok & Hpath). unfold validateToolParams. cbv zeta.
  rewrite Hschema, Hok. cbn [negb].
  destruct (JS.truthy_opt (path params)) eqn:Htruthy; [|apply Returns_ret].
  apply Returns_try_catch. eapply Returns_bind; [|apply Returns_ret].
  apply resolveAndValidatePath_accepts, Hpath.
Qed.

(** X12. For a path that resolves inside the workspace, validation
    accepts a directory and otherwise answers with these messages: a path
    that is not a directory, and a path for which [stat] fails with
    [ENOENT] or with an error that carries no code, is reported as a
    failure to access its stats (the original error is quoted after the
    colon); every other failure of [stat] is reported as [Path does not
    exist]. *)
Theorem validateToolParams_path_message (params : GrepToolParams) :
  JS.truthy_opt (schemaValidate params) = false ->
  regexp_ok (pattern params) = true ->
  JS.truthy_opt (path params) = true ->
  isPathWithinWorkspace (targetOf params) = true ->
  Returns (validateToolParams params)
    match statSync (targetOf params) with
    | StatDirectory => None
    | StatNotDirectory =>
        Some ("Failed to access path stats for " +:+ targetOf params
              +:+ ": Error: Path is not a directory: " +:+ targetOf params)
    | StatThrows e =>
        Some (if isNodeError e && negb (bool_decide (errCode e = Some "ENOENT"))
              then "Path does not exist: " +:+ targetOf params
              else "Failed to access path stats for " +:+ targetOf params +:+ ": "
                   +:+ errorToString e)
    end.
Proof.
  intros Hschema Hok Hpath Hin.
  unfold validateToolParams, resolveAndValidatePath, targetOf in *. cbv zeta.
  rewrite Hschema, Hok, Hpath, Hin. cbn [negb].
  set (target := path_resolve getTargetDir (default "" (path params))).
  destruct (statSync target) as [| |e]; intros st.
  - reflexivity.
  - unfold try_catch, bind, emit, modify, throw, ret.
    cbn [isNodeError mkError errCode andb fst getErrorMessage errMessage].
    unfold errorToString. cbn [mkError errMessage errName].
    rewrite truthy_append by reflexivity. reflexivity.
  - unfold try_catch, bind, emit, modify, throw, ret.
    destruct (isNodeError e && negb (bool_decide (errCode e = Some "ENOENT"))); reflexivity.
Qed.

(** ** One directory *)

Lemma performGrepSearchWithAnalytics_Returns (options : SearchOptions) (s : SearchSession)
    (ms : list GrepMatch) :
  regexp_ok (opt_pattern options) = true ->
  Returns (performGrepSearch options) ms ->
  Returns (performGrepSearchWithAnalytics options s) ms.
Proof.
  intros Hok Hms. unfold performGrepSearchWithAnalytics. cbv zeta.
  apply Returns_try_catch. eapply Returns_bind; [exact Hms|].
  apply Returns_after; [|apply Returns_ret].
  apply Silent_NoThrow.
  destruct (isActive s); [apply Silent_analytics_block, Hok|apply Silent_ret].
Qed.

Lemma performGrepSearchWithAnalytics_Throws (options : SearchOptions) (s : SearchSession)
    (e : JsError) :
  Throws (performGrepSearch options) e ->
  Throws (performGrepSearchWithAnalytics options s) e.
Proof.
  intros He. unfold performGrepSearchWithAnalytics. cbv zeta.
  eapply Throws_caught; [apply Throws_bind_l, He|apply Throws_throw].
Qed.

(** ** The directories, one after the other *)

Lemma searchDirectoriesLoop_Returns (params : GrepToolParams) (s : SearchSession)
    (multiple : bool) (found : string -> list GrepMatch) (dirs : list string)
    (acc : list GrepMatch) :
  regexp_ok (pattern params) = true ->
  (forall d, In d dirs -> Returns (performGrepSearch (optionsFor params d)) (found d)) ->
  Returns (searchDirectoriesLoop params s multiple dirs acc)
          (acc ++ concat (map (aggregated multiple found) dirs)).
Proof.
  intros Hok. revert acc. induction dirs as [|d dirs IH]; intros acc Hfound;
    cbn [searchDirectoriesLoop map concat].
  - rewrite app_nil_r. apply Returns_ret.
  - eapply Returns_bind.
    + apply performGrepSearchWithAnalytics_Returns; [exact Hok|].
      apply (Hfound d). left. reflexivity.
    + cbv zeta. rewrite app_assoc. unfold aggregated at 1.
      destruct multiple; apply IH; intros d' Hd'; apply Hfound; right; exact Hd'.
Qed.

Lemma searchDirectoriesLoop_Throws (params : GrepToolParams) (s : SearchSession)
    (multiple : bool) (found : string -> list GrepMatch) (before after : list string)
    (d : string) (e : JsError) (acc : list GrepMatch) :
  regexp_ok (pattern params) = true ->
  (forall d', In d' before -> Returns (performGrepSearch (optionsFor params d')) (found d')) ->
  Throws (performGrepSearch (optionsFor params d)) e ->
  Throws (searchDirectoriesLoop params s multiple (before ++ d :: after) acc) e.
Proof.
  intros Hok Hfound He. revert acc. induction before as [|d' before IH]; intros acc;
    cbn [searchDirectoriesLoop app].
  - apply Throws_bind_l, performGrepSearchWithAnalytics_Throws, He.
  - eapply Throws_bind.
    + apply performGrepSearchWithAnalytics_Returns; [exact Hok|].
      apply (Hfound d'). left. reflexivity.
    + cbv zeta. apply IH. intros d0 Hd0. apply Hfound. right. exact Hd0.
Qed.

(** ** The orchestrator, once the parameters are accepted *)

(** [execute] on accepted parameters: the session is started, the
    parameters pass, and what is left is the guarded block. *)
Ltac accepted_execute Hacc s Hs :=
  unfold execute;
  apply Returns_bind_post with (P := started);
    [let st0 := fresh "st" in
     let Hs0 := fresh "Hs" in
     intros st0;
     match goal with |- context [startSearch ?q ?ty ?target] =>
       destruct (startSearch_started q target ty st0) as (? & ? & -> & Hs0 & _)
     end;
     eexists; split; [reflexivity|exact Hs0]
    |intros s Hs];
  apply Returns_after; [apply Silent_NoThrow, Silent_setPattern|];
  eapply Returns_bind; [apply validateToolParams_accepted, Hacc|];
  cbn [JS.truthy_opt].

Lemma directories_resolved (params : GrepToolParams) :
  match (if JS.truthy_opt (path params) then Some (targetOf params) else None) with
  | None => getDirectories
  | Some d => [d]
  end = searchDirectoriesOf params.
Proof. unfold searchDirectoriesOf. destruct (JS.truthy_opt (path params)); reflexivity. Qed.

Lemma location_resolved (params : GrepToolParams) :
  match (if JS.truthy_opt (path params) then Some (targetOf params) else None) with
  | None =>
      if Z.of_nat (List.length getDirectories) >? 1
      then "across " +:+ JS.ofZ (Z.of_nat (List.length getDirectories))
           +:+ " workspace directories"
      else "in the workspace directory"
  | Some _ =>
      "in path " +:+ JS.dquote +:+ JS.or_else (default "" (path params)) "." +:+ JS.dquote
  end = locationOf params.
Proof.
  unfold locationOf. destruct (JS.truthy_opt (path params)) eqn:Hp; [|reflexivity].
  destruct (path params) as [p|]; [|discriminate Hp]. cbn [JS.truthy_opt] in Hp.
  change (default "" (Some p)) with p. unfold JS.or_else. rewrite Hp. reflexivity.
Qed.

(** X8. On accepted parameters, when the search of every directory in
    scope returns no match, the tool replies that no match was found,
    naming the pattern, where the search took place and the include
    filter if one was given. *)
Theorem execute_no_matches (params : GrepToolParams) :
  accepted params ->
  (forall d, In d (searchDirectoriesOf params) ->
             Returns (performGrepSearch (optionsFor params d)) []) ->
  Returns (execute params)
    {| llmContent := "No matches found for pattern " +:+ JS.dquote +:+ pattern params
                     +:+ JS.dquote +:+ " " +:+ locationOf params +:+ filterSuffix params
                     +:+ ".";
       returnDisplay := "No matches found" |}.
Proof.
  intros Hacc Hnone. accepted_execute Hacc s Hs.
  apply Returns_try_catch.
  eapply Returns_bind; [apply resolveAndValidatePath_accepts, Hacc|]. cbv zeta.
  rewrite directories_resolved, location_resolved.
  eapply Returns_bind.
  { apply (searchDirectoriesLoop_Returns params s _ (fun _ => [])); [apply Hacc|exact Hnone]. }
  assert (concat (map (aggregated (1 <? Z.of_nat (List.length (searchDirectoriesOf params)))
                         (fun _ => [])) (searchDirectoriesOf params)) = []) as ->.
  { induction (searchDirectoriesOf params) as [|d ds IH] in |- * at 2; [reflexivity|].
    cbn [map concat]. rewrite IH. unfold aggregated. destruct (1 <? _); reflexivity. }
  cbn [app List.length Z.of_nat Z.eqb].
  apply Returns_after; [apply NoThrow_complete, Hs|apply Returns_ret].
Qed.

(** The reply when matches were found and grouped. *)
Lemma execute_found_reply (params : GrepToolParams) (found : string -> list GrepMatch)
    (matchesByFile : JsObject.t (list GrepMatch)) :
  accepted params ->
  (forall d, In d (searchDirectoriesOf params) ->
             Returns (performGrepSearch (optionsFor params d)) (found d)) ->
  allFound params found <> [] ->
  groupMatches (allFound params found) [] = inr matchesByFile ->
  let matchCount := Z.of_nat (List.length (allFound params found)) in
  let matchTerm := if matchCount =? 1 then "match" else "matches" in
  let header :=
    "Found " +:+ JS.ofZ matchCount +:+ " " +:+ matchTerm +:+ " for pattern "
    +:+ JS.dquote +:+ pattern params +:+ JS.dquote +:+ " " +:+ locationOf params
    +:+ filterSuffix params +:+ ":" +:+ JS.LF +:+ "---" +:+ JS.LF in
  Returns (execute params)
    {| llmContent :=
         JS.trim (header
                  +:+ String.concat "" (map renderFile (JsObject.forIn matchesByFile)));
       returnDisplay := "Found " +:+ JS.ofZ matchCount +:+ " " +:+ matchTerm |}.
Proof.
  intros Hacc Hfound Hsome Hgroup. cbv zeta. accepted_execute Hacc s Hs.
  apply Returns_try_catch.
  eapply Returns_bind; [apply resolveAndValidatePath_accepts, Hacc|]. cbv zeta.
  rewrite directories_resolved, location_resolved.
  eapply Returns_bind.
  { apply (searchDirectoriesLoop_Returns params s _ found); [apply Hacc|exact Hfound]. }
  cbn [app]. fold (multipleRoots params). fold (allFound params found).
  destruct (Z.of_nat (List.length (allFound params found)) =? 0) eqn:Hzero.
  { apply Z.eqb_eq in Hzero.
    destruct (allFound params found); [congruence|]. cbn [List.length] in Hzero. lia. }
  rewrite Hgroup. eapply Returns_bind; [apply Returns_ret|].
  apply Returns_after; [apply NoThrow_complete, Hs|apply Returns_ret].
Qed.

(** X9. On accepted parameters, when the search of every directory in
    scope returns, the reply counts all the matches found, directory
    after directory: [Found N matches], with [match] for exactly one,
    followed by the groups of the files in the order of [for ... in]. In
    a workspace of several roots the path of each match is prefixed with
    the base name of its root. *)
Theorem execute_found (params : GrepToolParams) (found : string -> list GrepMatch)
    (matchesByFile : JsObject.t (list GrepMatch)) :
  accepted params ->
  (forall d, In d (searchDirectoriesOf params) ->
             Returns (performGrepSearch (optionsFor params d)) (found d)) ->
  allFound params found <> [] ->
  groupMatches (allFound params found) [] = inr matchesByFile ->
  let matchCount := Z.of_nat (List.length (allFound params found)) in
  let matchTerm := if matchCount =? 1 then "match" else "matches" in
  let header :=
    "Found " +:+ JS.ofZ matchCount +:+ " " +:+ matchTerm +:+ " for pattern "
    +:+ JS.dquote +:+ pattern params +:+ JS.dquote +:+ " " +:+ locationOf params
    +:+ filterSuffix params +:+ ":" +:+ JS.LF +:+ "---" +:+ JS.LF in
  Returns (execute params)
    {| llmContent :=
         JS.trim (header
                  +:+ String.concat "" (map renderFile (JsObject.forIn matchesByFile)));
       returnDisplay := "Found " +:+ JS.ofZ matchCount +:+ " " +:+ matchTerm |}.
Proof.
  intros Hacc Hfound Hsome Hgroup. cbv zeta.
  exact (execute_found_reply params found matchesByFile Hacc Hfound Hsome Hgroup).
Qed.

(** X10. On accepted parameters, an error of the search of a directory
    is not an error of the tool: the tool returns, and its reply is the
    message of that error alone, whatever the directories before it gave
    and whatever directories come after it. *)
Theorem execute_search_error (params : GrepToolParams) (found : string -> list GrepMatch)
    (before after : list string) (d : string) (e : JsError) :
  accepted params ->
  searchDirectoriesOf params = before ++ d :: after ->
  (forall d', In d' before -> Returns (performGrepSearch (optionsFor params d')) (found d')) ->
  Throws (performGrepSearch (optionsFor params d)) e ->
  Returns (execute params) (errorReply e).
Proof.
  intros Hacc Hdirs Hfound He. accepted_execute Hacc s Hs.
  eapply Returns_caught with (e := e).
  - eapply Throws_bind; [apply resolveAndValidatePath_accepts, Hacc|]. cbv zeta.
    rewrite directories_resolved, Hdirs.
    apply Throws_bind_l.
    apply (searchDirectoriesLoop_Throws params s _ found); [apply Hacc|exact Hfound|exact He].
  - cbv zeta. apply Returns_after; [apply NoThrow_complete, Hs|apply Returns_ret].
Qed.

Lemma groupMatches_inherited (allMatches : list GrepMatch)
    (acc : JsObject.t (list GrepMatch)) :
  (forall k v, In (k, v) acc -> inheritedKey k = false) ->
  Exists (fun m => inheritedKey (filePath m) = true) allMatches ->
  groupMatches allMatches acc = inl (mkTypeError "acc[fileKey].push is not a function").
Proof.
  intros Hacc Hex. revert acc Hacc.
  induction allMatches as [|m rest IH]; intros acc Hacc; [inversion Hex|].
  cbn [groupMatches]. unfold groupStep, JsObject.get.
  destruct (JsObject.own acc (filePath m)) as [arr|] eqn:Hown.
  - pose proof (Hacc _ _ (JsObject_own_In _ _ _ Hown)) as Hkey.
    apply IH.
    + inversion Hex as [? ? Hm|? ? Hrest]; subst; [congruence|exact Hrest].
    + intros k v Hin. apply JsObject_set_In in Hin as [[-> _]|Hin]; [exact Hkey|eauto].
  - fold (inheritedKey (filePath m)).
    destruct (inheritedKey (filePath m)) eqn:Hkey; [reflexivity|].
    apply IH.
    + inversion Hex as [? ? Hm|? ? Hrest]; subst; [congruence|exact Hrest].
    + intros k v Hin. apply JsObject_set_In in Hin as [[-> _]|Hin]; [exact Hkey|eauto].
Qed.

(** X11. On accepted parameters, when a match lies in a file whose
    reported path is the name of a property of [Object.prototype]
    ([constructor], [toString], ...), the grouping by file fails and the
    tool replies with an error, not with the matches it found. *)
Theorem execute_inherited_file_key (params : GrepToolParams)
    (found : string -> list GrepMatch) :
  accepted params ->
  (forall d, In d (searchDirectoriesOf params) ->
             Returns (performGrepSearch (optionsFor params d)) (found d)) ->
  Exists (fun m => inheritedKey (filePath m) = true) (allFound params found) ->
  Returns (execute params) (errorReply (mkTypeError "acc[fileKey].push is not a function")).
Proof.
  intros Hacc Hfound Hex. accepted_execute Hacc s Hs.
  eapply Returns_caught.
  - eapply Throws_bind; [apply resolveAndValidatePath_accepts, Hacc|]. cbv zeta.
    rewrite directories_resolved, location_resolved.
    eapply Throws_bind.
    { apply (searchDirectoriesLoop_Returns params s _ found); [apply Hacc|exact Hfound]. }
    cbn [app]. fold (multipleRoots params). fold (allFound params found).
    destruct (Z.of_nat (List.length (allFound params found)) =? 0) eqn:Hzero.
    { apply Z.eqb_eq in Hzero. destruct (allFound params found); [inversion Hex|].
      cbn [List.length] in Hzero. lia. }
    rewrite groupMatches_inherited; [|intros k v []|exact Hex].
    apply Throws_bind_l, Throws_throw.
  - cbv zeta. apply Returns_after; [apply NoThrow_complete, Hs|apply Returns_ret].
Qed.

(** What a search returns in one state it returns in every state. *)
Lemma performGrepSearch_Returns (options : SearchOptions) (st : State) (ms : list GrepMatch) :
  fst (performGrepSearch options st) = inr ms -> Returns (performGrepSearch options) ms.
Proof. intros Hms st'. rewrite <- Hms. apply Agree_performGrepSearch. Qed.

Lemma performGrepSearch_Throws (options : SearchOptions) (st : State) (e : JsError) :
  fst (performGrepSearch options st) = inl e -> Throws (performGrepSearch options) e.
Proof. intros He st'. rewrite <- He. apply Agree_performGrepSearch. Qed.

Lemma renderFile_block (entry : string * list GrepMatch) :
  renderFile entry = renderedBlock (fst entry) (snd entry).
Proof. reflexivity. Qed.

(** C7. Whenever the orchestrator has grouped the aggregated matches by
    file path, the block that it renders for each file, in the order of
    [for ... in], shows the lines of the group of that file one after
    the other, and their line numbers do not decrease; the group holds
    matches of that one file only, and every aggregated match is in the
    group of its file. The summary that the search returns is the
    header followed by these blocks. *)
Theorem groups_rendered_in_line_order (allMatches : list GrepMatch)
    (matchesByFile : JsObject.t (list GrepMatch)) :
  groupMatches allMatches [] = inr matchesByFile ->
  (forall entry : string * list GrepMatch,
      In entry (JsObject.forIn matchesByFile) ->
      renderFile entry = renderedBlock (fst entry) (snd entry)
      /\ inLineOrder (snd entry)
      /\ forall m, In m (snd entry) -> filePath m = fst entry /\ In m allMatches)
  /\ (forall m, In m allMatches ->
        exists group, In (filePath m, group) (JsObject.forIn matchesByFile) /\ In m group)
  /\ (forall (params : GrepToolParams) (found : string -> list GrepMatch),
        accepted params ->
        (forall d, In d (searchDirectoriesOf params) ->
                   Returns (performGrepSearch (optionsFor params d)) (found d)) ->
        allFound params found = allMatches ->
        allMatches <> [] ->
        exists (shown : list (string * list GrepMatch)) (result : ToolResult),
          shown = JsObject.forIn matchesByFile
          /\ Forall (fun entry => inLineOrder (snd entry)) shown
          /\ Returns (execute params) result
          /\ llmContent result
             = JS.trim
                 (foundHeader params (Z.of_nat (List.length allMatches))
                  +:+ String.concat ""
                        (map (fun entry => renderedBlock (fst entry) (snd entry)) shown))).
Proof.
  intros Hgroup. destruct (groups_in_line_order allMatches matchesByFile Hgroup) as [Hg Hc].
  split; [|split; [exact Hc|]].
  - intros [fileKey group] Hin. destruct (Hg fileKey group Hin) as [Hsorted Hm].
    split; [apply renderFile_block|]. split; [exact Hsorted|exact Hm].
  - intros params found Hacc Hfound Hall Hsome. subst allMatches.
    pose proof (execute_found_reply params found matchesByFile Hacc Hfound Hsome Hgroup)
      as Hreply. cbv zeta in Hreply.
    eexists (JsObject.forIn matchesByFile), _. split; [reflexivity|]. split; [|split].
    + apply List.Forall_forall. intros [fileKey group] Hin. exact (proj1 (Hg fileKey group Hin)).
    + exact Hreply.
    + cbn [llmContent]. rewrite (map_ext _ _ renderFile_block). reflexivity.
Qed.

End Replies.

Lemma execute_no_matches_witness :
  let h := Sample.host Sample.todoWorld in
  let params := {| pattern := "absent"; path := Some "/ws"; include := Some "*.txt" |} in
  (@accepted h params
   /\ forall d, In d (@searchDirectoriesOf h params) ->
                Returns (@performGrepSearch h (optionsFor params d)) [])
  /\ Returns (@execute h params)
       {| llmContent := "No matches found for pattern " +:+ JS.dquote +:+ "absent"
                        +:+ JS.dquote +:+ " in path " +:+ JS.dquote +:+ "/ws" +:+ JS.dquote
                        +:+ " (filter: " +:+ JS.dquote +:+ "*.txt" +:+ JS.dquote +:+ ").";
          returnDisplay := "No matches found" |}.
Proof.
  intros h params.
  assert (@accepted h params) as Hacc.
  { split; [reflexivity|]. split; [reflexivity|]. right. split; reflexivity. }
  assert (forall d, In d (@searchDirectoriesOf h params) ->
                    Returns (@performGrepSearch h (optionsFor params d)) []) as Hnone.
  { intros d [<-|[]]. apply (@performGrepSearch_Returns h _ (Sample.initial false)).
    reflexivity. }
  split; [split; [exact Hacc|exact Hnone]|].
  exact (@execute_no_matches h params Hacc Hnone).
Defined.

Lemma execute_found_witness :
  let h := Sample.host Scenario.twoRoots in
  let params := {| pattern := "TODO"; path := None; include := None |} in
  let found := fun d : string =>
    if String.eqb d "/ws/app"
    then [ {| filePath := "a.txt"; lineNumber := 1; line := "// TODO app" |} ]
    else [ {| filePath := "a.txt"; lineNumber := 2; line := "// TODO lib" |} ] in
  let app := {| filePath := "app/a.txt"; lineNumber := 1; line := "// TODO app" |} in
  let lib := {| filePath := "lib/a.txt"; lineNumber := 2; line := "// TODO lib" |} in
  (@accepted h params
   /\ (forall d, In d (@searchDirectoriesOf h params) ->
                 Returns (@performGrepSearch h (optionsFor params d)) (found d))
   /\ @allFound h params found = [app; lib]
   /\ groupMatches [app; lib] [] = inr [("app/a.txt", [app]); ("lib/a.txt", [lib])])
  /\ Returns (@execute h params)
       {| llmContent :=
            "Found 2 matches for pattern " +:+ JS.dquote +:+ "TODO" +:+ JS.dquote
            +:+ " across 2 workspace directories:" +:+ JS.LF +:+ "---" +:+ JS.LF
            +:+ "File: app/a.txt" +:+ JS.LF +:+ "L1: // TODO app" +:+ JS.LF
            +:+ "---" +:+ JS.LF
            +:+ "File: lib/a.txt" +:+ JS.LF +:+ "L2: // TODO lib" +:+ JS.LF +:+ "---";
          returnDisplay := "Found 2 matches" |}.
Proof.
  intros h params found app lib.
  assert (@accepted h params) as Hacc.
  { split; [reflexivity|]. split; [reflexivity|]. left. reflexivity. }
  assert (forall d, In d (@searchDirectoriesOf h params) ->
                    Returns (@performGrepSearch h (optionsFor params d)) (found d)) as Hfound.
  { intros d [<-|[<-|[]]];
      apply (@performGrepSearch_Returns h _ (Sample.initial false)); reflexivity. }
  assert (@allFound h params found <> []) as Hsome by (vm_compute; discriminate).
  assert (groupMatches (@allFound h params found) []
          = inr [("app/a.txt", [app]); ("lib/a.txt", [lib])]) as Hgroup by reflexivity.
  split; [split; [exact Hacc|split; [exact Hfound|split; reflexivity]]|].
  exact (@execute_found h params found _ Hacc Hfound Hsome Hgroup).
Defined.

Lemma execute_search_error_witness :
  let h := Scenario.brokenStream Sample.todoWorld Scenario.aborted in
  let params := {| pattern := "TODO"; path := None; include := None |} in
  (@accepted h params
   /\ @searchDirectoriesOf h params = [] ++ "/ws" :: []
   /\ Throws (@performGrepSearch h (optionsFor params "/ws")) Scenario.aborted)
  /\ Returns (@execute h params)
       {| llmContent := "Error during grep search operation: The operation was aborted";
          returnDisplay := "Error: The operation was aborted" |}.
Proof.
  intros h params.
  assert (@accepted h params) as Hacc.
  { split; [reflexivity|]. split; [reflexivity|]. left. reflexivity. }
  assert (Throws (@performGrepSearch h (optionsFor params "/ws")) Scenario.aborted) as He.
  { apply (@performGrepSearch_Throws h _ (Sample.initial false)). reflexivity. }
  split; [split; [exact Hacc|split; [reflexivity|exact He]]|].
  exact (@execute_search_error h params (fun _ => []) [] [] "/ws" Scenario.aborted Hacc
           eq_refl (fun d (F : In d []) => match F with end) He).
Defined.

Lemma execute_inherited_file_key_witness :
  let h := Sample.host Scenario.constructorWorld in
  let params := {| pattern := "TODO"; path := None; include := None |} in
  let found := fun _ : string =>
    [ {| filePath := "constructor"; lineNumber := 1; line := "// TODO fix" |} ] in
  (@accepted h params
   /\ (forall d, In d (@searchDirectoriesOf h params) ->
                 Returns (@performGrepSearch h (optionsFor params d)) (found d))
   /\ Exists (fun m => inheritedKey (filePath m) = true) (@allFound h params found))
  /\ Returns (@execute h params)
       {| llmContent := "Error during grep search operation: acc[fileKey].push is not a function";
          returnDisplay := "Error: acc[fileKey].push is not a function" |}.
Proof.
  intros h params found.
  assert (@accepted h params) as Hacc.
  { split; [reflexivity|]. split; [reflexivity|]. left. reflexivity. }
  assert (forall d, In d (@searchDirectoriesOf h params) ->
                    Returns (@performGrepSearch h (optionsFor params d)) (found d)) as Hfound.
  { intros d [<-|[]]. apply (@performGrepSearch_Returns h _ (Sample.initial false)).
    reflexivity. }
  assert (Exists (fun m => inheritedKey (filePath m) = true) (@allFound h params found))
    as Hex by (left; reflexivity).
  split; [split; [exact Hacc|split; [exact Hfound|exact Hex]]|].
  exact (@execute_inherited_file_key h params found Hacc Hfound Hex).
Defined.

Lemma validateToolParams_path_message_witness :
  let h := Sample.host Sample.todoWorld in
  let missing := {| pattern := "TODO"; path := Some "nowhere"; include := None |} in
  let file := {| pattern := "TODO"; path := Some "a.txt"; include := None |} in
  (JS.truthy_opt (@schemaValidate h missing) = false
   /\ @regexp_ok h (pattern missing) = true
   /\ JS.truthy_opt (path missing) = true
   /\ @isPathWithinWorkspace h (@targetOf h missing) = true)
  /\ Returns (@validateToolParams h missing)
       (Some ("Failed to access path stats for /ws/nowhere: "
              +:+ "Error: ENOENT: no such file or directory, stat '/ws/nowhere'"))
  /\ Returns (@validateToolParams h file)
       (Some "Failed to access path stats for /ws/a.txt: Error: Path is not a directory: /ws/a.txt").
Proof.
  intros h missing file.
  split; [repeat split|]. split.
  - exact (@validateToolParams_path_message h missing eq_refl eq_refl eq_refl eq_refl).
  - exact (@validateToolParams_path_message h file eq_refl eq_refl eq_refl eq_refl).
Defined.

Lemma groups_rendered_in_line_order_witness :
  let a5 := {| filePath := "a.txt"; lineNumber := 5; line := "five" |} in
  let b1 := {| filePath := "b.txt"; lineNumber := 1; line := "one" |} in
  let a2 := {| filePath := "a.txt"; lineNumber := 2; line := "two" |} in
  let h := Sample.host Scenario.twoRoots in
  let params := {| pattern := "TODO"; path := None; include := None |} in
  let found := fun d : string =>
    if String.eqb d "/ws/app"
    then [ {| filePath := "a.txt"; lineNumber := 1; line := "// TODO app" |} ]
    else [ {| filePath := "a.txt"; lineNumber := 2; line := "// TODO lib" |} ] in
  let app := {| filePath := "app/a.txt"; lineNumber := 1; line := "// TODO app" |} in
  let lib := {| filePath := "lib/a.txt"; lineNumber := 2; line := "// TODO lib" |} in
  (groupMatches [a5; b1; a2] [] = inr [("a.txt", [a2; a5]); ("b.txt", [b1])]
   /\ In ("a.txt", [a2; a5]) (JsObject.forIn [("a.txt", [a2; a5]); ("b.txt", [b1])])
   /\ renderFile ("a.txt", [a2; a5])
      = "File: a.txt" +:+ JS.LF +:+ "L2: two" +:+ JS.LF +:+ "L5: five" +:+ JS.LF
        +:+ "---" +:+ JS.LF
   /\ renderFile ("a.txt", [a2; a5]) = renderedBlock "a.txt" [a2; a5]
   /\ inLineOrder [a2; a5])
  /\ (groupMatches [app; lib] [] = inr [("app/a.txt", [app]); ("lib/a.txt", [lib])]
      /\ @accepted h params
      /\ (forall d, In d (@searchDirectoriesOf h params) ->
                    Returns (@performGrepSearch h (optionsFor params d)) (found d))
      /\ @allFound h params found = [app; lib]
      /\ exists (shown : list (string * list GrepMatch)) (result : ToolResult),
           shown = JsObject.forIn [("app/a.txt", [app]); ("lib/a.txt", [lib])]
           /\ Forall (fun entry => inLineOrder (snd entry)) shown
           /\ Returns (@execute h params) result
           /\ llmContent result
              = JS.trim
                  (@foundHeader h params (Z.of_nat (List.length [app; lib]))
                   +:+ String.concat ""
                         (map (fun entry => renderedBlock (fst entry) (snd entry)) shown))).
Proof.
  intros a5 b1 a2 h params found app lib.
  assert (groupMatches [a5; b1; a2] [] = inr [("a.txt", [a2; a5]); ("b.txt", [b1])]) as E
    by reflexivity.
  assert (In ("a.txt", [a2; a5]) (JsObject.forIn [("a.txt", [a2; a5]); ("b.txt", [b1])]))
    as Hin by (left; reflexivity).
  assert (groupMatches [app; lib] [] = inr [("app/a.txt", [app]); ("lib/a.txt", [lib])])
    as E' by reflexivity.
  assert (@accepted h params) as Hacc.
  { split; [reflexivity|]. split; [reflexivity|]. left. reflexivity. }
  assert (forall d, In d (@searchDirectoriesOf h params) ->
                    Returns (@performGrepSearch h (optionsFor params d)) (found d)) as Hfound.
  { intros d [<-|[<-|[]]];
      apply (@performGrepSearch_Returns h _ (Sample.initial false)); reflexivity. }
  assert (@allFound h params found = [app; lib]) as Hall by reflexivity.
  split.
  - split; [exact E|]. split; [exact Hin|]. split; [reflexivity|].
    destruct (proj1 (@groups_rendered_in_line_order h _ _ E) _ Hin) as (Hblock & Horder & _).
    split; [exact Hblock|exact Horder].
  - split; [exact E'|]. split; [exact Hacc|]. split; [exact Hfound|]. split; [exact Hall|].
    exact (proj2 (proj2 (@groups_rendered_in_line_order h _ _ E')) params found Hacc Hfound
             Hall ltac:(discriminate)).
Defined.

(** * The downloader *)

(** ** Batches *)

Lemma slice_chunk {T} (array : list T) (i size : Z) :
  0 <= i -> 0 < size ->
  slice array i (i + size) = firstn (Z.to_nat size) (skipn (Z.to_nat i) array).
Proof.
  intros Hi Hsize. unfold slice, slice_index. cbv zeta.
  destruct (Z.ltb_spec i 0); [lia|]. destruct (Z.ltb_spec (i + size) 0); [lia|].
  set (len := Z.of_nat (List.length array)).
  destruct (Z.le_gt_cases len i) as [Hout|Hin].
  - rewrite (Z.min_r i len), (Z.min_r (i + size) len) by lia.
    rewrite Z.sub_diag. cbn [Z.to_nat firstn].
    rewrite (skipn_all2 (n := Z.to_nat i)) by (unfold len in Hout; lia).
    rewrite firstn_nil. reflexivity.
  - rewrite (Z.min_l i len) by lia.
    destruct (Z.le_gt_cases (i + size) len) as [Hfull|Hshort].
    + rewrite (Z.min_l (i + size) len) by lia. f_equal. lia.
    + rewrite (Z.min_r (i + size) len) by lia.
      rewrite !firstn_all2; [reflexivity| |]; rewrite length_skipn; unfold len in *; lia.
Qed.

Lemma chunkArray_loop_run {T} (array : list T) (size : Z) (fuel : nat) (i : Z)
    (chunks : list (list T)) :
  0 < size -> 0 <= i ->
  (Z.to_nat (Z.of_nat (List.length array) - i) <= fuel)%nat ->
  exists rest : list (list T),
    chunkArray_loop fuel array size i chunks = Some (chunks ++ rest)
    /\ concat rest = skipn (Z.to_nat i) array
    /\ Forall (fun c => c <> [] /\ Z.of_nat (List.length c) <= size) rest
    /\ Forall (fun c => Z.of_nat (List.length c) = size) (removelast rest).
Proof.
  intros Hsize. revert i chunks. induction fuel as [|fuel IH]; intros i chunks Hi Hfuel.
  - exists []. cbn [chunkArray_loop]. destruct (Z.ltb_spec i (Z.of_nat (List.length array))); [lia|].
    rewrite app_nil_r. cbn [concat removelast].
    rewrite skipn_all2 by lia. repeat split; constructor.
  - cbn [chunkArray_loop]. destruct (Z.ltb_spec i (Z.of_nat (List.length array))) as [Hin|Hout].
    + destruct (IH (i + size) (chunks ++ [slice array i (i + size)])) as (rest & Hrun & Hcat & Hall & Hfull);
        [lia|lia|].
      exists (slice array i (i + size) :: rest).
      rewrite Hrun, <- app_assoc. split; [reflexivity|].
      rewrite slice_chunk by lia.
      assert (List.length (firstn (Z.to_nat size) (skipn (Z.to_nat i) array))
              = Nat.min (Z.to_nat size) (List.length array - Z.to_nat i)) as Hlen
        by (rewrite length_firstn, length_skipn; reflexivity).
      split; [|split].
      * cbn [concat]. rewrite Hcat.
        replace (Z.to_nat (i + size)) with (Z.to_nat size + Z.to_nat i)%nat by lia.
        rewrite <- skipn_skipn. apply firstn_skipn.
      * constructor; [|exact Hall]. split; [|lia].
        intros Hnil. rewrite Hnil in Hlen. cbn [List.length] in Hlen. lia.
      * destruct rest as [|c rest]; [constructor|].
        change (removelast (?x :: c :: rest)) with (x :: removelast (c :: rest)).
        constructor; [|exact Hfull].
        assert (skipn (Z.to_nat (i + size)) array <> []) as Hmore.
        { rewrite <- Hcat. inversion Hall as [|? ? [Hc _] _]; subst.
          cbn [concat]. destruct c; [congruence|discriminate]. }
        assert (Z.to_nat (i + size) < List.length array)%nat as Hlt.
        { destruct (Nat.lt_ge_cases (Z.to_nat (i + size)) (List.length array)); [assumption|].
          rewrite skipn_all2 in Hmore by assumption. congruence. }
        lia.
    + exists []. rewrite app_nil_r. cbn [concat removelast].
      rewrite skipn_all2 by lia. repeat split; constructor.
Qed.

Lemma chunkArray_loop_diverges {T} (array : list T) (size : Z) (fuel : nat) (i : Z)
    (chunks : list (list T)) :
  size <= 0 -> i <= 0 -> array <> [] -> chunkArray_loop fuel array size i chunks = None.
Proof.
  intros Hsize Hi Hne. revert i chunks Hi.
  assert (0 < Z.of_nat (List.length array)) as Hlen by (destruct array; [congruence|cbn; lia]).
  induction fuel as [|fuel IH]; intros i chunks Hi; cbn [chunkArray_loop];
    destruct (Z.ltb_spec i (Z.of_nat (List.length array))); try lia; [reflexivity|].
  apply IH. lia.
Qed.

Lemma chunkArray_run {T} (array : list T) (chunkSize : Z) (fuel : nat) :
  0 < chunkSize -> (List.length array <= fuel)%nat ->
  exists chunks : list (list T),
    chunkArray fuel array chunkSize = Some chunks
    /\ concat chunks = array
    /\ Forall (fun c => c <> [] /\ Z.of_nat (List.length c) <= chunkSize) chunks
    /\ Forall (fun c => Z.of_nat (List.length c) = chunkSize) (removelast chunks).
Proof.
  intros Hsize Hfuel.
  destruct (chunkArray_loop_run array chunkSize fuel 0 [] Hsize) as (rest & Hrun & Hrest);
    [lia|lia|].
  exists rest. split; [exact Hrun|exact Hrest].
Qed.

(** X13. For a positive chunk size, [chunkArray] ends after at most one
    iteration per element and cuts the array into consecutive chunks:
    put end to end they give the array back, none is empty, none is
    longer than the chunk size, and all but the last have exactly that
    size. For a chunk size that is not positive and an array that is not
    empty, the loop never ends. *)
Theorem chunkArray_partitions {T} (array : list T) (chunkSize : Z) (fuel : nat) :
  (0 < chunkSize -> (List.length array <= fuel)%nat ->
   exists chunks : list (list T),
     chunkArray fuel array chunkSize = Some chunks
     /\ concat chunks = array
     /\ Forall (fun c => c <> [] /\ Z.of_nat (List.length c) <= chunkSize) chunks
     /\ Forall (fun c => Z.of_nat (List.length c) = chunkSize) (removelast chunks))
  /\ (chunkSize <= 0 -> array <> [] -> chunkArray fuel array chunkSize = None).
Proof.
  split.
  - apply chunkArray_run.
  - intros Hsize Hne. apply chunkArray_loop_diverges; [exact Hsize|lia|exact Hne].
Qed.

Lemma chunkArray_partitions_witness :
  (0 < 2 /\ (List.length [1; 2; 3; 4; 5] <= 5)%nat
   /\ chunkArray 5 [1; 2; 3; 4; 5] 2 = Some [[1; 2]; [3; 4]; [5]]
   /\ exists chunks : list (list Z),
        chunkArray 5 [1; 2; 3; 4; 5] 2 = Some chunks
        /\ concat chunks = [1; 2; 3; 4; 5]
        /\ Forall (fun c => c <> [] /\ Z.of_nat (List.length c) <= 2) chunks
        /\ Forall (fun c => Z.of_nat (List.length c) = 2) (removelast chunks))
  /\ (0 <= 0 /\ [1] <> @nil Z /\ chunkArray 1000 [1] 0 = None).
Proof.
  split.
  - split; [lia|]. split; [cbn; lia|]. split; [reflexivity|].
    apply (proj1 (chunkArray_partitions [1; 2; 3; 4; 5] 2 5)); [lia|cbn; lia].
  - split; [lia|]. split; [discriminate|].
    apply (proj2 (chunkArray_partitions [1] 0 1000)); [lia|discriminate].
Defined.

(** ** File names *)

Lemma codeUnits_replaceEach (p : ascii -> bool) (P : ascii -> Prop) (s : string) :
  P "_"%char -> (forall c, p c = false -> P c) -> Forall P (codeUnits (replaceEach p s)).
Proof.
  intros Hu HP. induction s as [|c s IH]; cbn [replaceEach codeUnits]; constructor; [|exact IH].
  destruct (p c) eqn:Hc; [exact Hu|apply HP, Hc].
Qed.

Lemma codeUnits_replaceRuns (p : ascii -> bool) (P : ascii -> Prop) (s : string) (inRun : bool) :
  P "_"%char -> Forall P (codeUnits s) -> Forall P (codeUnits (replaceRuns p s inRun)).
Proof.
  intros Hu. revert inRun. induction s as [|c s IH]; intros inRun Hs; cbn [replaceRuns codeUnits].
  - constructor.
  - cbn [codeUnits] in Hs. apply List.Forall_cons_iff in Hs as [Hc Hs].
    destruct (p c); [destruct inRun|]; cbn [codeUnits]; try constructor; auto.
Qed.

Lemma codeUnits_replaceRuns_class (p : ascii -> bool) (s : string) (inRun : bool) :
  p "_"%char = false -> Forall (fun c => p c = false) (codeUnits (replaceRuns p s inRun)).
Proof.
  intros Hu. revert inRun. induction s as [|c s IH]; intros inRun; cbn [replaceRuns codeUnits].
  - constructor.
  - destruct (p c) eqn:Hc; [destruct inRun|]; cbn [codeUnits]; try constructor; auto.
Qed.

Lemma prefix_underscore (s : string) :
  String.prefix "_" s = match s with String c _ => isUnderscore c | EmptyString => false end.
Proof.
  destruct s as [|c s]; [reflexivity|]. unfold isUnderscore.
  rewrite prefix_cons, prefix_nil_l.
  destruct (ascii_dec "_" c) as [<-|Hne]; [reflexivity|].
  symmetry. apply Ascii.eqb_neq. congruence.
Qed.

(** After the runs of underscores are replaced, no two underscores
    follow each other, and none comes first when the run was open. *)
Lemma replaceRuns_singleUnderscores (s : string) (inRun : bool) :
  singleUnderscores (replaceRuns isUnderscore s inRun)
  /\ (inRun = true -> String.prefix "_" (replaceRuns isUnderscore s inRun) = false).
Proof.
  revert inRun. induction s as [|c s IH]; intros inRun; cbn [replaceRuns].
  - split; [exact I|reflexivity].
  - destruct (isUnderscore c) eqn:Hc.
    + destruct (IH true) as [Hs Hp]. specialize (Hp eq_refl). destruct inRun.
      * split; [exact Hs|intros _; exact Hp].
      * split; [|discriminate]. cbn [singleUnderscores]. split; [|exact Hs].
        destruct (replaceRuns isUnderscore s true) as [|d r]; [exact I|].
        intros [_ Hd]. rewrite prefix_underscore in Hp. congruence.
    + destruct (IH false) as [Hs _]. split.
      * cbn [singleUnderscores]. split; [|exact Hs].
        destruct (replaceRuns isUnderscore s false); [exact I|]. intros [Hc' _]. congruence.
      * intros _. rewrite prefix_underscore. exact Hc.
Qed.

Lemma singleUnderscores_tail (c : ascii) (s : string) :
  singleUnderscores (String c s) -> singleUnderscores s.
Proof. cbn [singleUnderscores]. tauto. Qed.

Lemma stripUnderscore_spec (s : string) :
  stripUnderscore s
  = match s with String c s' => if isUnderscore c then s' else s | EmptyString => EmptyString end.
Proof.
  destruct s as [|c s]; [reflexivity|]. unfold isUnderscore.
  destruct (Ascii.eqb_spec c "_") as [->|Hne]; [reflexivity|].
  destruct c as [[] [] [] [] [] [] [] []]; try reflexivity. congruence.
Qed.

Lemma stripUnderscore_head (s : string) :
  singleUnderscores s -> String.prefix "_" (stripUnderscore s) = false.
Proof.
  rewrite stripUnderscore_spec. destruct s as [|c s]; [reflexivity|].
  destruct (isUnderscore c) eqn:Hc.
  - cbn [singleUnderscores]. intros [Hcd _]. rewrite prefix_underscore.
    destruct s as [|d s]; [reflexivity|]. destruct (isUnderscore d); [tauto|reflexivity].
  - intros _. rewrite prefix_underscore. exact Hc.
Qed.

Lemma stripUnderscore_keeps (P : ascii -> Prop) (s : string) :
  Forall P (codeUnits s) -> Forall P (codeUnits (stripUnderscore s)).
Proof.
  rewrite stripUnderscore_spec. destruct s as [|c s]; [auto|].
  destruct (isUnderscore c); [|auto]. cbn [codeUnits]. intros Hs.
  apply List.Forall_cons_iff in Hs. tauto.
Qed.

Lemma stripUnderscore_single (s : string) :
  singleUnderscores s -> singleUnderscores (stripUnderscore s).
Proof.
  rewrite stripUnderscore_spec. destruct s as [|c s]; [auto|].
  destruct (isUnderscore c); [apply singleUnderscores_tail|auto].
Qed.

Lemma stripLastUnderscore_head (s : string) :
  String.prefix "_" s = false -> String.prefix "_" (stripLastUnderscore s) = false.
Proof.
  rewrite !prefix_underscore. destruct s as [|c [|d s]]; cbn [stripLastUnderscore]; auto.
  intros Hc. rewrite Hc. exact Hc.
Qed.

Lemma stripLastUnderscore_keeps (P : ascii -> Prop) (s : string) :
  Forall P (codeUnits s) -> Forall P (codeUnits (stripLastUnderscore s)).
Proof.
  induction s as [|c s IH]; [auto|]. cbn [stripLastUnderscore]. destruct s as [|d s].
  - destruct (isUnderscore c); [constructor|auto].
  - cbn [codeUnits] in *. intros Hs. apply List.Forall_cons_iff in Hs as [Hc Hs].
    constructor; auto.
Qed.

Lemma stripLastUnderscore_single (s : string) :
  singleUnderscores s -> singleUnderscores (stripLastUnderscore s).
Proof.
  induction s as [|c s IH]; [auto|]. cbn [stripLastUnderscore]. destruct s as [|d s].
  - destruct (isUnderscore c); [intros _; exact I|auto].
  - intros [Hcd Hs]. specialize (IH Hs). split; [|exact IH].
    cbn [stripLastUnderscore] in *. destruct s as [|e s].
    + destruct (isUnderscore d) eqn:Hd; [exact I|]. intros [_ Hd']. congruence.
    + exact Hcd.
Qed.

(** The first code units of a string. *)
Lemma substring_0_cons (n : nat) (c : ascii) (s : string) :
  String.substring 0 (S n) (String c s) = String c (String.substring 0 n s).
Proof. reflexivity. Qed.

Lemma substring_0_0 (s : string) : String.substring 0 0 s = EmptyString.
Proof. destruct s; reflexivity. Qed.

Lemma substring_0_keeps (P : ascii -> Prop) (n : nat) (s : string) :
  Forall P (codeUnits s) -> Forall P (codeUnits (String.substring 0 n s)).
Proof.
  revert n. induction s as [|c s IH]; intros n Hs.
  - destruct n; constructor.
  - destruct n as [|n]; [rewrite substring_0_0; constructor|].
    rewrite substring_0_cons. cbn [codeUnits] in *.
    apply List.Forall_cons_iff in Hs as [Hc Hs]. constructor; auto.
Qed.

Lemma substring_0_single (n : nat) (s : string) :
  singleUnderscores s -> singleUnderscores (String.substring 0 n s).
Proof.
  revert n. induction s as [|c s IH]; intros n Hs.
  - destruct n; exact I.
  - destruct n as [|n]; [rewrite substring_0_0; exact I|].
    rewrite substring_0_cons. destruct Hs as [Hcd Hs]. split; [|apply IH, Hs].
    destruct s as [|d s]; [destruct n; exact I|].
    destruct n as [|n]; [rewrite substring_0_0; exact I|].
    rewrite substring_0_cons. exact Hcd.
Qed.

Lemma substring_0_head (n : nat) (s : string) :
  String.prefix "_" s = false -> String.prefix "_" (String.substring 0 n s) = false.
Proof.
  rewrite !prefix_underscore. destruct s as [|c s]; [destruct n; reflexivity|].
  destruct n as [|n]; [reflexivity|]. rewrite substring_0_cons. auto.
Qed.

Lemma substring_0_length (n : nat) (s : string) :
  (String.length (String.substring 0 n s) <= n)%nat.
Proof.
  revert n. induction s as [|c s IH]; intros n; [destruct n; cbn; lia|].
  destruct n as [|n]; [cbn; lia|]. rewrite substring_0_cons. cbn [String.length].
  specialize (IH n). lia.
Qed.

(** X15. Whatever the title, the file name that [sanitizeFilename] makes
    of it holds none of the characters reserved by file systems and no
    white space, has no two underscores in a row, does not start with an
    underscore and has at most 100 code units. *)
Theorem sanitizeFilename_safe (filename : string) :
  Forall (fun c => isReservedChar c = false /\ JS.isWhiteSpace c = false)
         (codeUnits (sanitizeFilename filename))
  /\ singleUnderscores (sanitizeFilename filename)
  /\ String.prefix "_" (sanitizeFilename filename) = false
  /\ (String.length (sanitizeFilename filename) <= 100)%nat.
Proof.
  unfold sanitizeFilename, stripEnds, JS.substring. cbv zeta.
  change (Nat.min 0 100) with 0%nat. change (Nat.max 0 100 - 0)%nat with 100%nat.
  set (s1 := replaceEach isReservedChar filename).
  set (s2 := replaceRuns JS.isWhiteSpace s1 false).
  set (s3 := replaceRuns isUnderscore s2 false).
  assert (Forall (fun c => isReservedChar c = false) (codeUnits s3)) as Hreserved.
  { apply codeUnits_replaceRuns; [reflexivity|]. apply codeUnits_replaceRuns; [reflexivity|].
    apply codeUnits_replaceEach; [reflexivity|auto]. }
  assert (Forall (fun c => JS.isWhiteSpace c = false) (codeUnits s3)) as Hspace.
  { apply codeUnits_replaceRuns; [reflexivity|].
    apply codeUnits_replaceRuns_class. reflexivity. }
  destruct (replaceRuns_singleUnderscores s2 false) as [Hsingle _]. fold s3 in Hsingle.
  split; [|split; [|split]].
  - apply substring_0_keeps, stripLastUnderscore_keeps, stripUnderscore_keeps.
    apply List.Forall_forall. intros c Hc. split.
    + exact (proj1 (List.Forall_forall _ _) Hreserved c Hc).
    + exact (proj1 (List.Forall_forall _ _) Hspace c Hc).
  - apply substring_0_single, stripLastUnderscore_single, stripUnderscore_single, Hsingle.
  - apply substring_0_head, stripLastUnderscore_head, stripUnderscore_head, Hsingle.
  - apply substring_0_length.
Qed.

(** A title cut at 100 code units may end with an underscore, and
    sanitizing the name again then changes it. *)
Example sanitizeFilename_cut :
  let long := String.concat "" (repeat "0123456789" 9) +:+ "012345678 9" in
  sanitizeFilename long = String.concat "" (repeat "0123456789" 9) +:+ "012345678_"
  /\ sanitizeFilename (sanitizeFilename long)
     = String.concat "" (repeat "0123456789" 9) +:+ "012345678".
Proof. vm_compute. split; reflexivity. Qed.

Example sanitizeFilename_ex :
  sanitizeFilename " Intro: start   here? " = "Intro_start_here".
Proof. reflexivity. Qed.

(** ** Downloads *)

Section Downloads.
Context `{Host} `{Web}.
Variable outputDir : string.

Lemma downloadSingleUrl_url (n : nat) (url : string) (value : DownloadedContent) :
  downloadSingleUrl outputDir n url = inr value -> dc_url value = url.
Proof.
  unfold downloadSingleUrl. cbv zeta.
  destruct (fetch n url) as [e|response]; [discriminate|].
  destruct (negb (resp_ok response)); [discriminate|].
  destruct (resp_text response) as [e|content]; [discriminate|].
  destruct (writeFile _ _ _); [discriminate|]. intros [= <-]. reflexivity.
Qed.

Lemma processBatch_app (n : nat) (a b : list string) (result : DownloadResult) :
  processBatch outputDir n (a ++ b) result
  = processBatch outputDir (n + List.length a) b (processBatch outputDir n a result).
Proof.
  revert n result. induction a as [|url a IH]; intros n result; cbn [app processBatch List.length].
  - rewrite Nat.add_0_r. reflexivity.
  - rewrite IH. f_equal. lia.
Qed.

(** The batches are not seen in the result. *)
Lemma processBatches_concat (n : nat) (batches : list (list string)) (result : DownloadResult) :
  processBatches outputDir n batches result = processBatch outputDir n (concat batches) result.
Proof.
  revert n result. induction batches as [|batch batches IH]; intros n result;
    cbn [processBatches concat]; [reflexivity|].
  rewrite IH, processBatch_app. reflexivity.
Qed.

Lemma processBatch_run (n : nat) (urls : list string) (result : DownloadResult) :
  let result' := processBatch outputDir n urls result in
  map dc_url (successful result')
  = map dc_url (successful result) ++ map snd (filter (fun e => fulfilled outputDir e = true) (numbered n urls))
  /\ map fst (failed result')
     = map fst (failed result)
       ++ map snd (filter (fun e => fulfilled outputDir e = false) (numbered n urls))
  /\ totalUrls result' = totalUrls result
  /\ downloadedCount result' - Z.of_nat (List.length (successful result'))
     = downloadedCount result - Z.of_nat (List.length (successful result))
  /\ Z.of_nat (List.length (successful result')) + Z.of_nat (List.length (failed result'))
     = Z.of_nat (List.length (successful result)) + Z.of_nat (List.length (failed result))
       + Z.of_nat (List.length urls).
Proof.
  cbv zeta. revert n result. induction urls as [|url urls IH]; intros n result.
  - cbn. rewrite !app_nil_r. repeat split; lia.
  - cbn [processBatch]. unfold numbered. cbn [List.length seq combine].
    fold (numbered (S n) urls). rewrite !filter_cons.
    assert (fulfilled outputDir (n, url)
            = match downloadSingleUrl outputDir n url with inr _ => true | inl _ => false end)
      as Hf by reflexivity.
    destruct (downloadSingleUrl outputDir n url) as [e|value] eqn:Hrun.
    + rewrite (decide_False (P := fulfilled outputDir (n, url) = true)) by (rewrite Hf; discriminate).
      rewrite (decide_True (P := fulfilled outputDir (n, url) = false)) by exact Hf.
      destruct (IH (S n) (settle result url (inl e))) as (Hok & Hko & Htotal & Hcount & Hsum).
      cbn [settle successful failed totalUrls downloadedCount] in *.
      rewrite map_app, ?length_app in *. cbn [map fst snd List.length app] in *.
      rewrite Hok, Hko, <- !app_assoc. cbn [app]. repeat split; lia.
    + rewrite (decide_True (P := fulfilled outputDir (n, url) = true)) by exact Hf.
      rewrite (decide_False (P := fulfilled outputDir (n, url) = false)) by (rewrite Hf; discriminate).
      destruct (IH (S n) (settle result url (inr value))) as (Hok & Hko & Htotal & Hcount & Hsum).
      cbn [settle successful failed totalUrls downloadedCount] in *.
      rewrite map_app, ?length_app in *. cbn [map fst snd List.length app] in *.
      rewrite (downloadSingleUrl_url n url value Hrun) in Hok.
      rewrite Hok, Hko, <- !app_assoc. cbn [app]. repeat split; lia.
Qed.

(** X14. When the output directory can be made, [downloadUrls] ends
    and accounts for every URL exactly once, whatever the batches: the
    downloads are the URLs whose download was fulfilled, the failures
    those whose download was rejected, both in the order of the list;
    their numbers add up to [totalUrls], the length of the list, and
    [downloadedCount] is the number of the downloads. *)
Theorem downloadUrls_accounts (fuel n : nat) (urls : list string) :
  mkdir outputDir = None ->
  (List.length urls <= fuel)%nat ->
  exists result : DownloadResult,
    downloadUrls outputDir fuel n urls = Some (inr result)
    /\ balanced result
    /\ totalUrls result = Z.of_nat (List.length urls)
    /\ map dc_url (successful result)
       = map snd (filter (fun e => fulfilled outputDir e = true) (numbered n urls))
    /\ map fst (failed result)
       = map snd (filter (fun e => fulfilled outputDir e = false) (numbered n urls)).
Proof.
  intros Hmkdir Hfuel. unfold downloadUrls. cbv zeta. rewrite Hmkdir.
  destruct (chunkArray_run urls maxConcurrentDownloads fuel)
    as (batches & -> & Hcat & _); [reflexivity|exact Hfuel|].
  eexists. split; [reflexivity|]. rewrite processBatches_concat, Hcat.
  match goal with |- context [processBatch outputDir n urls ?r] =>
    destruct (processBatch_run n urls r) as (Hok & Hko & Htotal & Hcount & Hsum) end.
  cbn [successful failed totalUrls downloadedCount map app List.length] in *.
  unfold balanced. rewrite Htotal. repeat split; [lia|lia|exact Hok|exact Hko].
Qed.

Lemma downloadUrls_balanced (fuel n : nat) (urls : list string) :
  (List.length urls <= fuel)%nat ->
  match downloadUrls outputDir fuel n urls with
  | Some (inr result) => balanced result
  | Some (inl _) => True
  | None => False
  end.
Proof.
  intros Hfuel. destruct (mkdir outputDir) as [e|] eqn:Hmkdir.
  - unfold downloadUrls. rewrite Hmkdir. exact I.
  - unfold downloadUrls. cbv zeta. rewrite Hmkdir.
    destruct (chunkArray_run urls maxConcurrentDownloads fuel)
      as (batches & -> & Hcat & _); [reflexivity|exact Hfuel|].
    rewrite processBatches_concat, Hcat.
    match goal with |- context [processBatch outputDir n urls ?r] =>
      destruct (processBatch_run n urls r) as (_ & _ & Htotal & Hcount & Hsum) end.
    cbn [successful failed totalUrls downloadedCount List.length] in *.
    unfold balanced. rewrite Htotal. split; lia.
Qed.

(** X16. [downloadFromLlmsTxt] ends, one iteration per listed URL
    being enough for its batches, and never fails, whatever the network
    and the file system do: an error of the list, of its reading, or of
    the making of the output directory gives a result with the one
    failure of the list itself. In every case the books of the result
    balance. *)
Theorem downloadFromLlmsTxt_balanced (fuel : nat) (llmsTxtUrl : string) :
  (List.length (listedUrls llmsTxtUrl) <= fuel)%nat ->
  exists result : DownloadResult,
    downloadFromLlmsTxt outputDir fuel llmsTxtUrl = Some result /\ balanced result.
Proof.
  unfold downloadFromLlmsTxt, listedUrls. cbv zeta.
  assert (forall e, balanced
            {| successful := [];
               failed := [(llmsTxtUrl, "Failed to fetch llms.txt: " +:+ errorToString e)];
               totalUrls := 1; downloadedCount := 0 |}) as Hcaught
    by (intros e; split; reflexivity).
  destruct (fetch 0 llmsTxtUrl) as [e|response]; [eauto|].
  destruct (resp_ok response); cbn [negb]; [|eauto].
  destruct (resp_text response) as [e|content]; [eauto|].
  intros Hfuel.
  pose proof (downloadUrls_balanced fuel 1 (parseLlmsTxt content llmsTxtUrl) Hfuel) as Hrun.
  destruct (downloadUrls outputDir fuel 1 (parseLlmsTxt content llmsTxtUrl)) as [[e|result]|];
    [eauto|eauto|contradiction].
Qed.

End Downloads.

Section List.
Context `{Web}.

Lemma comment_not_absolute (line : string) :
  startsWith line "#" || startsWith line "//" = true -> isAbsoluteUrl line = false.
Proof.
  unfold startsWith, isAbsoluteUrl. destruct line as [|c rest]; [reflexivity|].
  rewrite !prefix_cons. intros Hcomment.
  destruct (ascii_dec "h" c) as [<-|?]; [|reflexivity].
  destruct (ascii_dec "#" "h"); [discriminate|]. destruct (ascii_dec "/" "h"); discriminate.
Qed.

Lemma parseLlmsLines_absolute (baseUrl : string) (lines urls : list string) :
  urlOrigin baseUrl = None ->
  fold_left (parseLlmsLine baseUrl) lines urls
  = urls ++ filter (fun line => isAbsoluteUrl line = true) lines.
Proof.
  intros Hbase. revert urls. induction lines as [|line lines IH]; intros urls; cbn [fold_left].
  - rewrite filter_nil, app_nil_r. reflexivity.
  - rewrite IH, filter_cons. unfold parseLlmsLine. rewrite Hbase.
    destruct (startsWith line "#" || startsWith line "//") eqn:Hcomment.
    + rewrite (comment_not_absolute line Hcomment). rewrite decide_False by discriminate.
      reflexivity.
    + unfold startsWith, isAbsoluteUrl.
      destruct (String.prefix "http://" line || String.prefix "https://" line).
      * rewrite decide_True by reflexivity. rewrite <- app_assoc. reflexivity.
      * rewrite decide_False by discriminate. reflexivity.
Qed.

Lemma parseLlmsLines_keeps (baseUrl : string) (lines urls : list string) (url : string) :
  In url urls -> In url (fold_left (parseLlmsLine baseUrl) lines urls).
Proof.
  revert urls. induction lines as [|line lines IH]; intros urls Hin; cbn [fold_left]; [exact Hin|].
  apply IH. unfold parseLlmsLine.
  destruct (_ || _); [exact Hin|]. destruct (_ || _); [apply in_or_app; auto|].
  destruct (urlOrigin baseUrl); [|exact Hin].
  destruct (urlResolve line _); [apply in_or_app; auto|exact Hin].
Qed.

(** X17. Of the lines of an [llms.txt], trimmed and the blank ones left
    out, every line that starts with [http://] or [https://] is among
    the URLs parsed, as it stands. When the address of the list itself
    is not a URL, these lines are all that is parsed, in their order:
    comments and relative entries are left out. *)
Theorem parseLlmsTxt_absolute (content baseUrl : string) :
  (forall line, In line (listedLines content) -> isAbsoluteUrl line = true ->
                In line (parseLlmsTxt content baseUrl))
  /\ (urlOrigin baseUrl = None ->
      parseLlmsTxt content baseUrl
      = filter (fun line => isAbsoluteUrl line = true) (listedLines content)).
Proof.
  unfold parseLlmsTxt. cbv zeta. split.
  - generalize (@nil string) as urls. induction (listedLines content) as [|l lines IH];
      intros urls line Hin Habs; [destruct Hin|]. cbn [fold_left].
    destruct Hin as [->|Hin]; [|apply IH; assumption].
    apply parseLlmsLines_keeps. unfold parseLlmsLine.
    rewrite (proj1 (not_true_iff_false _)).
    + unfold startsWith. unfold isAbsoluteUrl in Habs. rewrite Habs. apply in_or_app.
      right. left. reflexivity.
    + intros Hcomment. rewrite (comment_not_absolute line Hcomment) in Habs. discriminate Habs.
  - intros Hbase. apply (parseLlmsLines_absolute baseUrl _ [] Hbase).
Qed.

End List.

Lemma downloadUrls_accounts_witness :
  let h := Sample.host Sample.todoWorld in
  let urls := ["https://docs.test/intro"; "https://docs.test/gone"] in
  (@mkdir Scenario.site "/out" = None /\ (List.length urls <= 2)%nat)
  /\ exists result : DownloadResult,
       @downloadUrls h Scenario.site "/out" 2 1 urls = Some (inr result)
       /\ balanced result
       /\ totalUrls result = Z.of_nat (List.length urls)
       /\ map dc_url (successful result)
          = map snd (filter (fun e => @fulfilled h Scenario.site "/out" e = true)
                            (numbered 1 urls))
       /\ map fst (failed result)
          = map snd (filter (fun e => @fulfilled h Scenario.site "/out" e = false)
                            (numbered 1 urls)).
Proof.
  intros h urls. split; [split; [reflexivity|cbn; lia]|].
  exact (@downloadUrls_accounts h Scenario.site "/out" 2 1 urls eq_refl
           ltac:(cbn; lia)).
Defined.

Lemma downloadFromLlmsTxt_balanced_witness :
  let h := Sample.host Sample.todoWorld in
  (List.length (@listedUrls Scenario.site "https://docs.test/llms.txt") <= 2)%nat
  /\ exists result : DownloadResult,
       @downloadFromLlmsTxt h Scenario.site "/out" 2 "https://docs.test/llms.txt" = Some result
       /\ balanced result.
Proof.
  intros h.
  assert (List.length (@listedUrls Scenario.site "https://docs.test/llms.txt") <= 2)%nat
    as Hfuel by (vm_compute; lia).
  split; [exact Hfuel|].
  exact (@downloadFromLlmsTxt_balanced h Scenario.site "/out" 2 "https://docs.test/llms.txt"
           Hfuel).
Defined.

Lemma parseLlmsTxt_absolute_witness :
  let content := "# pages" +:+ JS.LF +:+ "https://docs.test/intro" +:+ JS.LF
                 +:+ "  https://docs.test/gone  " +:+ JS.LF +:+ "guide/setup.md" in
  (In "https://docs.test/gone" (listedLines content)
   /\ isAbsoluteUrl "https://docs.test/gone" = true
   /\ In "https://docs.test/gone" (@parseLlmsTxt Scenario.site content "llms.txt"))
  /\ (@urlOrigin Scenario.site "llms.txt" = None
      /\ @parseLlmsTxt Scenario.site content "llms.txt"
         = filter (fun line => isAbsoluteUrl line = true) (listedLines content)).
Proof.
  intros content.
  assert (In "https://docs.test/gone" (listedLines content)) as Hin
    by (vm_compute; right; right; left; reflexivity).
  split.
  - split; [exact Hin|]. split; [reflexivity|].
    exact (proj1 (@parseLlmsTxt_absolute Scenario.site content "llms.txt") _ Hin eq_refl).
  - split; [reflexivity|].
    exact (proj2 (@parseLlmsTxt_absolute Scenario.site content "llms.txt") eq_refl).
Defined.

(** The list of the site, downloaded. *)
Example site_downloaded :
  let h := Sample.host Sample.todoWorld in
  (fun r => (map dc_filePath (successful r), failed r, totalUrls r, downloadedCount r))
    <$> @downloadFromLlmsTxt h Scenario.site "/out" 2 "https://docs.test/llms.txt"
  = Some (["/out/Intro_start_here.txt"],
          [("https://docs.test/gone", "HTTP 404: Not Found")], 2, 1).
Proof. vm_compute. reflexivity. Qed.

(** * The tool that reads a file *)

Section Reading.
Context `{Host} `{FileHost}.

Lemma readFile_validation (params : ReadFileToolParams) :
  (readable params <-> ReadFileTool.validateToolParams params = None)
  /\ (forall msg, ReadFileTool.validateToolParams params = Some msg -> JS.truthy msg = true).
Proof.
  unfold readable, ReadFileTool.validateToolParams. cbv zeta.
  destruct (JS.truthy_opt (readSchemaValidate params)) eqn:Hschema.
  { split.
    - split; [intros (? & _); discriminate|].
      intros Hnone. rewrite Hnone in Hschema. discriminate Hschema.
    - intros msg Hmsg. rewrite Hmsg in Hschema. exact Hschema. }
  destruct (path_isAbsolute (absolute_path params)); cbn [negb].
  2:{ split; [split; [intros (_ & ? & _); discriminate|discriminate]|].
      intros msg [= <-]. apply truthy_append. reflexivity. }
  destruct (isPathWithinWorkspace (absolute_path params)); cbn [negb].
  2:{ split; [split; [intros (_ & _ & ? & _); discriminate|discriminate]|].
      intros msg [= <-]. apply truthy_append. reflexivity. }
  destruct (offset params) as [o|] eqn:Ho.
  - destruct (Z.ltb_spec o 0) as [Hneg|Hpos].
    { split; [split; [|discriminate]|intros msg [= <-]; reflexivity].
      intros (_ & _ & _ & Hoff & _). specialize (Hoff o eq_refl). lia. }
    destruct (limit params) as [l|] eqn:Hl.
    + destruct (Z.leb_spec l 0) as [Hbad|Hgood].
      { split; [split; [|discriminate]|intros msg [= <-]; reflexivity].
        intros (_ & _ & _ & _ & Hlim & _). specialize (Hlim l eq_refl). lia. }
      destruct (shouldGeminiIgnoreFile (absolute_path params)).
      * split; [split; [intros (_ & _ & _ & _ & _ & ?); discriminate|discriminate]|].
        intros msg [= <-]. apply truthy_append. reflexivity.
      * split; [|discriminate]. split; [reflexivity|]. intros _.
        repeat split; try reflexivity; intros ? [= <-]; assumption.
    + destruct (shouldGeminiIgnoreFile (absolute_path params)).
      * split; [split; [intros (_ & _ & _ & _ & _ & ?); discriminate|discriminate]|].
        intros msg [= <-]. apply truthy_append. reflexivity.
      * split; [|discriminate]. split; [reflexivity|]. intros _.
        repeat split; try reflexivity; try discriminate; intros ? [= <-]; assumption.
  - destruct (limit params) as [l|] eqn:Hl.
    + destruct (Z.leb_spec l 0) as [Hbad|Hgood].
      { split; [split; [|discriminate]|intros msg [= <-]; reflexivity].
        intros (_ & _ & _ & _ & Hlim & _). specialize (Hlim l eq_refl). lia. }
      destruct (shouldGeminiIgnoreFile (absolute_path params)).
      * split; [split; [intros (_ & _ & _ & _ & _ & ?); discriminate|discriminate]|].
        intros msg [= <-]. apply truthy_append. reflexivity.
      * split; [|discriminate]. split; [reflexivity|]. intros _.
        repeat split; try reflexivity; try discriminate; intros ? [= <-]; assumption.
    + destruct (shouldGeminiIgnoreFile (absolute_path params)).
      * split; [split; [intros (_ & _ & _ & _ & _ & ?); discriminate|discriminate]|].
        intros msg [= <-]. apply truthy_append. reflexivity.
      * split; [|discriminate]. split; [reflexivity|]. intros _.
        repeat split; try reflexivity; discriminate.
Qed.

End Reading.

Lemma alter_last {A} (f : A -> A) (l : list A) (a : A) :
  alter f (List.length l) (l ++ [a]) = l ++ [f a].
Proof. rewrite <- (Nat.add_0_r (List.length l)) at 1. rewrite alter_app_r. reflexivity. Qed.

Lemma lookup_last {A} (l : list A) (a : A) : (l ++ [a]) !! List.length l = Some a.
Proof. rewrite lookup_app_r by lia. rewrite Nat.sub_diag. reflexivity. Qed.

(** Unfolding of the tool on a state given by its fields. *)
Ltac read_run :=
  unfold ReadFileTool.tracked, startSearch, newSearchSession, setToolDecisionReason, addMatch,
    setFilesScanned, complete, recordInHistory, logSearchResults, update;
  run;
  cbn [analyticsEnabled records searchHistory trace ticks negb analytics onComplete fst snd].

Ltac read_steps :=
  repeat (rewrite ?alter_last, ?lookup_last;
          cbn [analyticsEnabled records searchHistory trace ticks negb analytics onComplete
               fst snd matchDetails with_matchDetails with_resultsFound with_filesScanned
               with_executionTimeMs with_toolDecisionReason List.length app
               sort fold_left sort_insert];
          change (0 <? Z.of_nat 1) with true; change (0 <? Z.of_nat 0) with false;
          cbv beta iota).

Section Tracked.
Context `{Host} `{FileHost}.

Lemma execute_tracked_run (params : ReadFileToolParams) (st : State) (result : ProcessedFile) :
  readable params ->
  analyticsEnabled st = true ->
  processSingleFileContent (absolute_path params) getTargetDir (offset params) (limit params)
  = inr result ->
  JS.truthy_opt (pf_error result) = false ->
  exists (a : SearchAnalytics) (ma : MatchAnalytics) (st' : State),
    ReadFileTool.execute params st = (inr (okReply result), st')
    /\ records st' = records st ++ [a]
    /\ searchHistory st' = searchHistory st ++ [List.length (records st)]
    /\ trace st' = trace st ++ [EvReadFile (absolute_path params);
                                EvStatSync (absolute_path params)]
    /\ searchType a = read_files
    /\ query a = "ReadFile: " +:+ path_relative getTargetDir (absolute_path params)
    /\ matchDetails a = [ma]
    /\ readEntry params ma
    /\ resultsFound a = 1
    /\ filesScanned a = 1.
Proof.
  intros Hok Hen Hrun Herr.
  apply (proj1 (proj1 (readFile_validation params))) in Hok.
  destruct st as [rs h en tr tk]. cbn in Hen. subst en.
  unfold ReadFileTool.execute. cbv zeta. rewrite Hok. cbn [JS.truthy_opt].
  read_run. rewrite Hrun, Herr.
  cbn [analyticsEnabled records searchHistory trace ticks negb analytics onComplete fst snd].
  destruct (statSyncStats (absolute_path params)) as [e|stats]; read_steps;
    (eexists _, _, _; split; [reflexivity|]);
    cbn [records searchHistory trace]; rewrite <- app_assoc;
    repeat split.
Qed.

Lemma execute_tracked_failure (params : ReadFileToolParams) (st : State)
    (result : ProcessedFile) :
  readable params ->
  analyticsEnabled st = true ->
  processSingleFileContent (absolute_path params) getTargetDir (offset params) (limit params)
  = inr result ->
  JS.truthy_opt (pf_error result) = true ->
  exists (a : SearchAnalytics) (st' : State),
    ReadFileTool.execute params st = (inr (failedReply result), st')
    /\ records st' = records st ++ [a]
    /\ searchHistory st' = searchHistory st ++ [List.length (records st)]
    /\ searchType a = read_files
    /\ matchDetails a = []
    /\ resultsFound a = 0.
Proof.
  intros Hok Hen Hrun Herr.
  apply (proj1 (proj1 (readFile_validation params))) in Hok.
  destruct st as [rs h en tr tk]. cbn in Hen. subst en.
  unfold ReadFileTool.execute. cbv zeta. rewrite Hok. cbn [JS.truthy_opt].
  read_run. rewrite Hrun, Herr.
  cbn [analyticsEnabled records searchHistory trace ticks negb analytics onComplete fst snd].
  read_steps. eexists _, _. split; [reflexivity|]. repeat split.
Qed.

Lemma execute_tracked_rejection (params : ReadFileToolParams) (st : State) (e : JsError) :
  readable params ->
  analyticsEnabled st = true ->
  processSingleFileContent (absolute_path params) getTargetDir (offset params) (limit params)
  = inl e ->
  exists (a : SearchAnalytics) (st' : State),
    ReadFileTool.execute params st = (inl e, st')
    /\ records st' = records st ++ [a]
    /\ searchHistory st' = searchHistory st.
Proof.
  intros Hok Hen Hrun.
  apply (proj1 (proj1 (readFile_validation params))) in Hok.
  destruct st as [rs h en tr tk]. cbn in Hen. subst en.
  unfold ReadFileTool.execute. cbv zeta. rewrite Hok. cbn [JS.truthy_opt].
  read_run. rewrite Hrun. read_steps. eexists _, _. split; [reflexivity|]. repeat split.
Qed.

Lemma execute_untracked_run (params : ReadFileToolParams) (st : State) :
  readable params ->
  analyticsEnabled st = false ->
  exists st' : State,
    ReadFileTool.execute params st
    = (match processSingleFileContent (absolute_path params) getTargetDir
               (offset params) (limit params) with
       | inl e => inl e
       | inr result =>
           inr (if JS.truthy_opt (pf_error result) then failedReply result else okReply result)
       end, st')
    /\ records st' = records st
    /\ searchHistory st' = searchHistory st
    /\ ticks st' = ticks st.
Proof.
  intros Hok Hen.
  apply (proj1 (proj1 (readFile_validation params))) in Hok.
  destruct st as [rs h en tr tk]. cbn in Hen. subst en.
  unfold ReadFileTool.execute. cbv zeta. rewrite Hok. cbn [JS.truthy_opt].
  read_run.
  destruct (processSingleFileContent _ _ _ _) as [e|result];
    [|destruct (JS.truthy_opt (pf_error result))];
    eexists; (split; [reflexivity|]); repeat split.
Qed.

(** X18. The reading tool accepts exactly the parameters that pass the
    schema and name an absolute path inside the workspace that the
    ignore patterns do not cover, with an offset, if given, that is not
    negative and a limit, if given, that is positive; and the message of
    every refusal is not empty, so that the tool acts on it. *)
Theorem read_validation_accepts (params : ReadFileToolParams) :
  (readable params <-> ReadFileTool.validateToolParams params = None)
  /\ (forall msg, ReadFileTool.validateToolParams params = Some msg -> JS.truthy msg = true).
Proof. apply readFile_validation. Qed.

(** X19. Refused parameters are answered with the validation error and
    nothing else happens: no session is started, so that, unlike a
    refused search, a refused read leaves no record and no entry in the
    history even when the telemetry is on, and no file is touched. *)
Theorem read_refused_untracked (params : ReadFileToolParams) (msg : string) (st : State) :
  ReadFileTool.validateToolParams params = Some msg ->
  ReadFileTool.execute params st
  = (inr {| read_llmContent := TextPart ("Error: Invalid parameters provided. Reason: " +:+ msg);
            read_returnDisplay := msg |}, st).
Proof.
  intros Hmsg. unfold ReadFileTool.execute. cbv zeta.
  rewrite Hmsg. cbn [JS.truthy_opt].
  rewrite (proj2 (readFile_validation params) msg Hmsg). reflexivity.
Qed.

(** X20. With the telemetry on, a read that goes through leaves exactly
    one new record, entered in the history, of type [read_files] and
    with the query [ReadFile: <relative path>]; it holds one match, for
    the file, with relevance 1 and the offset as its line number (0 when
    none was given), one result found and one file scanned. The file is
    read, then its stats are taken. *)
Theorem read_tracked (params : ReadFileToolParams) (st : State) (result : ProcessedFile) :
  readable params ->
  analyticsEnabled st = true ->
  processSingleFileContent (absolute_path params) getTargetDir (offset params) (limit params)
  = inr result ->
  JS.truthy_opt (pf_error result) = false ->
  exists (a : SearchAnalytics) (ma : MatchAnalytics) (st' : State),
    ReadFileTool.execute params st = (inr (okReply result), st')
    /\ records st' = records st ++ [a]
    /\ searchHistory st' = searchHistory st ++ [List.length (records st)]
    /\ trace st' = trace st ++ [EvReadFile (absolute_path params);
                                EvStatSync (absolute_path params)]
    /\ searchType a = read_files
    /\ query a = "ReadFile: " +:+ path_relative getTargetDir (absolute_path params)
    /\ matchDetails a = [ma]
    /\ readEntry params ma
    /\ resultsFound a = 1
    /\ filesScanned a = 1.
Proof. apply execute_tracked_run. Qed.

(** X21. With the telemetry on, a read that reports an error still
    completes its session: one record without a match is entered in the
    history. A read that is rejected fails the tool and leaves its
    session open: the record is made but never enters the history. *)
Theorem read_failure_tracked (params : ReadFileToolParams) (st : State) :
  readable params ->
  analyticsEnabled st = true ->
  match processSingleFileContent (absolute_path params) getTargetDir
          (offset params) (limit params) with
  | inr result =>
      JS.truthy_opt (pf_error result) = true ->
      exists (a : SearchAnalytics) (st' : State),
        ReadFileTool.execute params st = (inr (failedReply result), st')
        /\ records st' = records st ++ [a]
        /\ searchHistory st' = searchHistory st ++ [List.length (records st)]
        /\ searchType a = read_files
        /\ matchDetails a = []
        /\ resultsFound a = 0
  | inl e =>
      exists (a : SearchAnalytics) (st' : State),
        ReadFileTool.execute params st = (inl e, st')
        /\ records st' = records st ++ [a]
        /\ searchHistory st' = searchHistory st
  end.
Proof.
  intros Hok Hen.
  destruct (processSingleFileContent _ _ _ _) as [e|result] eqn:Hrun.
  - apply execute_tracked_rejection; assumption.
  - intros Herr. apply execute_tracked_failure; assumption.
Qed.

(** X22. What the reading tool answers does not depend on the
    telemetry: on accepted parameters, whatever the state, it is the
    rejection of [processSingleFileContent], the error that it reports,
    or its content; with the telemetry off, no record is made, the
    history is left alone and the clock is not read. *)
Theorem read_telemetry_noninterference (params : ReadFileToolParams) (st : State) :
  readable params ->
  fst (ReadFileTool.execute params st)
  = match processSingleFileContent (absolute_path params) getTargetDir
            (offset params) (limit params) with
    | inl e => inl e
    | inr result =>
        inr (if JS.truthy_opt (pf_error result) then failedReply result else okReply result)
    end
  /\ (analyticsEnabled st = false ->
      records (snd (ReadFileTool.execute params st)) = records st
      /\ searchHistory (snd (ReadFileTool.execute params st)) = searchHistory st
      /\ ticks (snd (ReadFileTool.execute params st)) = ticks st).
Proof.
  intros Hok. destruct (analyticsEnabled st) eqn:Hen.
  - split; [|discriminate].
    destruct (processSingleFileContent _ _ _ _) as [e|result] eqn:Hrun.
    + destruct (execute_tracked_rejection params st e Hok Hen Hrun) as (a & st' & -> & _).
      reflexivity.
    + destruct (JS.truthy_opt (pf_error result)) eqn:Herr.
      * destruct (execute_tracked_failure params st result Hok Hen Hrun Herr)
          as (a & st' & -> & _). reflexivity.
      * destruct (execute_tracked_run params st result Hok Hen Hrun Herr)
          as (a & ma & st' & -> & _). reflexivity.
  - destruct (execute_untracked_run params st Hok Hen) as (st' & -> & Hrec). auto.
Qed.

End Tracked.

Lemma read_validation_accepts_witness :
  let h := Sample.host Sample.todoWorld in
  let params := {| absolute_path := "/ws/a.txt"; offset := Some 0; limit := Some 10 |} in
  let negative := {| absolute_path := "/ws/a.txt"; offset := Some (-1); limit := None |} in
  (@ReadFileTool.validateToolParams h Scenario.reader params = None
   /\ @readable h Scenario.reader params)
  /\ (@ReadFileTool.validateToolParams h Scenario.reader negative
      = Some "Offset must be a non-negative number"
      /\ JS.truthy "Offset must be a non-negative number" = true).
Proof.
  intros h params negative. split.
  - split; [reflexivity|].
    exact (proj2 (proj1 (@read_validation_accepts h Scenario.reader params)) eq_refl).
  - split; [reflexivity|].
    exact (proj2 (@read_validation_accepts h Scenario.reader negative) _ eq_refl).
Defined.

Lemma read_refused_untracked_witness :
  let h := Sample.host Sample.todoWorld in
  let params := {| absolute_path := "a.txt"; offset := None; limit := None |} in
  let msg := "File path must be absolute, but was relative: a.txt. You must provide an absolute path." in
  @ReadFileTool.validateToolParams h Scenario.reader params = Some msg
  /\ @ReadFileTool.execute h Scenario.reader params (Sample.initial true)
     = (inr {| read_llmContent :=
                 TextPart ("Error: Invalid parameters provided. Reason: " +:+ msg);
               read_returnDisplay := msg |}, Sample.initial true).
Proof.
  intros h params msg. split; [reflexivity|].
  exact (@read_refused_untracked h Scenario.reader params msg (Sample.initial true) eq_refl).
Defined.

Lemma read_tracked_witness :
  let h := Sample.host Sample.todoWorld in
  let params := {| absolute_path := "/ws/a.txt"; offset := Some 2; limit := Some 1 |} in
  let result := {| pf_llmContent := Some (TextPart "// TODO fix");
                   pf_returnDisplay := Some "Read 1 line"; pf_error := None |} in
  (@readable h Scenario.reader params
   /\ analyticsEnabled (Sample.initial true) = true
   /\ @processSingleFileContent Scenario.reader (absolute_path params) (@getTargetDir h)
        (offset params) (limit params) = inr result
   /\ JS.truthy_opt (pf_error result) = false)
  /\ exists (a : SearchAnalytics) (ma : MatchAnalytics) (st' : State),
       @ReadFileTool.execute h Scenario.reader params (Sample.initial true)
       = (inr (okReply result), st')
       /\ records st' = records (Sample.initial true) ++ [a]
       /\ searchHistory st'
          = searchHistory (Sample.initial true) ++ [List.length (records (Sample.initial true))]
       /\ trace st' = trace (Sample.initial true)
                      ++ [EvReadFile (absolute_path params); EvStatSync (absolute_path params)]
       /\ searchType a = read_files
       /\ query a = "ReadFile: " +:+ @path_relative h (@getTargetDir h) (absolute_path params)
       /\ matchDetails a = [ma]
       /\ @readEntry h params ma
       /\ resultsFound a = 1
       /\ filesScanned a = 1.
Proof.
  intros h params result.
  assert (@readable h Scenario.reader params) as Hok.
  { repeat split; try reflexivity; intros ? [= <-]; lia. }
  split; [split; [exact Hok|repeat split]|].
  exact (@read_tracked h Scenario.reader params (Sample.initial true) result Hok
           eq_refl eq_refl eq_refl).
Defined.

Lemma read_failure_tracked_witness :
  let h := Sample.host Sample.todoWorld in
  let missing := {| absolute_path := "/ws/missing.txt"; offset := None; limit := None |} in
  let locked := {| absolute_path := "/ws/locked.txt"; offset := None; limit := None |} in
  let result := {| pf_llmContent := None; pf_returnDisplay := None;
                   pf_error := Some "File not found: /ws/missing.txt" |} in
  (exists (a : SearchAnalytics) (st' : State),
     @ReadFileTool.execute h Scenario.reader missing (Sample.initial true)
     = (inr (failedReply result), st')
     /\ records st' = records (Sample.initial true) ++ [a]
     /\ searchHistory st'
        = searchHistory (Sample.initial true) ++ [List.length (records (Sample.initial true))]
     /\ searchType a = read_files
     /\ matchDetails a = []
     /\ resultsFound a = 0)
  /\ (exists (a : SearchAnalytics) (st' : State),
        @ReadFileTool.execute h Scenario.reader locked (Sample.initial true)
        = (inl Scenario.denied, st')
        /\ records st' = records (Sample.initial true) ++ [a]
        /\ searchHistory st' = searchHistory (Sample.initial true)).
Proof.
  intros h missing locked result.
  assert (@readable h Scenario.reader missing) as Hmissing.
  { repeat split; try reflexivity; discriminate. }
  assert (@readable h Scenario.reader locked) as Hlocked.
  { repeat split; try reflexivity; discriminate. }
  split.
  - exact (@read_failure_tracked h Scenario.reader missing (Sample.initial true) Hmissing
             eq_refl eq_refl).
  - exact (@read_failure_tracked h Scenario.reader locked (Sample.initial true) Hlocked
             eq_refl).
Defined.

Lemma read_telemetry_noninterference_witness :
  let h := Sample.host Sample.todoWorld in
  let params := {| absolute_path := "/ws/a.txt"; offset := Some 2; limit := Some 1 |} in
  @readable h Scenario.reader params
  /\ fst (@ReadFileTool.execute h Scenario.reader params (Sample.initial true))
     = fst (@ReadFileTool.execute h Scenario.reader params (Sample.initial false))
  /\ records (snd (@ReadFileTool.execute h Scenario.reader params (Sample.initial false))) = [].
Proof.
  intros h params.
  assert (@readable h Scenario.reader params) as Hok.
  { repeat split; try reflexivity; intros ? [= <-]; lia. }
  split; [exact Hok|]. split.
  - rewrite (proj1 (@read_telemetry_noninterference h Scenario.reader params
                      (Sample.initial true) Hok)).
    rewrite (proj1 (@read_telemetry_noninterference h Scenario.reader params
                      (Sample.initial false) Hok)).
    reflexivity.
  - exact (proj1 (proj2 (@read_telemetry_noninterference h Scenario.reader params
                            (Sample.initial false) Hok) eq_refl)).
Defined.

(** * The figures of the report *)

(** ** Objects with distinct keys *)

Lemma JsObject_own_None {V} (o : JsObject.t V) (k : string) :
  JsObject.own o k = None <-> ~ In k (map fst o).
Proof.
  induction o as [|[k0 v0] o IH]; cbn [JsObject.own map fst In]; [tauto|].
  destruct (String.eqb_spec k0 k) as [->|Hne]; [|tauto].
  split; [discriminate|]. intros Hnot. exfalso. apply Hnot. left. reflexivity.
Qed.

Lemma JsObject_own_unique {V} (o : JsObject.t V) (k : string) (v : V) :
  NoDup (map fst o) -> In (k, v) o -> JsObject.own o k = Some v.
Proof.
  induction o as [|[k0 v0] o IH]; cbn [JsObject.own map fst In]; [intros _ []|].
  intros Hnodup [E|Hin]; apply NoDup_cons in Hnodup as [Hk0 Hnodup].
  - injection E as -> ->. rewrite String.eqb_refl. reflexivity.
  - destruct (String.eqb_spec k0 k) as [->|Hne]; [|apply IH; assumption].
    exfalso. apply Hk0. apply list_elem_of_In. apply (in_map fst) in Hin. exact Hin.
Qed.

Lemma JsObject_set_keys {V} (o : JsObject.t V) (k : string) (v : V) :
  map fst (JsObject.set o k v)
  = match JsObject.own o k with Some _ => map fst o | None => map fst o ++ [k] end.
Proof.
  induction o as [|[k0 v0] o IH]; cbn [JsObject.set JsObject.own map fst app]; [reflexivity|].
  destruct (String.eqb_spec k0 k) as [->|Hne]; [reflexivity|].
  cbn [map fst]. rewrite IH. destruct (JsObject.own o k); reflexivity.
Qed.

Lemma JsObject_set_NoDup {V} (o : JsObject.t V) (k : string) (v : V) :
  NoDup (map fst o) -> NoDup (map fst (JsObject.set o k v)).
Proof.
  intros Hnodup. rewrite JsObject_set_keys. destruct (JsObject.own o k) eqn:Hown; [exact Hnodup|].
  apply NoDup_app. split; [exact Hnodup|]. split; [|apply NoDup_singleton].
  intros x Hx Hk. apply list_elem_of_singleton in Hk. subst x.
  apply JsObject_own_None in Hown. apply Hown, list_elem_of_In, Hx.
Qed.

Lemma filter_partition {A} (p : A -> bool) (l : list A) :
  Permutation (filter (fun x => p x = true) l ++ filter (fun x => p x = false) l) l.
Proof.
  induction l as [|x l IH]; [reflexivity|]. rewrite !filter_cons.
  destruct (p x) eqn:Hp.
  - rewrite decide_True by reflexivity. rewrite decide_False by discriminate.
    cbn [app]. constructor. exact IH.
  - rewrite decide_False by discriminate. rewrite decide_True by reflexivity.
    rewrite <- Permutation_middle. constructor. exact IH.
Qed.

Lemma JsObject_forIn_Permutation {V} (o : JsObject.t V) : Permutation (JsObject.forIn o) o.
Proof.
  unfold JsObject.forIn. rewrite sort_Permutation.
  apply (filter_partition (fun e => JsObject.isArrayIndex (fst e))).
Qed.

Lemma JsObject_forIn_own {V} (o : JsObject.t V) (k : string) :
  NoDup (map fst o) -> JsObject.own (JsObject.forIn o) k = JsObject.own o k.
Proof.
  intros Hnodup.
  assert (NoDup (map fst (JsObject.forIn o))) as Hnodup'.
  { rewrite (JsObject_forIn_Permutation o). exact Hnodup. }
  destruct (JsObject.own o k) as [v|] eqn:Hown.
  - apply JsObject_own_unique; [exact Hnodup'|].
    apply JsObject_forIn_In, JsObject_own_In, Hown.
  - apply JsObject_own_None. apply JsObject_own_None in Hown.
    intros Hin. apply Hown. rewrite <- (JsObject_forIn_Permutation o). exact Hin.
Qed.

(** ** Counting by type *)

Lemma SearchType_name_inj (a b : SearchType) : SearchType_name a = SearchType_name b -> a = b.
Proof. destruct a, b; (reflexivity || discriminate). Qed.

Lemma SearchType_name_own (ty : SearchType) :
  existsb (String.eqb (SearchType_name ty)) JsObject.objectPrototypeKeys = false.
Proof. destruct ty; reflexivity. Qed.

Section Counting.
Context `{Host}.

Lemma tally_keys (acc : JsObject.t UsageTotals) (s : SearchAnalytics) :
  NoDup (map fst acc) -> NoDup (map fst (tally acc s)).
Proof.
  intros Hnodup. unfold tally. cbv zeta.
  destruct (JsObject.get acc _); [apply JsObject_set_NoDup, Hnodup|exact Hnodup|
                                  apply JsObject_set_NoDup, Hnodup].
Qed.

Lemma tally_names (acc : JsObject.t UsageTotals) (s : SearchAnalytics) (k : string) :
  In k (map fst (tally acc s)) ->
  In k (map fst acc) \/ k = SearchType_name (searchType s).
Proof.
  unfold tally. cbv zeta.
  destruct (JsObject.get acc _); [|auto|]; rewrite JsObject_set_keys;
    destruct (JsObject.own acc _); auto; rewrite in_app_iff; cbn [In]; intuition auto.
Qed.

Lemma tally_count (acc : JsObject.t UsageTotals) (s : SearchAnalytics) (ty : SearchType) :
  ut_count <$> JsObject.own (tally acc s) (SearchType_name ty)
  = if decide (searchType s = ty)
    then Some (default 0 (ut_count <$> JsObject.own acc (SearchType_name ty)) + 1)
    else ut_count <$> JsObject.own acc (SearchType_name ty).
Proof.
  unfold tally, JsObject.get. cbv zeta. rewrite SearchType_name_own.
  destruct (JsObject.own acc (SearchType_name (searchType s))) as [t|] eqn:Hown;
    rewrite JsObject_own_set;
    (destruct (decide (searchType s = ty)) as [<-|Hne];
     [rewrite String.eqb_refl, ?Hown; reflexivity|]);
    (destruct (String.eqb_spec (SearchType_name (searchType s)) (SearchType_name ty)) as [E|_];
     [apply SearchType_name_inj in E; contradiction|reflexivity]).
Qed.

Lemma tally_all_count (history : list SearchAnalytics) (acc : JsObject.t UsageTotals)
    (ty : SearchType) :
  ut_count <$> JsObject.own (fold_left tally history acc) (SearchType_name ty)
  = if searchesOf ty history =? 0
    then ut_count <$> JsObject.own acc (SearchType_name ty)
    else Some (default 0 (ut_count <$> JsObject.own acc (SearchType_name ty))
               + searchesOf ty history).
Proof.
  revert acc. induction history as [|s history IH]; intros acc; [reflexivity|].
  cbn [fold_left]. rewrite IH, tally_count. unfold searchesOf. rewrite filter_cons.
  destruct (decide (searchType s = ty)) as [Hs|Hs]; [|reflexivity].
  cbn [List.length default]. rewrite Nat2Z.inj_succ.
  set (n := Z.of_nat (List.length (filter (fun s0 => searchType s0 = ty) history))).
  assert (0 <= n) as Hn by (unfold n; lia).
  destruct (Z.eqb_spec n 0), (Z.eqb_spec (Z.succ n) 0); try lia; unfold id; f_equal; lia.
Qed.

Lemma tally_all_keys (history : list SearchAnalytics) (acc : JsObject.t UsageTotals) :
  NoDup (map fst acc) -> NoDup (map fst (fold_left tally history acc)).
Proof.
  revert acc. induction history as [|s history IH]; intros acc Hacc; [exact Hacc|].
  cbn [fold_left]. apply IH, tally_keys, Hacc.
Qed.

Lemma tally_all_names (history : list SearchAnalytics) (acc : JsObject.t UsageTotals)
    (k : string) :
  In k (map fst (fold_left tally history acc)) ->
  In k (map fst acc) \/ exists ty, k = SearchType_name ty.
Proof.
  revert acc. induction history as [|s history IH]; intros acc; [auto|].
  cbn [fold_left]. intros Hin. destruct (IH _ Hin) as [Hk|Hk]; [|auto].
  destruct (tally_names acc s k Hk); eauto.
Qed.

Lemma figures_count (total : Z) (entries : list (string * UsageTotals))
    (acc : JsObject.t UsageStats) (k : string) :
  NoDup (map fst entries) ->
  us_count <$> JsObject.own (fold_left (figures total) entries acc) k
  = match JsObject.own entries k with
    | Some t => Some (ut_count t)
    | None => us_count <$> JsObject.own acc k
    end.
Proof.
  revert acc. induction entries as [|[k0 t0] entries IH]; intros acc Hnodup; [reflexivity|].
  cbn [map fst] in Hnodup. apply NoDup_cons in Hnodup as [Hk0 Hnodup].
  cbn [fold_left JsObject.own]. rewrite (IH _ Hnodup). unfold figures.
  rewrite JsObject_own_set.
  destruct (String.eqb_spec k0 k) as [->|Hne]; [|reflexivity].
  rewrite (proj2 (JsObject_own_None entries k)); [reflexivity|].
  intros Hin. apply Hk0, list_elem_of_In, Hin.
Qed.

(** X23. The breakdown by tool of the report has, for each search type
    that occurs in the history, one entry whose count is the number of
    the searches of that type, and has no other entry. *)
Theorem getToolUsageBreakdown_counts (history : list SearchAnalytics) :
  (forall ty : SearchType,
     us_count <$> JsObject.own (getToolUsageBreakdown history) (SearchType_name ty)
     = if searchesOf ty history =? 0 then None else Some (searchesOf ty history))
  /\ (forall key : string,
        (forall ty, key <> SearchType_name ty) ->
        JsObject.own (getToolUsageBreakdown history) key = None).
Proof.
  unfold getToolUsageBreakdown. cbv zeta.
  assert (NoDup (map fst (fold_left tally history []))) as Hnodup
    by (apply tally_all_keys; constructor).
  assert (NoDup (map fst (JsObject.forIn (fold_left tally history [])))) as Hnodup'
    by (rewrite (JsObject_forIn_Permutation _); exact Hnodup).
  split.
  - intros ty. rewrite (figures_count _ _ _ _ Hnodup'), (JsObject_forIn_own _ _ Hnodup).
    pose proof (tally_all_count history [] ty) as Hcount. cbn [JsObject.own fmap] in Hcount.
    destruct (JsObject.own (fold_left tally history []) (SearchType_name ty)) as [t|];
      cbn [fmap option_fmap option_map] in Hcount.
    + rewrite Hcount. destruct (_ =? 0); [reflexivity|].
      cbn [default]. reflexivity.
    + cbn [JsObject.own fmap option_fmap option_map].
      destruct (_ =? 0); [reflexivity|discriminate Hcount].
  - intros key Hkey.
    assert (JsObject.own (JsObject.forIn (fold_left tally history [])) key = None) as Hnone.
    { rewrite (JsObject_forIn_own _ _ Hnodup). apply JsObject_own_None. intros Hin.
      destruct (tally_all_names history [] key Hin) as [[]|[ty ->]]. exact (Hkey ty eq_refl). }
    pose proof (figures_count (Z.of_nat (List.length history)) _ [] key Hnodup') as Hcount.
    rewrite Hnone in Hcount. change (JsObject.own [] key) with (@None UsageStats) in Hcount.
    match goal with |- ?x = None => destruct x as [u|] eqn:E; [|reflexivity] end.
    cbn in Hcount. discriminate Hcount.
Qed.

End Counting.

Lemma getToolUsageBreakdown_counts_witness :
  let h := Sample.host Sample.todoWorld in
  let search := fun ty : SearchType =>
    {| timestamp := 0; query := "q"; searchType := ty; targetPath := ".";
       sa_pattern := None; executionTimeMs := 1.5; resultsFound := 2; filesScanned := 1;
       matchDetails := []; searchStrategy := "tool"; rankingFactors := None;
       toolDecisionReason := None |} in
  let history := [search grep; search read_files; search grep] in
  (forall ty, "toString" <> SearchType_name ty)
  /\ JsObject.own (@getToolUsageBreakdown h history) "toString" = None
  /\ (us_count <$> JsObject.own (@getToolUsageBreakdown h history) "grep") = Some 2.
Proof.
  intros h search history.
  assert (forall ty, "toString" <> SearchType_name ty) as Hkey by (intros []; discriminate).
  split; [exact Hkey|]. split.
  - exact (proj2 (@getToolUsageBreakdown_counts h history) "toString" Hkey).
  - exact (proj1 (@getToolUsageBreakdown_counts h history) grep).
Defined.

Example getToolUsageBreakdown_ex :
  let h := Sample.host Sample.todoWorld in
  let search := fun (ty : SearchType) (t : Q) (n : Z) =>
    {| timestamp := 0; query := "q"; searchType := ty; targetPath := ".";
       sa_pattern := None; executionTimeMs := t; resultsFound := n; filesScanned := 1;
       matchDetails := []; searchStrategy := "tool"; rankingFactors := None;
       toolDecisionReason := None |} in
  @getToolUsageBreakdown h [search grep 1.5%Q 2; search read_files 4%Q 1; search grep 2.5%Q 0]
  = [("grep", {| us_count := 2; us_percentage := "66.7%"; us_avgTime := "2.00";
                 us_avgResults := "1.0" |});
     ("read_files", {| us_count := 1; us_percentage := "33.3%"; us_avgTime := "4.00";
                       us_avgResults := "1.0" |})].
Proof. vm_compute. reflexivity. Qed.
